(** * OneRiser DSP core: a shallow embedding and its properties

    The development follows the C++ sources under [Source/Components]:
    [pa.h] (maths helpers, [HeapBlock], [RingBuffer]), [CombFilter.h],
    [Filter.h], [Reverb.h] and [RiserProcessor.h].

    The sources are embedded twice.

    The first embedding reads [float] and [double] as exact rationals
    ([Q]).  It carries the properties that are relations between real
    values or frame properties: which fields a call changes, which index it
    reads, which formula a coefficient obeys.
    - [uint] (32-bit unsigned) is a [Z] with the wrap-around modulo [2^32]
      written out at every arithmetic operation of the source.
    - every floating operation of the source is kept, rounding is not
      modelled.  Equality of computed samples is therefore stated with [==]
      (equality of fractions).
    - a [float*] argument of a single-sample call is an [option Q]
      ([None] is [nullptr]); sample arrays are lists.
    - member functions take the object as first argument and return the
      updated object (explicit state passing).

    The second embedding (module [Ieee]) reads [float] as IEEE 754 binary32
    and [double] as binary64, bit for bit, with infinities and NaN, and
    checks memory and conversions: a read or write outside an allocation,
    a dereferenced null pointer and a conversion to an integer type of a
    value outside its range end the computation with a [Fault].  It carries
    the properties that depend on rounding, on NaN, or on an access landing
    inside the allocation. *)

From Stdlib Require Import ZArith QArith Qabs Qround Qfield Lia Lqa Bool
  SpecFloat.
From stdpp Require Import base list.

Local Open Scope Z_scope.

(** ** Numeric conventions *)

Module Num.

Definition UINT_MOD : Z := 2 ^ 32.

(** Result of an [unsigned int] operation whose mathematical value is [z]. *)
Definition wrap (z : Z) : Z := z mod UINT_MOD.

Definition Qltb (a b : Q) : bool := negb (Qle_bool b a).
Definition Qleb (a b : Q) : bool := Qle_bool a b.
Definition Qeqb (a b : Q) : bool := Qeq_bool a b.

(** Conversion of a floating value to an integer type truncates toward
    zero. *)
Definition Qtrunc (x : Q) : Z := Z.quot (Qnum x) (Z.pos (Qden x)).

(** [uint(x)] for a floating [x].  C++ leaves the conversion undefined
    outside the range of [uint]; the model wraps there. *)
Definition toUint (x : Q) : Z := wrap (Qtrunc x).

(** [FloatType(n)] for an integer [n]. *)
Definition ofInt (n : Z) : Q := inject_Z n.

(** [std::fmod]: the remainder has the sign of the dividend. *)
Definition fmod (x y : Q) : Q := (x - ofInt (Qtrunc (x / y)) * y)%Q.

Definition M_PI : Q := 3.14159265358979323846%Q.
Definition M_SQRT1_2 : Q := 0.70710678118654752440%Q.

End Num.

(** ** [pa::math] *)

Module Math.
Import Num.

(** [clamp<NumType>] at a floating type. *)
Definition clamp (val min max : Q) : Q :=
  if Qltb val min then min else if Qltb max val then max else val.

(** [clamp<uint>] / [setClamp<uint>]. *)
Definition clampU (val min max : Z) : Z :=
  if val <? min then min else if max <? val then max else val.

(** [setClamp] writes the clamped value through its pointer; the embedding
    returns the value written. *)
Definition setClamp (val min max : Q) : Q :=
  if Qltb val min then min else if Qltb max val then max else val.

Definition setClampU (val min max : Z) : Z :=
  if val <? min then min else if max <? val then max else val.

Definition map (val inMin inMax outMin outMax : Q) : Q :=
  (((val - inMin) / (inMax - inMin)) * (outMax - outMin) + outMin)%Q.

(** [mod1]: [input - FloatType(int(input))].  [int (input)] is defined
    when the truncation fits an [int] ([intConvertible] below); there it is
    the truncation used here.  [Ieee.Math.mod1] checks the range. *)
Definition mod1 (input : Q) : Q := (input - ofInt (Qtrunc input))%Q.

Definition WrapPi (input : Q) (useHalfPi : bool) : Q :=
  if useHalfPi
  then (fmod (input - M_PI * 0.5) M_PI - M_PI * 0.5)%Q
  else (fmod (input - M_PI) (2 * M_PI) - M_PI)%Q.

Definition FastTan (x0 : Q) : Q :=
  let x := WrapPi x0 true in
  let x2 := (x * x)%Q in
  let num := (x * (-135135 + x2 * (17325 + x2 * (-378 + x2))))%Q in
  let den := (-135135 + x2 * (62370 + x2 * (-3150 + 28 * x2)))%Q in
  (num / den)%Q.

Definition LinearInterp (a b t : Q) : Q :=
  if Qleb t 0 then a
  else if Qleb 1 t then b
  else (a + t * (b - a))%Q.

Definition Lerp (a b t : Q) : Q := LinearInterp a b t.

Definition CubicInterp (a b c d t : Q) (useCatmullRom : bool) : Q :=
  if Qleb t 0 then b
  else if Qleb 1 t then c
  else
    let t2 := (t * t)%Q in
    let '(a0, a1, a2) :=
      if useCatmullRom
      then ((-0.5 * a + 1.5 * b - 1.5 * c + 0.5 * d)%Q,
            (a - 2.5 * b + 2 * c - 0.5 * d)%Q,
            (-0.5 * a + 0.5 * c)%Q)
      else
        let a0 := (d - c - a + b)%Q in
        (a0, (a - b - a0)%Q, (c - a)%Q) in
    (a0 * t * t2 + a1 * t2 + a2 * t + b)%Q.

Definition ExpRounder (input curveValue : Q) : Q :=
  let x := clamp input (-1) 1 in
  let c0 := clamp curveValue (-1) 1 in
  let c := if Qleb 0 c0 then map c0 0 1 0 20 else map c0 (-1) 0 (-0.95) 0 in
  if Qltb 0 x && Qleb x 1 then ((x * (1 + c)) / (c * x + 1))%Q
  else if Qleb (-1) x && Qleb x 0 then ((- x * (1 + c)) / (c * x - 1))%Q
  else 0%Q.

(** Modelled from the spec: [Reverb.h] and [RiserProcessor.h] call
    [pa::math::expRounder] and [Filter.h] calls [pa::math::fastTan]; [pa.h]
    declares these helpers only under the spellings [ExpRounder] and
    [FastTan].  The spec's "exponential response curve" and "fast tangent
    approximation" are those two functions. *)
Definition expRounder (input curveValue : Q) : Q := ExpRounder input curveValue.
Definition fastTan (x : Q) : Q := FastTan x.

End Math.

(** ** [juce::SmoothedValue<FloatType>] (linear smoothing)

    Modelled from the spec: the class belongs to the JUCE library, not to the
    repository.  The spec's "Smoothed Parameter" is a scalar that ramps
    linearly from its current value to a target over a configured time and is
    evaluated once per sample; the definitions below follow the library's
    linear ramp: a step count fixed by [reset], a countdown armed by
    [setTargetValue], one step per [getNextValue]. *)

Module SmoothedValue.
Import Num.

Record t := mk {
  currentValue : Q;
  target : Q;
  step : Q;
  countdown : Z;
  stepsToTarget : Z
}.

(** [SmoothedValue (initialValue)]. *)
Definition make (initialValue : Q) : t :=
  mk initialValue initialValue 0 0 0.

Definition isSmoothing (s : t) : bool := 0 <? countdown s.

Definition setCurrentAndTargetValue (s : t) (newValue : Q) : t :=
  mk newValue newValue (step s) 0 (stepsToTarget s).

(** [reset (sampleRate, rampLengthInSeconds)]. *)
Definition reset (s : t) (sampleRate rampLengthInSeconds : Q) : t :=
  let numSteps := Qfloor (rampLengthInSeconds * sampleRate) in
  setCurrentAndTargetValue
    (mk (currentValue s) (target s) (step s) (countdown s) numSteps)
    (target s).

Definition setTargetValue (s : t) (newValue : Q) : t :=
  if Qeqb newValue (target s) then s
  else if stepsToTarget s <=? 0 then setCurrentAndTargetValue s newValue
  else
    mk (currentValue s) newValue
       ((newValue - currentValue s) / ofInt (stepsToTarget s))%Q
       (stepsToTarget s) (stepsToTarget s).

Definition getNextValue (s : t) : Q * t :=
  if negb (isSmoothing s) then (target s, s)
  else
    let cd := countdown s - 1 in
    let cur := if 0 <? cd then (currentValue s + step s)%Q else target s in
    (cur, mk cur (target s) (step s) cd (stepsToTarget s)).

End SmoothedValue.

(** ** [pa::dsp::HeapBlock<float>]

    The allocation holds [size] cells ([data]).  [operator[]] sends every
    index [>= size] to [data[size]], the cell one past the allocation.  C++
    gives that access no meaning; the embedding keeps the cell as a field of
    its own ([past]) so that the out-of-range branch stays visible and the
    functions stay total.  Properties about the sample a call reads or
    writes are stated for indices inside the allocation;
    [Ieee.HeapBlock] ends an access outside it with a fault. *)

Module HeapBlock.

Record t := mk {
  data : list Q;
  past : Q;
  size : Z
}.

Definition empty : t := mk [] 0%Q 0.

Definition getSize (b : t) : Z := size b.

(** The cell [operator[]] resolves [index] to. *)
Definition cell (b : t) (index : Z) : Z :=
  if size b <=? index then size b else index.

(** Reading through [operator[]]. *)
Definition get (b : t) (index : Z) : Q :=
  default (past b) (data b !! Z.to_nat (cell b index)).

(** Writing through [operator[]]. *)
Definition set (b : t) (index : Z) (v : Q) : t :=
  if size b <=? index
  then mk (data b) v (size b)
  else mk (<[Z.to_nat index := v]> (data b)) (past b) (size b).

(** [reallocate]: the old contents are kept as far as they fit; the cells
    gained are unspecified in C and [0] here ([RingBuffer::prepare] clears
    the block right after). *)
Definition reallocate (b : t) (newNumElements : Z) : t :=
  let n := Z.to_nat newNumElements in
  mk (take n (data b ++ replicate n 0%Q)) (past b) newNumElements.

Definition free (b : t) : t := mk [] (past b) 0.

(** [initialise]: [data[i] = 0] for every [i < size]. *)
Definition initialise (b : t) : t :=
  mk (replicate (Z.to_nat (size b)) 0%Q ++ drop (Z.to_nat (size b)) (data b))
     (past b) (size b).

End HeapBlock.

(** ** [pa::dsp::RingBuffer<float>] *)

Inductive InterpolationType : Set :=
  | noInterp | linearInterp | cosineInterp | cubicInterp | hermiteInterp.

Module RingBuffer.
Import Num.

Record t := mk {
  buffer : HeapBlock.t;
  size : Z;
  writeIndex : Z;
  sampleRate : Z;
  delaySmoothTime : Q;
  delayTime : SmoothedValue.t
}.

(** Default member initialisers. *)
Definition init : t :=
  mk HeapBlock.empty 0 0 44100 0%Q (SmoothedValue.make 0%Q).

Definition clear (rb : t) : t :=
  mk (HeapBlock.initialise (buffer rb)) (size rb) (writeIndex rb)
     (sampleRate rb) (delaySmoothTime rb) (delayTime rb).

(** [prepare (uint newBufferSizeSamples, const uint& newSampleRate)]. *)
Definition prepare (rb : t) (newBufferSizeSamples newSampleRate : Z) : t :=
  let n1 := Math.setClampU newBufferSizeSamples 0
              (wrap (newBufferSizeSamples * newSampleRate * 10)) in
  let rb1 :=
    if negb (n1 =? size rb)
    then
      let n2 := Math.setClampU n1 0 (wrap (newSampleRate * 600)) in
      mk (HeapBlock.reallocate (buffer rb) n2) n2 0
         (sampleRate rb) (delaySmoothTime rb) (delayTime rb)
    else rb in
  let sr1 :=
    if negb (newSampleRate =? sampleRate rb1) then newSampleRate
    else sampleRate rb1 in
  let sr2 := if sr1 =? 0 then 1 else sr1 in
  clear (mk (buffer rb1) (size rb1) (writeIndex rb1) sr2
            (delaySmoothTime rb1) (delayTime rb1)).

(** [prepare (FloatType newBufferSizeSeconds, const uint& newSampleRate)]. *)
Definition prepareSeconds (rb : t) (newBufferSizeSeconds : Q)
    (newSampleRate : Z) : t :=
  let bufferSize := toUint (newBufferSizeSeconds * ofInt newSampleRate) in
  prepare rb bufferSize newSampleRate.

(** Default value of [setDelayTime]'s second argument. *)
Definition defaultSmoothTime : Q := 0.1%Q.

Definition setDelayTime (rb : t) (newDelayTime smoothTime : Q) : t :=
  let rb1 :=
    if negb (Qeqb smoothTime (delaySmoothTime rb))
    then
      let st := Math.setClamp smoothTime 0 smoothTime in
      mk (buffer rb) (size rb) (writeIndex rb) (sampleRate rb) st
         (SmoothedValue.reset (delayTime rb) (ofInt (sampleRate rb)) st)
    else rb in
  let d := Math.clamp (Qabs newDelayTime) 0
             (ofInt (size rb1) / ofInt (sampleRate rb1)) in
  mk (buffer rb1) (size rb1) (writeIndex rb1) (sampleRate rb1)
     (delaySmoothTime rb1) (SmoothedValue.setTargetValue (delayTime rb1) d).

Definition getReadIndex (rb : t) (readOffset : Z) : Z :=
  let tmp := wrap (writeIndex rb - readOffset + size rb) in
  if size rb <=? tmp then wrap (tmp - size rb) else tmp.

Definition incrementWritePointer (rb : t) : t :=
  let w := wrap (writeIndex rb + 1) in
  let w' := if size rb <=? w then wrap (w - size rb) else w in
  mk (buffer rb) (size rb) w' (sampleRate rb)
     (delaySmoothTime rb) (delayTime rb).

(** The smoothed delay time advances by one step at every read. *)
Definition stepDelay (rb : t) : Q * t :=
  let '(delay, dt) := SmoothedValue.getNextValue (delayTime rb) in
  (delay, mk (buffer rb) (size rb) (writeIndex rb) (sampleRate rb)
             (delaySmoothTime rb) dt).

(** The product of rate and delay time is exact here;
    [Ieee.RingBuffer.getFromBufferNoInterp] rounds it in single precision
    before the truncation. *)
Definition getFromBufferNoInterp (rb : t) : Q * t :=
  let '(delay, rb1) := stepDelay rb in
  let readOffset := toUint (ofInt (sampleRate rb1) * delay) in
  let readIndex := getReadIndex rb1 readOffset in
  (HeapBlock.get (buffer rb1) readIndex, rb1).

Definition getFromBufferLinearInterp (rb : t) : Q * t :=
  let '(delay, rb1) := stepDelay rb in
  let readOffset := (ofInt (sampleRate rb1) * delay)%Q in
  let readIndex := getReadIndex rb1 (toUint readOffset) in
  (Math.LinearInterp (HeapBlock.get (buffer rb1) readIndex)
                     (HeapBlock.get (buffer rb1) (wrap (readIndex - 1)))
                     (Math.mod1 readOffset), rb1).

Definition getFromBufferCubicInterp (rb : t) : Q * t :=
  let '(delay, rb1) := stepDelay rb in
  let readOffset0 := (ofInt (sampleRate rb1) * delay)%Q in
  let readOffset := if Qltb readOffset0 2 then 2%Q else readOffset0 in
  let readIndex := getReadIndex rb1 (toUint readOffset) in
  let s1 := HeapBlock.get (buffer rb1) (wrap (readIndex + 1)) in
  let s2 := HeapBlock.get (buffer rb1) readIndex in
  let s3 := HeapBlock.get (buffer rb1) (wrap (readIndex - 1)) in
  let s4 := HeapBlock.get (buffer rb1) (wrap (readIndex - 2)) in
  (Math.CubicInterp s1 s2 s3 s4 (Math.mod1 readOffset) true, rb1).

(** [FloatType getFromBuffer (const InterpolationType interp = noInterp)]. *)
Definition getFromBuffer (rb : t) (interp : InterpolationType) : Q * t :=
  match interp with
  | noInterp => getFromBufferNoInterp rb
  | linearInterp => getFromBufferLinearInterp rb
  | cubicInterp => getFromBufferCubicInterp rb
  | _ => getFromBufferNoInterp rb
  end.

(** [void getFromBuffer (FloatType* sample, const InterpolationType)]:
    the result is the value left in [*sample]. *)
Definition getFromBufferPtr (rb : t) (sample : option Q)
    (interp : InterpolationType) : option Q * t :=
  match sample with
  | None => (None, rb)
  | Some _ => let '(v, rb1) := getFromBuffer rb interp in (Some v, rb1)
  end.

Definition pushToBuffer (rb : t) (input : option Q) : t :=
  match input with
  | None => rb
  | Some x =>
      incrementWritePointer
        (mk (HeapBlock.set (buffer rb) (writeIndex rb) x) (size rb)
            (writeIndex rb) (sampleRate rb) (delaySmoothTime rb)
            (delayTime rb))
  end.

Definition forceIncrementWritePointer (rb : t) : t :=
  incrementWritePointer rb.

(** [getAndPush]: pushes [*input], then reads into [*input]. *)
Definition getAndPush (rb : t) (input : option Q) : option Q * t :=
  match input with
  | None => (None, rb)
  | Some _ => getFromBufferPtr (pushToBuffer rb input) input noInterp
  end.

(** Pushing a sequence of samples, first to last. *)
Definition pushAll (rb : t) (s : list Q) : t :=
  foldl (fun r x => pushToBuffer r (Some x)) rb s.

End RingBuffer.

(** ** [pa::dsp::CombFilter] *)

Module CombFilter.
Import Num.

Record Parameters := mkParameters {
  freq : Q;
  wet : Q;
  feedback : Q;
  interpType : InterpolationType
}.

Definition defaultParameters : Parameters :=
  mkParameters 0 0 0 noInterp.

Record t := mk {
  delay : RingBuffer.t;
  parameters : Parameters
}.

Definition init : t := mk RingBuffer.init defaultParameters.

Definition prepare (c : t) (newSampleRate : Z) : t :=
  let d := RingBuffer.prepare (delay c) newSampleRate newSampleRate in
  mk (RingBuffer.setDelayTime d 0 RingBuffer.defaultSmoothTime)
     (parameters c).

Definition setParameters (c : t) (newParams : Parameters)
    (freqOffset : Q) : t :=
  let p := mkParameters (freq newParams) (wet newParams)
             (Math.setClamp (feedback newParams) 0 1)
             (interpType newParams) in
  mk (RingBuffer.setDelayTime (delay c) (1 / (freq p + freqOffset)) 0.03)
     p.

(** [getDelay (&delayed)]: the value left in [delayed]. *)
Definition getDelay (c : t) : Q * t :=
  let '(v, d) :=
    match interpType (parameters c) with
    | noInterp => RingBuffer.getFromBuffer (delay c) noInterp
    | linearInterp => RingBuffer.getFromBuffer (delay c) linearInterp
    | cubicInterp => RingBuffer.getFromBuffer (delay c) cubicInterp
    | _ => RingBuffer.getFromBuffer (delay c) noInterp
    end in
  (v, mk d (parameters c)).

Definition process (c : t) (input : Q) : Q * t :=
  let '(delayed, c1) := getDelay c in
  let p := parameters c1 in
  let feedbackLine := (input + delayed * feedback p)%Q in
  let d := RingBuffer.pushToBuffer (delay c1) (Some feedbackLine) in
  ((input + delayed * wet p)%Q, mk d (parameters c1)).

End CombFilter.

(** ** Dereferencing a sample pointer

    [Filter::process] evaluates [*input] on every path; the result type keeps
    the case where the pointer is null apart from a returned value. *)

Inductive outcome (A : Type) : Type :=
  | Returned (a : A)
  | NullDereference.
Arguments Returned {A} a.
Arguments NullDereference {A}.

Definition deref (p : option Q) : outcome Q :=
  match p with
  | Some x => Returned x
  | None => NullDereference
  end.

Definition isNull (p : option Q) : bool :=
  match p with Some _ => false | None => true end.

Definition obind {A B : Type} (o : outcome A) (k : A -> outcome B) : outcome B :=
  match o with
  | Returned a => k a
  | NullDereference => NullDereference
  end.

(** ** [pa::dsp::Filter] *)

Module Filter.
Import Num.

Inductive FilterType : Set := lowpass | highpass.

Record Parameters := mkParameters {
  type : FilterType;
  cutoff : Q;
  q : Q;
  enabled : bool
}.

Definition defaultParameters : Parameters :=
  mkParameters lowpass 500 M_SQRT1_2 true.

(** The anonymous coefficients struct [co]. *)
Record Coefficients := mkCo {
  a0 : Q; a1 : Q; a2 : Q; b1 : Q; b2 : Q; dly1 : Q; dly2 : Q;
  k : Q; k2 : Q; n : Q;
  prevQ : Q; prevCutoff : Q; prevSampleRate : Q
}.

Definition defaultCo : Coefficients :=
  mkCo 1 0 0 0 0 0 0 0 0 0 0 0 0.

Record t := mk {
  parameters : Parameters;
  sampleRate : Z;
  co : Coefficients
}.

Definition init : t := mk defaultParameters 0 defaultCo.

Definition prepare (f : t) (newSampleRate : Z) : t :=
  mk (parameters f) newSampleRate (co f).

(** Guard of the first block of [setCoefficients]. *)
Definition cutoffOrRateChanged (f : t) : bool :=
  negb (Qeqb (cutoff (parameters f)) (prevCutoff (co f)))
  || negb (Qeqb (ofInt (sampleRate f)) (prevSampleRate (co f))).

(** Condition of [jassert (sampleRate > 0)], which sits in the first
    block, in front of the division by [sampleRate]. *)
Definition jassertSampleRate (f : t) : bool := 0 <? sampleRate f.

(** The five coefficients computed by the [switch]. *)
Definition coefficientsFor (ty : FilterType) (k k2 n q : Q)
    : Q * Q * Q * Q * Q :=
  match ty with
  | lowpass =>
      let a0 := (k2 * n)%Q in
      (a0, (2 * a0)%Q, a0, (2 * (k2 - 1) * n)%Q, ((1 - k / q + k2) * n)%Q)
  | highpass =>
      let a0 := n in
      (a0, (-2 * a0)%Q, a0, (2 * (k2 - 1) * n)%Q, ((1 - k / q + k2) * n)%Q)
  end.

Definition setCoefficients (f : t) : t :=
  let p := parameters f in
  let c := co f in
  let c1 :=
    if cutoffOrRateChanged f
    then
      let k' := Math.fastTan (M_PI * (cutoff p / ofInt (sampleRate f))) in
      mkCo (a0 c) (a1 c) (a2 c) (b1 c) (b2 c) (dly1 c) (dly2 c)
           k' (k' * k')%Q (n c)
           (prevQ c) (cutoff p) (ofInt (sampleRate f))
    else c in
  let c2 :=
    if negb (Qeqb (q p) (prevQ c1))
    then
      mkCo (a0 c1) (a1 c1) (a2 c1) (b1 c1) (b2 c1) (dly1 c1) (dly2 c1)
           (k c1) (k2 c1) (1 / (1 + k c1 / q p + k2 c1))%Q
           (q p) (prevCutoff c1) (prevSampleRate c1)
    else c1 in
  let '(a0', a1', a2', b1', b2') :=
    coefficientsFor (type p) (k c2) (k2 c2) (n c2) (q p) in
  mk p (sampleRate f)
     (mkCo a0' a1' a2' b1' b2' (dly1 c2) (dly2 c2)
           (k c2) (k2 c2) (n c2)
           (prevQ c2) (prevCutoff c2) (prevSampleRate c2)).

Definition setParameters (f : t) (newParameters : Parameters) : t :=
  let f1 := mk newParameters (sampleRate f) (co f) in
  if negb (enabled newParameters) then f1 else setCoefficients f1.

Definition process (f : t) (input : option Q) : outcome (Q * t) :=
  let p := parameters f in
  let c := co f in
  if negb (enabled p) || isNull input
  then obind (deref input) (fun x => Returned (x, f))
  else
    obind (deref input) (fun x =>
      let out := (x * a0 c + dly1 c)%Q in
      let d1 := (x * a1 c + dly2 c - b1 c * out)%Q in
      let d2 := (x * a2 c - b2 c * out)%Q in
      Returned (out,
                mk p (sampleRate f)
                   (mkCo (a0 c) (a1 c) (a2 c) (b1 c) (b2 c) d1 d2
                         (k c) (k2 c) (n c)
                         (prevQ c) (prevCutoff c) (prevSampleRate c)))).

(** A call [process (&x)] on a local [x]: the pointer is never null. *)
Definition processSample (f : t) (x : Q) : Q * t :=
  match process f (Some x) with
  | Returned r => r
  | NullDereference => (x, f)
  end.

(** DC gain of the difference equation with the stored coefficients. *)
Definition dcGain (f : t) : Q :=
  ((a0 (co f) + a1 (co f) + a2 (co f)) / (1 + b1 (co f) + b2 (co f)))%Q.

End Filter.

(** ** [pa::dsp::Reverb] *)

Module Reverb.
Import Num.

Record Parameters := mkParameters {
  damping : Q; size : Q; mix : Q; width : Q; spread : Q;
  numEarlyCombs : Z; numLateCombs : Z
}.

Definition defaultParameters : Parameters :=
  mkParameters 0 0 0 0 0 8 4.

(** The private class [Reverb::Comb]. *)
Module Comb.

Record t := mk {
  buffer : RingBuffer.t;
  previousValue : Q
}.

Definition clear (c : t) : t := mk (RingBuffer.clear (buffer c)) 0%Q.

Definition prepare (c : t) (newSampleRate : Z) : t :=
  clear (mk (RingBuffer.prepareSeconds (buffer c) 0.1 newSampleRate)
            (previousValue c)).

(** [Comb() { prepare(44100); }] *)
Definition init : t := prepare (mk RingBuffer.init 0%Q) 44100.

Definition SetTime (c : t) (delayTimeInSeconds : Q) : t :=
  mk (RingBuffer.setDelayTime (buffer c)
        (Math.clamp delayTimeInSeconds 0.001 1)
        RingBuffer.defaultSmoothTime)
     (previousValue c).

Definition processEarly (c : t) (input damp feed : Q) : Q * t :=
  let '(delayLine, b1) := RingBuffer.getFromBuffer (buffer c) noInterp in
  let pv := (delayLine + damp * (previousValue c - delayLine))%Q in
  let temp := (input + pv * feed)%Q in
  (delayLine, mk (RingBuffer.pushToBuffer b1 (Some temp)) pv).

Definition processLate (c : t) (input : Q) : Q * t :=
  let '(delayLine, b1) := RingBuffer.getFromBuffer (buffer c) noInterp in
  let temp := (input + delayLine * 0.5)%Q in
  ((delayLine - input)%Q,
   mk (RingBuffer.pushToBuffer b1 (Some temp)) (previousValue c)).

End Comb.

(** [combs[channel][instance]] *)
Definition Bank := list (list Comb.t).

Record t := mk {
  sampleRate : Z;
  preGain : Q; wet : Q; dry : Q;
  dampingSmooth : SmoothedValue.t;
  feedbackSmooth : SmoothedValue.t;
  wet1 : SmoothedValue.t;
  wet2 : SmoothedValue.t;
  drySmooth : SmoothedValue.t;
  parameters : Parameters;
  earlyCombs : Bank;
  lateCombs : Bank;
  earlyCombTimes : list Q;
  lateCombTimes : list Q
}.

Definition wetGainScale : Q := 1.2%Q.

Definition withCombs (r : t) (e l : Bank) : t :=
  mk (sampleRate r) (preGain r) (wet r) (dry r)
     (dampingSmooth r) (feedbackSmooth r) (wet1 r) (wet2 r) (drySmooth r)
     (parameters r) e l (earlyCombTimes r) (lateCombTimes r).

(** [bank[ch][j] = f (bank[ch][j])]; an index outside the vectors has no
    meaning in C++ and leaves the bank as it is. *)
Definition updateComb (bank : Bank) (ch j : nat) (f : Comb.t -> Comb.t)
    : Bank :=
  match bank !! ch with
  | Some row =>
      match row !! j with
      | Some c => <[ch := <[j := f c]> row]> bank
      | None => bank
      end
  | None => bank
  end.

(** A call [bank[ch][j].m (...)] returning a sample. *)
Definition callComb (bank : Bank) (ch j : nat) (m : Comb.t -> Q * Comb.t)
    : option (Q * Bank) :=
  match bank !! ch with
  | Some row =>
      match row !! j with
      | Some c => let '(o, c') := m c in
                  Some (o, <[ch := <[j := c']> row]> bank)
      | None => None
      end
  | None => None
  end.

(** [for (uint i = 0; i < count; i++) bank[ch][i].SetTime (times[i] + spread)] *)
Fixpoint setTimes (count i : nat) (ch : nat) (times : list Q) (spread : Q)
    (bank : Bank) : Bank :=
  match count with
  | O => bank
  | S count' =>
      let bank' :=
        match times !! i with
        | Some tm => updateComb bank ch i (fun c => Comb.SetTime c (tm + spread))
        | None => bank
        end in
      setTimes count' (S i) ch times spread bank'
  end.

Definition setCombs (r : t) : t :=
  let spreadAmount := (Math.clamp (spread (parameters r)) 0 0.01 / 2)%Q in
  let e0 := setTimes 8 0 0 (earlyCombTimes r) spreadAmount (earlyCombs r) in
  let l0 := setTimes 4 0 0 (lateCombTimes r) spreadAmount (lateCombs r) in
  let e1 := setTimes 8 0 1 (earlyCombTimes r) (- spreadAmount) e0 in
  let l1 := setTimes 4 0 1 (lateCombTimes r) (- spreadAmount) l0 in
  withCombs r e1 l1.

Definition prepareCombs (r : t) : t :=
  withCombs r
    (List.map (List.map (fun c => Comb.prepare c (sampleRate r))) (earlyCombs r))
    (List.map (List.map (fun c => Comb.prepare c (sampleRate r))) (lateCombs r)).

Definition clear (r : t) : t :=
  withCombs r
    (List.map (List.map Comb.clear) (earlyCombs r))
    (List.map (List.map Comb.clear) (lateCombs r)).

Definition prepare (r : t) (newSampleRate : Z) : t :=
  let sr := if negb (newSampleRate =? sampleRate r) && negb (newSampleRate =? 0)
            then newSampleRate else sampleRate r in
  let r1 := prepareCombs
              (mk sr (preGain r) (wet r) (dry r)
                  (dampingSmooth r) (feedbackSmooth r) (wet1 r) (wet2 r)
                  (drySmooth r) (parameters r) (earlyCombs r) (lateCombs r)
                  (earlyCombTimes r) (lateCombTimes r)) in
  let rs s := SmoothedValue.reset s (ofInt sr) 0.05 in
  clear (mk sr (preGain r1) (wet r1) (dry r1)
            (rs (dampingSmooth r1)) (rs (feedbackSmooth r1))
            (rs (wet1 r1)) (rs (wet2 r1)) (rs (drySmooth r1))
            (parameters r1) (earlyCombs r1) (lateCombs r1)
            (earlyCombTimes r1) (lateCombTimes r1)).

(** Returns the new [(dry, wet)]. *)
Definition setMixValues (p : Parameters) : Q * Q :=
  let mixAmount := Math.clamp (mix p) 0 1 in
  ((1 - mixAmount)%Q, (Math.expRounder mixAmount 0.8 * 1.55)%Q).

Definition setParameters (r : t) (newParameters : Parameters) : t :=
  let old := parameters r in
  let p := newParameters in
  let '(dry', wet') :=
    if negb (Qeqb (mix p) (mix old)) then setMixValues p
    else (dry r, wet r) in
  let preGain' := (0.1 / ofInt (wrap (numEarlyCombs p + numLateCombs p)))%Q in
  let drySmooth' := SmoothedValue.setTargetValue (drySmooth r) dry' in
  let wet1' := SmoothedValue.setTargetValue (wet1 r)
                 (wetGainScale * wet' * (1 + width p))%Q in
  let wet2' := SmoothedValue.setTargetValue (wet2 r)
                 (wetGainScale * wet' * (1 - width p))%Q in
  let r1 := mk (sampleRate r) preGain' wet' dry'
               (dampingSmooth r) (feedbackSmooth r) wet1' wet2' drySmooth'
               p (earlyCombs r) (lateCombs r)
               (earlyCombTimes r) (lateCombTimes r) in
  let r2 := if negb (Qeqb (spread p) (spread old)) then setCombs r1 else r1 in
  if negb (Qeqb (damping p) (damping old)) || negb (Qeqb (size p) (size old))
  then
    (* setDamping *)
    mk (sampleRate r2) (preGain r2) (wet r2) (dry r2)
       (SmoothedValue.setTargetValue (dampingSmooth r2) (damping p * 0.9)%Q)
       (SmoothedValue.setTargetValue (feedbackSmooth r2)
          (size p * 0.78 + 0.2)%Q)
       (wet1 r2) (wet2 r2) (drySmooth r2)
       (parameters r2) (earlyCombs r2) (lateCombs r2)
       (earlyCombTimes r2) (lateCombTimes r2)
  else r2.

Definition withEarlyTimes (r : t) (ts : list Q) : t :=
  mk (sampleRate r) (preGain r) (wet r) (dry r)
     (dampingSmooth r) (feedbackSmooth r) (wet1 r) (wet2 r) (drySmooth r)
     (parameters r) (earlyCombs r) (lateCombs r) ts (lateCombTimes r).

Definition withLateTimes (r : t) (ts : list Q) : t :=
  mk (sampleRate r) (preGain r) (wet r) (dry r)
     (dampingSmooth r) (feedbackSmooth r) (wet1 r) (wet2 r) (drySmooth r)
     (parameters r) (earlyCombs r) (lateCombs r) (earlyCombTimes r) ts.

Definition setEarlyCombTime (r : t) (newDelayTime : Q) (combIndex : Z) : t :=
  setCombs (withEarlyTimes r
    (<[Z.to_nat (Math.clampU combIndex 0 7) := newDelayTime]> (earlyCombTimes r))).

Definition setLateCombTime (r : t) (newDelayTime : Q) (combIndex : Z) : t :=
  setCombs (withLateTimes r
    (<[Z.to_nat (Math.clampU combIndex 0 3) := newDelayTime]> (lateCombTimes r))).

(** The loop over the early combs: both channels at index [j], then
    [j + 1]. *)
Fixpoint earlyLoop (count j : nat) (bank : Bank) (input damp feed : Q)
    (outL outR : Q) : Q * Q * Bank :=
  match count with
  | O => (outL, outR, bank)
  | S count' =>
      let '(outL', bank1) :=
        match callComb bank 0 j (fun c => Comb.processEarly c input damp feed) with
        | Some (o, b) => ((outL + o)%Q, b)
        | None => (outL, bank)
        end in
      let '(outR', bank2) :=
        match callComb bank1 1 j (fun c => Comb.processEarly c input damp feed) with
        | Some (o, b) => ((outR + o)%Q, b)
        | None => (outR, bank1)
        end in
      earlyLoop count' (S j) bank2 input damp feed outL' outR'
  end.

(** The loop over the late combs, in series. *)
Fixpoint lateLoop (count j : nat) (bank : Bank) (outL outR : Q)
    : Q * Q * Bank :=
  match count with
  | O => (outL, outR, bank)
  | S count' =>
      let '(outL', bank1) :=
        match callComb bank 0 j (fun c => Comb.processLate c outL) with
        | Some (o, b) => (o, b)
        | None => (outL, bank)
        end in
      let '(outR', bank2) :=
        match callComb bank1 1 j (fun c => Comb.processLate c outR) with
        | Some (o, b) => (o, b)
        | None => (outR, bank1)
        end in
      lateLoop count' (S j) bank2 outL' outR'
  end.

(** Body of [process] once both pointers are known to be non-null:
    returns the values left in [*left] and [*right]. *)
Definition processSamples (r : t) (left right : Q) : Q * Q * t :=
  let p := parameters r in
  let input := ((left + right) * preGain r)%Q in
  let '(damp, ds) := SmoothedValue.getNextValue (dampingSmooth r) in
  let '(feed, fs) := SmoothedValue.getNextValue (feedbackSmooth r) in
  let '(eL, eR, early') :=
    earlyLoop (Z.to_nat (numEarlyCombs p)) 0 (earlyCombs r)
              input damp feed 0%Q 0%Q in
  let '(outL, outR, late') :=
    lateLoop (Z.to_nat (numLateCombs p)) 0 (lateCombs r) eL eR in
  let '(d, drs) := SmoothedValue.getNextValue (drySmooth r) in
  let '(w1, w1s) := SmoothedValue.getNextValue (wet1 r) in
  let '(w2, w2s) := SmoothedValue.getNextValue (wet2 r) in
  ((d * left + w1 * outL + w2 * outR)%Q,
   (d * right + w1 * outR + w2 * outL)%Q,
   mk (sampleRate r) (preGain r) (wet r) (dry r)
      ds fs w1s w2s drs p early' late'
      (earlyCombTimes r) (lateCombTimes r)).

Definition process (r : t) (left right : option Q)
    : option Q * option Q * t :=
  match left, right with
  | Some l, Some rt =>
      let '(l', r', st) := processSamples r l rt in (Some l', Some r', st)
  | _, _ => (left, right, r)
  end.

(** [Reverb()] *)
Definition init : t :=
  let r0 :=
    mk 44100 0 0 0
       (SmoothedValue.make 0) (SmoothedValue.make 0) (SmoothedValue.make 0)
       (SmoothedValue.make 0) (SmoothedValue.make 0)
       defaultParameters
       (replicate 2 (replicate 8 Comb.init))
       (replicate 2 (replicate 4 Comb.init))
       [0.06; 0.04; 0.02; 0.01; 0.052; 0.036; 0.042; 0.024]%Q
       [0.011; 0.054; 0.033; 0.023]%Q in
  prepare (setCombs r0) 44100.

End Reverb.

(** ** [RiserProcessor] *)

Module RiserProcessor.
Import Num.

Record t := mk {
  masterAmount : Q; reverbAmount : Q; filterAmount : Q; flangerAmount : Q;
  flanger : CombFilter.t * CombFilter.t;
  lowpassF : Filter.t * Filter.t;
  highpassF : Filter.t * Filter.t;
  reverb : Reverb.t;
  flangerParams : CombFilter.Parameters;
  lowpassParams : Filter.Parameters;
  highpassParams : Filter.Parameters;
  reverbParams : Reverb.Parameters
}.

Definition mapValue (val min max : Q) : Q := Math.map val 0 1 min max.

(** The loop of the constructor over the comb times. *)
Fixpoint setCombTimes (count : nat) (i : Z) (earlyTimes lateTimes : list Q)
    (rv : Reverb.t) : Reverb.t :=
  match count with
  | O => rv
  | S count' =>
      let rv1 := Reverb.setEarlyCombTime rv
                   (default 0%Q (earlyTimes !! Z.to_nat i)) i in
      let rv2 := if i <? 4
                 then Reverb.setLateCombTime rv1
                        (default 0%Q (lateTimes !! Z.to_nat i)) i
                 else rv1 in
      setCombTimes count' (i + 1) earlyTimes lateTimes rv2
  end.

(** [RiserProcessor()] *)
Definition init : t :=
  let earlyTimes :=
    [0.0053; 0.0134; 0.0229; 0.030; 0.0092; 0.0158; 0.0397; 0.0184]%Q in
  let lateTimes := [0.0111; 0.0175; 0.0076; 0.0152]%Q in
  mk 0 0.65 1 0.7
     (CombFilter.init, CombFilter.init)
     (Filter.init, Filter.init)
     (Filter.init, Filter.init)
     (setCombTimes 8 0 earlyTimes lateTimes Reverb.init)
     (CombFilter.mkParameters 3000 0 0.5 linearInterp)
     (Filter.mkParameters Filter.lowpass 20000 0.5 true)
     (Filter.mkParameters Filter.highpass 10 M_SQRT1_2 true)
     (Reverb.mkParameters 0.6 0.2 0 1 6.5 8 4).

Definition calculateValues (s : t) : t :=
  let fa := flangerAmount s in
  let fi := filterAmount s in
  let ra := reverbAmount s in
  let fp := CombFilter.mkParameters
              (mapValue fa 20 280)
              (mapValue (Math.expRounder fa 0.3) 0 0.75)
              (mapValue fa 0 0.55)
              (CombFilter.interpType (flangerParams s)) in
  let lp := Filter.mkParameters
              (Filter.type (lowpassParams s))
              (mapValue (Math.expRounder fi 0.3) 20000 4000)
              (mapValue (Math.expRounder fi (-0.6)) 0.5 0.85)
              (Filter.enabled (lowpassParams s)) in
  let hp := Filter.mkParameters
              (Filter.type (highpassParams s))
              (mapValue (Math.expRounder fi (-0.3)) 10 200)
              (mapValue (Math.expRounder fi (-0.5)) M_SQRT1_2 1)
              (Filter.enabled (highpassParams s)) in
  let rp := Reverb.mkParameters
              (Reverb.damping (reverbParams s))
              (mapValue ra 0.01 0.45)
              (mapValue ra 0 0.75)
              (mapValue ra 1 0.6)
              (mapValue (Math.expRounder ra 0.3) 0.5 1.5)
              (Reverb.numEarlyCombs (reverbParams s))
              (Reverb.numLateCombs (reverbParams s)) in
  mk (masterAmount s) ra fi fa
     (CombFilter.setParameters (fst (flanger s)) fp 0,
      CombFilter.setParameters (snd (flanger s)) fp
        (7 * Math.expRounder fa (-0.4))%Q)
     (Filter.setParameters (fst (lowpassF s)) lp,
      Filter.setParameters (snd (lowpassF s)) lp)
     (Filter.setParameters (fst (highpassF s)) hp,
      Filter.setParameters (snd (highpassF s)) hp)
     (Reverb.setParameters (reverb s) rp)
     fp lp hp rp.

Definition prepare (s : t) (sampleRate : Z) : t :=
  calculateValues
    (mk (masterAmount s) (reverbAmount s) (filterAmount s) (flangerAmount s)
        (CombFilter.prepare (fst (flanger s)) sampleRate,
         CombFilter.prepare (snd (flanger s)) sampleRate)
        (Filter.prepare (fst (lowpassF s)) sampleRate,
         Filter.prepare (snd (lowpassF s)) sampleRate)
        (Filter.prepare (fst (highpassF s)) sampleRate,
         Filter.prepare (snd (highpassF s)) sampleRate)
        (Reverb.prepare (reverb s) sampleRate)
        (flangerParams s) (lowpassParams s) (highpassParams s)
        (reverbParams s)).

Definition setParameters (s : t)
    (newDoublerAmount newFilterAmount newReverbAmount newMasterAmount : Q)
    : t :=
  let ma := Math.clamp newMasterAmount 0 1 in
  let ra := (Math.clamp newReverbAmount 0 1 * ma)%Q in
  let fi := (Math.clamp newFilterAmount 0 1 * ma)%Q in
  let fa := (Math.clamp newDoublerAmount 0 1 * ma)%Q in
  calculateValues
    (mk ma ra fi fa (flanger s) (lowpassF s) (highpassF s) (reverb s)
        (flangerParams s) (lowpassParams s) (highpassParams s)
        (reverbParams s)).

(** The protective ceiling of the process loop. *)
Definition ceil : Q := 1.2%Q.

(** One iteration of the process loop on the samples [left[i]], [right[i]]:
    the two values written back and the processor afterwards.  Samples are
    rationals here, so neither an infinity nor a NaN reaches the clamp;
    [Ieee.RiserProcessor.processFrame] has both. *)
Definition processFrame (s : t) (inL inR : Q) : Q * Q * t :=
  let '(outL1, fl0) := CombFilter.process (fst (flanger s)) inL in
  let '(outR1, fl1) := CombFilter.process (snd (flanger s)) inR in
  let '(outL2, lp0) := Filter.processSample (fst (lowpassF s)) outL1 in
  let '(outR2, lp1) := Filter.processSample (snd (lowpassF s)) outR1 in
  let '(outL3, hp0) := Filter.processSample (fst (highpassF s)) outL2 in
  let '(outR3, hp1) := Filter.processSample (snd (highpassF s)) outR2 in
  let '(outL4, outR4, rv) := Reverb.processSamples (reverb s) outL3 outR3 in
  (Math.setClamp outL4 (- ceil) ceil,
   Math.setClamp outR4 (- ceil) ceil,
   mk (masterAmount s) (reverbAmount s) (filterAmount s) (flangerAmount s)
      (fl0, fl1) (lp0, lp1) (hp0, hp1) rv
      (flangerParams s) (lowpassParams s) (highpassParams s)
      (reverbParams s)).

(** [for (int i = 0; i < numSamples; i++)]; an index outside the arrays
    has no meaning in C++ and ends the loop here. *)
Fixpoint processLoop (count i : nat) (s : t) (left right : list Q)
    : list Q * list Q * t :=
  match count with
  | O => (left, right, s)
  | S count' =>
      match left !! i, right !! i with
      | Some l, Some r =>
          let '(oL, oR, s') := processFrame s l r in
          processLoop count' (S i) s' (<[i := oL]> left) (<[i := oR]> right)
      | _, _ => (left, right, s)
      end
  end.

(** [process (float* left, float* right, const int& numSamples)]: [None]
    is a null array pointer. *)
Definition process (s : t) (left right : option (list Q)) (numSamples : Z)
    : option (list Q) * option (list Q) * t :=
  match left, right with
  | Some l, Some r =>
      if numSamples <=? 0 then (left, right, s)
      else
        let '(l', r', s') := processLoop (Z.to_nat numSamples) 0 s l r in
        (Some l', Some r', s')
  | _, _ => (left, right, s)
  end.

End RiserProcessor.

(** ** Call sequences on a ring buffer

    The public interface of [RingBuffer] as a type of calls, and the buffer
    reached from a given one by a sequence of calls. *)

Module RingBufferCalls.

Inductive call : Type :=
  | Prepare (newBufferSizeSamples newSampleRate : Z)
  | PrepareSeconds (newBufferSizeSeconds : Q) (newSampleRate : Z)
  | Clear
  | SetDelayTime (newDelayTime smoothTime : Q)
  | GetAndPush (input : option Q)
  | GetFromBufferPtr (sample : option Q) (interp : InterpolationType)
  | GetFromBuffer (interp : InterpolationType)
  | PushToBuffer (input : option Q)
  | ForceIncrementWritePointer.

Definition exec (rb : RingBuffer.t) (c : call) : RingBuffer.t :=
  match c with
  | Prepare n sr => RingBuffer.prepare rb n sr
  | PrepareSeconds secs sr => RingBuffer.prepareSeconds rb secs sr
  | Clear => RingBuffer.clear rb
  | SetDelayTime d st => RingBuffer.setDelayTime rb d st
  | GetAndPush input => snd (RingBuffer.getAndPush rb input)
  | GetFromBufferPtr sample interp =>
      snd (RingBuffer.getFromBufferPtr rb sample interp)
  | GetFromBuffer interp => snd (RingBuffer.getFromBuffer rb interp)
  | PushToBuffer input => RingBuffer.pushToBuffer rb input
  | ForceIncrementWritePointer => RingBuffer.forceIncrementWritePointer rb
  end.

Definition run (rb : RingBuffer.t) (cs : list call) : RingBuffer.t :=
  foldl exec rb cs.

(** The sample rate handed to a [prepare] is a value of type [uint]. *)
Definition uintArgs (c : call) : Prop :=
  match c with
  | Prepare _ sr | PrepareSeconds _ sr => 0 <= sr < Num.UINT_MOD
  | _ => True
  end.

End RingBufferCalls.

(** ** Predicates on states *)

(** The invariant of the write index of a ring buffer. *)
Definition writeIndexInv (rb : RingBuffer.t) : Prop :=
  0 <= RingBuffer.writeIndex rb /\
  (0 < RingBuffer.size rb -> RingBuffer.writeIndex rb < RingBuffer.size rb).

(** The heap block of a ring buffer has the size the buffer records, and
    holds that many cells. *)
Definition bufferOk (rb : RingBuffer.t) : Prop :=
  HeapBlock.size (RingBuffer.buffer rb) = RingBuffer.size rb /\
  Z.of_nat (length (HeapBlock.data (RingBuffer.buffer rb))) = RingBuffer.size rb.

(** [int (x)] is defined: the truncation of [x] fits a 32-bit [int]. *)
Definition intConvertible (x : Q) : Prop :=
  - 2 ^ 31 <= Num.Qtrunc x < 2 ^ 31.

(** The curve factor [c] that [ExpRounder] derives from its second
    argument. *)
Definition curveFactor (curveValue : Q) : Q :=
  let c0 := Math.clamp curveValue (-1) 1 in
  if Num.Qleb 0 c0 then Math.map c0 0 1 0 20
  else Math.map c0 (-1) 0 (-0.95) 0.

(** A reverb comb as [Reverb::prepare] leaves it for the sample rate
    [rate]: buffer at that rate (1 for a rate of 0), damping memory at 0. *)
Definition combPreparedAt (rate : Z) (c : Reverb.Comb.t) : Prop :=
  RingBuffer.sampleRate (Reverb.Comb.buffer c) = (if rate =? 0 then 1 else rate)
  /\ Reverb.Comb.previousValue c = 0%Q.

(** The five coefficients of [f] are those the [switch] of
    [setCoefficients] computes for the type [ty] from the cached [k], [k2],
    [n] and [Q]. *)
Definition coefficientsMatch (f : Filter.t) (ty : Filter.FilterType) : Prop :=
  let c := Filter.co f in
  let '(x0, x1, x2, y1, y2) :=
    Filter.coefficientsFor ty (Filter.k c) (Filter.k2 c) (Filter.n c)
                           (Filter.prevQ c) in
  (Filter.a0 c == x0 /\ Filter.a1 c == x1 /\ Filter.a2 c == x2 /\
   Filter.b1 c == y1 /\ Filter.b2 c == y2)%Q.

(** ** Concrete states and inputs used below *)

Module Examples.
Import Num.

(** A filter prepared at 44.1 kHz and three parameter sets for it. *)
Definition filter44100 : Filter.t := Filter.prepare Filter.init 44100.
Definition lowpass500 : Filter.Parameters :=
  Filter.mkParameters Filter.lowpass 500 M_SQRT1_2 true.
Definition highpass500 : Filter.Parameters :=
  Filter.mkParameters Filter.highpass 500 M_SQRT1_2 true.
Definition lowpass4000 : Filter.Parameters :=
  Filter.mkParameters Filter.lowpass 4000 M_SQRT1_2 true.

(** Reverb parameters with the mix at 0 and the other controls away from
    their defaults. *)
Definition reverbMixZero : Reverb.Parameters :=
  Reverb.mkParameters 0.6 0.2 0 1 0.005 8 4.

(** Reverb parameters with the mix at one half. *)
Definition reverbMixHalf : Reverb.Parameters :=
  Reverb.mkParameters 0.6 0.2 0.5 1 0.005 8 4.

(** A reverb prepared at a rate of 10 Hz, where the 0.05 s gain ramps have
    no steps, taken from a mix of one half to a mix of 0. *)
Definition reverbBypassed : Reverb.t :=
  Reverb.setParameters
    (Reverb.setParameters (Reverb.prepare Reverb.init 10) reverbMixHalf)
    reverbMixZero.

(** The constructed ring buffer, with [p] standing for the float that lies
    behind its allocation. *)
Definition constructedWithPast (p : Q) : RingBuffer.t :=
  RingBuffer.mk (HeapBlock.mk [] p 0) 0 0 44100 0%Q (SmoothedValue.make 0%Q).

(** A biquad at rest under the constant input 3: with the coefficients
    [a = (1/4, 1/2, 1/4)] and [b = (-1/2, 1/4)] the output is 4 and the two
    delay registers, [13/4] and [-1/4], reproduce themselves. *)
Definition steadyFilter : Filter.t :=
  Filter.mk Filter.defaultParameters 44100
    (Filter.mkCo (1 # 4) (1 # 2) (1 # 4) (- (1 # 2)) (1 # 4)
                 (13 # 4) (- (1 # 4)) 0 0 0 0 0 0).

(** The tangent terms of the two cutoffs at 44.1 kHz. *)
Definition k500 : Q := Math.fastTan (M_PI * (500 / ofInt 44100)).
Definition k4000 : Q := Math.fastTan (M_PI * (4000 / ofInt 44100)).

End Examples.


(** * Second embedding: IEEE 754 arithmetic and checked memory

    The embedding above idealises [float] and [double] as exact rationals
    and gives the cell behind an allocation a value.  Where rounding,
    infinities, NaN or the bounds of an allocation decide what the program
    does, the same functions are embedded a second time:
    - [float] is IEEE 754 binary32 and [double] binary64, with the
      operations of the Standard Library's [SpecFloat] (round to nearest,
      ties to even; overflow gives an infinity, invalid operations NaN);
      every operation of the source is written with the type C++ evaluates
      it in;
    - an access through [operator[]], a vector or an array outside the
      allocation, a dereferenced null pointer and a conversion to an integer
      type whose value does not fit are kept apart from a returned value
      ([result]). *)

Inductive fault : Set :=
  | NullPointer
  | OutOfBounds
  | ConversionOutOfRange.

Inductive result (A : Type) : Type :=
  | Ok (a : A)
  | Fault (f : fault).
Arguments Ok {A} a.
Arguments Fault {A} f.

Definition bind {A B : Type} (m : result A) (k : A -> result B) : result B :=
  match m with
  | Ok a => k a
  | Fault f => Fault f
  end.

Notation "'let*' x := m 'in' k" := (bind m (fun x => k))
  (at level 10, x name, m at level 200, k at level 200).
Notation "'let*' ( x , y ) := m 'in' k" :=
  (bind m (fun p => let '(x, y) := p in k))
  (at level 10, x name, y name, m at level 200, k at level 200).
Notation "'let*' ( x , y , z ) := m 'in' k" :=
  (bind m (fun p => let '(x, y, z) := p in k))
  (at level 10, x name, y name, z name, m at level 200, k at level 200).

Module Ieee.
Import Num.

(** Both formats share the carrier; the operations differ. *)
Definition float : Set := spec_float.
Definition double : Set := spec_float.

Definition NaN : spec_float := S754_nan.

Definition isNaN (x : spec_float) : bool :=
  match x with S754_nan => true | _ => false end.

(** [*p] for a sample pointer [p]; [None] is [nullptr]. *)
Definition deref (p : option float) : result float :=
  match p with
  | Some x => Ok x
  | None => Fault NullPointer
  end.

Definition isNull (p : option float) : bool :=
  match p with Some _ => false | None => true end.

(** [a < b], [a <= b], [a == b], [a != b]; every comparison with a NaN is
    false, except [!=]. *)
Definition ltb (a b : spec_float) : bool := SFltb a b.
Definition leb (a b : spec_float) : bool := SFleb a b.
Definition eqb (a b : spec_float) : bool := SFeqb a b.
Definition neb (a b : spec_float) : bool := negb (SFeqb a b).

Definition abs (x : spec_float) : spec_float := SFabs x.
Definition neg (x : spec_float) : spec_float := SFopp x.

(** The integer a finite value truncates to (toward zero). *)
Definition truncZ (x : spec_float) : option Z :=
  match x with
  | S754_zero _ => Some 0
  | S754_finite s m e =>
      Some (cond_Zopp s (if 0 <=? e then Z.pos m * 2 ^ e
                         else Z.pos m / 2 ^ (- e)))
  | _ => None
  end.

(** The integer [std::floor] gives on a finite value. *)
Definition floorZ (x : spec_float) : option Z :=
  match x with
  | S754_zero _ => Some 0
  | S754_finite s m e =>
      Some (if 0 <=? e then cond_Zopp s (Z.pos m) * 2 ^ e
            else cond_Zopp s (Z.pos m) / 2 ^ (- e))
  | _ => None
  end.

(** [uint (x)]: defined when the truncated value is a [uint]. *)
Definition toUint (x : spec_float) : result Z :=
  match truncZ x with
  | Some z => if (0 <=? z) && (z <? UINT_MOD) then Ok z
              else Fault ConversionOutOfRange
  | None => Fault ConversionOutOfRange
  end.

(** [int (x)]: defined when the truncated value is an [int]. *)
Definition toInt (x : spec_float) : result Z :=
  match truncZ x with
  | Some z => if (- 2 ^ 31 <=? z) && (z <? 2 ^ 31) then Ok z
              else Fault ConversionOutOfRange
  | None => Fault ConversionOutOfRange
  end.

(** binary32 *)
Module F32.
Definition prec : Z := 24.
Definition emax : Z := 128.
Definition add : float -> float -> float := SFadd prec emax.
Definition sub : float -> float -> float := SFsub prec emax.
Definition mul : float -> float -> float := SFmul prec emax.
Definition div : float -> float -> float := SFdiv prec emax.
(** [float (n)] for an integer [n]. *)
Definition ofZ (n : Z) : float := binary_normalize prec emax n 0 false.
(** The literal [n/d] written in decimal with suffix [f], for [n] and [d]
    below [2^24]: the binary32 value nearest to the fraction. *)
Definition lit (n : Z) (d : positive) : float := div (ofZ n) (ofZ (Z.pos d)).
(** [static_cast<float>] of a [double]. *)
Definition ofDouble (x : double) : float :=
  match x with
  | S754_finite s m e => binary_round prec emax s m e
  | _ => x
  end.
Definition zero : float := S754_zero false.
Definition one : float := ofZ 1.
End F32.

(** binary64 *)
Module F64.
Definition prec : Z := 53.
Definition emax : Z := 1024.
Definition add : double -> double -> double := SFadd prec emax.
Definition sub : double -> double -> double := SFsub prec emax.
Definition mul : double -> double -> double := SFmul prec emax.
Definition div : double -> double -> double := SFdiv prec emax.
Definition ofZ (n : Z) : double := binary_normalize prec emax n 0 false.
(** A decimal literal [n/d] with [n] and [d] below [2^53]. *)
Definition lit (n : Z) (d : positive) : double := div (ofZ n) (ofZ (Z.pos d)).
(** A [float] used where a [double] is expected: the same value. *)
Definition ofSingle (x : float) : double :=
  match x with
  | S754_finite s m e => binary_round prec emax s m e
  | _ => x
  end.
Definition zero : double := S754_zero false.
Definition one : double := ofZ 1.

(** [std::fmod]: exact, with the sign of the dividend; NaN for an infinite
    dividend or a zero divisor. *)
Definition fmod (x y : double) : double :=
  match x, y with
  | S754_nan, _ | _, S754_nan => S754_nan
  | S754_infinity _, _ => S754_nan
  | _, S754_zero _ => S754_nan
  | S754_zero _, _ => x
  | S754_finite _ _ _, S754_infinity _ => x
  | S754_finite sx mx ex, S754_finite _ my ey =>
      let e := Z.min ex ey in
      let r := Z.rem (Z.pos mx * 2 ^ (ex - e)) (Z.pos my * 2 ^ (ey - e)) in
      binary_normalize prec emax (cond_Zopp sx r) e sx
  end.

(** [(int) std::floor (x)]. *)
Definition floorToInt (x : double) : result Z :=
  match floorZ x with
  | Some z => if (- 2 ^ 31 <=? z) && (z <? 2 ^ 31) then Ok z
              else Fault ConversionOutOfRange
  | None => Fault ConversionOutOfRange
  end.

(** [M_PI] and [M_SQRT1_2] of [<cmath>]: the doubles nearest to pi and to
    the square root of one half. *)
Definition M_PI : double := S754_finite false 7074237752028440 (-51).
Definition M_SQRT1_2 : double := S754_finite false 6369051672525773 (-53).
End F64.

(** ** [pa::math] *)

Module Math.

(** [clamp<float>]: [(val < min) ? min : (val > max) ? max : val]. *)
Definition clamp (val min max : float) : float :=
  if ltb val min then min else if ltb max val then max else val.

(** [setClamp<float>]: the value written through the pointer. *)
Definition setClamp (val min max : float) : float :=
  if ltb val min then min else if ltb max val then max else val.

Definition clampU (val min max : Z) : Z :=
  if val <? min then min else if max <? val then max else val.

Definition setClampU (val min max : Z) : Z :=
  if val <? min then min else if max <? val then max else val.

(** [map<float>]. *)
Definition map (val inMin inMax outMin outMax : float) : float :=
  F32.add
    (F32.mul (F32.div (F32.sub val inMin) (F32.sub inMax inMin))
             (F32.sub outMax outMin))
    outMin.

(** [mod1<float>]: [input - float (int (input))]. *)
Definition mod1 (input : float) : result float :=
  let* i := toInt input in
  Ok (F32.sub input (F32.ofZ i)).

(** [WrapPi<double>]. *)
Definition WrapPi (input : double) (useHalfPi : bool) : double :=
  let pi := F64.M_PI in
  let half := F64.lit 5 10 in
  if useHalfPi
  then F64.sub (F64.fmod (F64.sub input (F64.mul pi half)) pi)
               (F64.mul pi half)
  else F64.sub (F64.fmod (F64.sub input pi) (F64.mul (F64.ofZ 2) pi)) pi.

(** [FastTan<double>]. *)
Definition FastTan (x0 : double) : double :=
  let x := WrapPi x0 true in
  let x2 := F64.mul x x in
  let num :=
    F64.mul x
      (F64.add (F64.ofZ (-135135))
         (F64.mul x2
            (F64.add (F64.ofZ 17325)
               (F64.mul x2 (F64.add (F64.ofZ (-378)) x2))))) in
  let den :=
    F64.add (F64.ofZ (-135135))
      (F64.mul x2
         (F64.add (F64.ofZ 62370)
            (F64.mul x2
               (F64.add (F64.ofZ (-3150)) (F64.mul (F64.ofZ 28) x2))))) in
  F64.div num den.

(** [LinearInterp<float>]. *)
Definition LinearInterp (a b t : float) : float :=
  if leb t F32.zero then a
  else if leb F32.one t then b
  else F32.add a (F32.mul t (F32.sub b a)).

Definition Lerp (a b t : float) : float := LinearInterp a b t.

(** [CubicInterp<float>]: the Catmull-Rom coefficients are computed in
    [double] (the literals [0.5], [1.5], [2.5] are doubles) and cast back;
    [2 * c] is a [float] product. *)
Definition CubicInterp (a b c d t : float) (useCatmullRom : bool) : float :=
  if leb t F32.zero then b
  else if leb F32.one t then c
  else
    let t2 := F32.mul t t in
    let w := F64.ofSingle in
    let '(a0, a1, a2) :=
      if useCatmullRom
      then
        (F32.ofDouble
           (F64.add
              (F64.sub
                 (F64.add (F64.mul (F64.lit (-5) 10) (w a))
                          (F64.mul (F64.lit 15 10) (w b)))
                 (F64.mul (F64.lit 15 10) (w c)))
              (F64.mul (F64.lit 5 10) (w d))),
         F32.ofDouble
           (F64.sub
              (F64.add
                 (F64.sub (w a) (F64.mul (F64.lit 25 10) (w b)))
                 (w (F32.mul (F32.ofZ 2) c)))
              (F64.mul (F64.lit 5 10) (w d))),
         F32.ofDouble
           (F64.add (F64.mul (F64.lit (-5) 10) (w a))
                    (F64.mul (F64.lit 5 10) (w c))))
      else
        let a0 := F32.add (F32.sub (F32.sub d c) a) b in
        (a0, F32.sub (F32.sub a b) a0, F32.sub c a) in
    F32.add
      (F32.add
         (F32.add (F32.mul (F32.mul a0 t) t2) (F32.mul a1 t2))
         (F32.mul a2 t))
      b.

(** [ExpRounder<float>]. *)
Definition ExpRounder (input curveValue : float) : float :=
  let x := clamp input (F32.ofZ (-1)) F32.one in
  let c0 := clamp curveValue (F32.ofZ (-1)) F32.one in
  let c :=
    if leb F32.zero c0
    then map c0 F32.zero F32.one F32.zero (F32.ofZ 20)
    else map c0 (F32.ofZ (-1)) F32.zero
             (F32.ofDouble (F64.lit (-95) 100)) F32.zero in
  if ltb F32.zero x && leb x F32.one
  then F32.div (F32.mul x (F32.add F32.one c))
               (F32.add (F32.mul c x) F32.one)
  else if leb (F32.ofZ (-1)) x && leb x F32.zero
  then F32.div (F32.mul (neg x) (F32.add F32.one c))
               (F32.sub (F32.mul c x) F32.one)
  else F32.zero.

(** Modelled from the spec: the callers spell the two helpers
    [expRounder] and [fastTan]. *)
Definition expRounder (input curveValue : float) : float :=
  ExpRounder input curveValue.
Definition fastTan (x : double) : double := FastTan x.

End Math.

(** ** [juce::SmoothedValue<float>] (linear smoothing)

    Modelled from the spec, as above: the library's linear ramp, in
    binary32. *)

Module SmoothedValue.

Record t := mk {
  currentValue : float;
  target : float;
  step : float;
  countdown : Z;
  stepsToTarget : Z
}.

Definition make (initialValue : float) : t :=
  mk initialValue initialValue F32.zero 0 0.

Definition isSmoothing (s : t) : bool := 0 <? countdown s.

Definition setCurrentAndTargetValue (s : t) (newValue : float) : t :=
  mk newValue newValue (step s) 0 (stepsToTarget s).

(** [reset (double sampleRate, double rampLengthInSeconds)]: the number of
    steps is [(int) std::floor (rampLengthInSeconds * sampleRate)]. *)
Definition reset (s : t) (sampleRate rampLengthInSeconds : double)
    : result t :=
  let* numSteps := F64.floorToInt (F64.mul rampLengthInSeconds sampleRate) in
  Ok (setCurrentAndTargetValue
        (mk (currentValue s) (target s) (step s) (countdown s) numSteps)
        (target s)).

Definition setTargetValue (s : t) (newValue : float) : t :=
  if eqb newValue (target s) then s
  else if stepsToTarget s <=? 0 then setCurrentAndTargetValue s newValue
  else
    mk (currentValue s) newValue
       (F32.div (F32.sub newValue (currentValue s))
                (F32.ofZ (stepsToTarget s)))
       (stepsToTarget s) (stepsToTarget s).

Definition getNextValue (s : t) : float * t :=
  if negb (isSmoothing s) then (target s, s)
  else
    let cd := countdown s - 1 in
    let cur := if 0 <? cd then F32.add (currentValue s) (step s)
               else target s in
    (cur, mk cur (target s) (step s) cd (stepsToTarget s)).

End SmoothedValue.

(** ** [pa::dsp::HeapBlock<float>]

    The allocation holds [size] cells.  [operator[]] resolves an index
    [>= size] to [data[size]], which lies outside the allocation (and is a
    null pointer dereference in a block that was never allocated): such an
    access is [OutOfBounds]. *)

Module HeapBlock.

Record t := mk {
  data : list float;
  size : Z
}.

Definition empty : t := mk [] 0.

Definition getSize (b : t) : Z := size b.

(** Reading through [operator[]]. *)
Definition get (b : t) (index : Z) : result float :=
  if size b <=? index then Fault OutOfBounds
  else
    match data b !! Z.to_nat index with
    | Some v => Ok v
    | None => Fault OutOfBounds
    end.

(** Writing through [operator[]]. *)
Definition set (b : t) (index : Z) (v : float) : result t :=
  if size b <=? index then Fault OutOfBounds
  else
    match data b !! Z.to_nat index with
    | Some _ => Ok (mk (<[Z.to_nat index := v]> (data b)) (size b))
    | None => Fault OutOfBounds
    end.

(** [reallocate]: the old contents are kept as far as they fit; the cells
    gained are unspecified in C and [+0] here ([RingBuffer::prepare] clears
    the block right after). *)
Definition reallocate (b : t) (newNumElements : Z) : t :=
  let n := Z.to_nat newNumElements in
  mk (take n (data b ++ replicate n F32.zero)) newNumElements.

Definition free (b : t) : t := mk [] 0.

(** [initialise]: [data[i] = 0] for every [i < size]. *)
Definition initialise (b : t) : t :=
  mk (replicate (Z.to_nat (size b)) F32.zero
      ++ drop (Z.to_nat (size b)) (data b))
     (size b).

End HeapBlock.

(** ** [pa::dsp::RingBuffer<float>] *)

Module RingBuffer.

Record t := mk {
  buffer : HeapBlock.t;
  size : Z;
  writeIndex : Z;
  sampleRate : Z;
  delaySmoothTime : float;
  delayTime : SmoothedValue.t
}.

Definition init : t :=
  mk HeapBlock.empty 0 0 44100 F32.zero (SmoothedValue.make F32.zero).

Definition clear (rb : t) : t :=
  mk (HeapBlock.initialise (buffer rb)) (size rb) (writeIndex rb)
     (sampleRate rb) (delaySmoothTime rb) (delayTime rb).

(** [prepare (uint newBufferSizeSamples, const uint& newSampleRate)]. *)
Definition prepare (rb : t) (newBufferSizeSamples newSampleRate : Z) : t :=
  let n1 := Math.setClampU newBufferSizeSamples 0
              (wrap (newBufferSizeSamples * newSampleRate * 10)) in
  let rb1 :=
    if negb (n1 =? size rb)
    then
      let n2 := Math.setClampU n1 0 (wrap (newSampleRate * 600)) in
      mk (HeapBlock.reallocate (buffer rb) n2) n2 0
         (sampleRate rb) (delaySmoothTime rb) (delayTime rb)
    else rb in
  let sr1 :=
    if negb (newSampleRate =? sampleRate rb1) then newSampleRate
    else sampleRate rb1 in
  let sr2 := if sr1 =? 0 then 1 else sr1 in
  clear (mk (buffer rb1) (size rb1) (writeIndex rb1) sr2
            (delaySmoothTime rb1) (delayTime rb1)).

(** [prepare (float newBufferSizeSeconds, const uint& newSampleRate)]. *)
Definition prepareSeconds (rb : t) (newBufferSizeSeconds : float)
    (newSampleRate : Z) : result t :=
  let* bufferSize := toUint (F32.mul newBufferSizeSeconds (F32.ofZ newSampleRate)) in
  Ok (prepare rb bufferSize newSampleRate).

(** Default value of [setDelayTime]'s second argument, [0.1f]. *)
Definition defaultSmoothTime : float := F32.lit 1 10.

Definition setDelayTime (rb : t) (newDelayTime smoothTime : float)
    : result t :=
  let* rb1 :=
    if neb smoothTime (delaySmoothTime rb)
    then
      let st := Math.setClamp smoothTime F32.zero smoothTime in
      let* dt := SmoothedValue.reset (delayTime rb)
                   (F64.ofZ (sampleRate rb)) (F64.ofSingle st) in
      Ok (mk (buffer rb) (size rb) (writeIndex rb) (sampleRate rb) st dt)
    else Ok rb in
  let d := Math.clamp (abs newDelayTime) F32.zero
             (F32.div (F32.ofZ (size rb1)) (F32.ofZ (sampleRate rb1))) in
  Ok (mk (buffer rb1) (size rb1) (writeIndex rb1) (sampleRate rb1)
         (delaySmoothTime rb1)
         (SmoothedValue.setTargetValue (delayTime rb1) d)).

Definition getReadIndex (rb : t) (readOffset : Z) : Z :=
  let tmp := wrap (writeIndex rb - readOffset + size rb) in
  if size rb <=? tmp then wrap (tmp - size rb) else tmp.

Definition incrementWritePointer (rb : t) : t :=
  let w := wrap (writeIndex rb + 1) in
  let w' := if size rb <=? w then wrap (w - size rb) else w in
  mk (buffer rb) (size rb) w' (sampleRate rb)
     (delaySmoothTime rb) (delayTime rb).

(** The smoothed delay time advances by one step at every read. *)
Definition stepDelay (rb : t) : float * t :=
  let '(delay, dt) := SmoothedValue.getNextValue (delayTime rb) in
  (delay, mk (buffer rb) (size rb) (writeIndex rb) (sampleRate rb)
             (delaySmoothTime rb) dt).

Definition getFromBufferNoInterp (rb : t) : result (float * t) :=
  let '(delay, rb1) := stepDelay rb in
  let* readOffset := toUint (F32.mul (F32.ofZ (sampleRate rb1)) delay) in
  let readIndex := getReadIndex rb1 readOffset in
  let* v := HeapBlock.get (buffer rb1) readIndex in
  Ok (v, rb1).

Definition getFromBufferLinearInterp (rb : t) : result (float * t) :=
  let '(delay, rb1) := stepDelay rb in
  let readOffset := F32.mul (F32.ofZ (sampleRate rb1)) delay in
  let* off := toUint readOffset in
  let readIndex := getReadIndex rb1 off in
  let* a := HeapBlock.get (buffer rb1) readIndex in
  let* b := HeapBlock.get (buffer rb1) (wrap (readIndex - 1)) in
  let* fr := Math.mod1 readOffset in
  Ok (Math.LinearInterp a b fr, rb1).

Definition getFromBufferCubicInterp (rb : t) : result (float * t) :=
  let '(delay, rb1) := stepDelay rb in
  let readOffset0 := F32.mul (F32.ofZ (sampleRate rb1)) delay in
  let readOffset :=
    if ltb readOffset0 (F32.ofZ 2) then F32.ofZ 2 else readOffset0 in
  let* off := toUint readOffset in
  let readIndex := getReadIndex rb1 off in
  let* s1 := HeapBlock.get (buffer rb1) (wrap (readIndex + 1)) in
  let* s2 := HeapBlock.get (buffer rb1) readIndex in
  let* s3 := HeapBlock.get (buffer rb1) (wrap (readIndex - 1)) in
  let* s4 := HeapBlock.get (buffer rb1) (wrap (readIndex - 2)) in
  let* fr := Math.mod1 readOffset in
  Ok (Math.CubicInterp s1 s2 s3 s4 fr true, rb1).

(** [float getFromBuffer (const InterpolationType interp = noInterp)]. *)
Definition getFromBuffer (rb : t) (interp : InterpolationType)
    : result (float * t) :=
  match interp with
  | noInterp => getFromBufferNoInterp rb
  | linearInterp => getFromBufferLinearInterp rb
  | cubicInterp => getFromBufferCubicInterp rb
  | _ => getFromBufferNoInterp rb
  end.

(** [void getFromBuffer (float* sample, const InterpolationType)]: the
    value left in [*sample]. *)
Definition getFromBufferPtr (rb : t) (sample : option float)
    (interp : InterpolationType) : result (option float * t) :=
  match sample with
  | None => Ok (None, rb)
  | Some _ => let* (v, rb1) := getFromBuffer rb interp in Ok (Some v, rb1)
  end.

Definition pushToBuffer (rb : t) (input : option float) : result t :=
  match input with
  | None => Ok rb
  | Some x =>
      let* b := HeapBlock.set (buffer rb) (writeIndex rb) x in
      Ok (incrementWritePointer
            (mk b (size rb) (writeIndex rb) (sampleRate rb)
                (delaySmoothTime rb) (delayTime rb)))
  end.

Definition forceIncrementWritePointer (rb : t) : t :=
  incrementWritePointer rb.

Definition getAndPush (rb : t) (input : option float)
    : result (option float * t) :=
  match input with
  | None => Ok (None, rb)
  | Some _ =>
      let* rb1 := pushToBuffer rb input in
      getFromBufferPtr rb1 input noInterp
  end.

(** Pushing a sequence of samples, first to last. *)
Fixpoint pushAll (rb : t) (s : list float) : result t :=
  match s with
  | [] => Ok rb
  | x :: s' => let* rb1 := pushToBuffer rb (Some x) in pushAll rb1 s'
  end.

(** [n] reads without interpolation in a row: the samples read and the
    buffer afterwards. *)
Fixpoint readAll (n : nat) (rb : t) : result (list float * t) :=
  match n with
  | O => Ok ([], rb)
  | S n' =>
      let* (v, rb1) := getFromBufferNoInterp rb in
      let* (vs, rb2) := readAll n' rb1 in
      Ok (v :: vs, rb2)
  end.

End RingBuffer.

(** ** [pa::dsp::CombFilter] *)

Module CombFilter.

Record Parameters := mkParameters {
  freq : float;
  wet : float;
  feedback : float;
  interpType : InterpolationType
}.

Definition defaultParameters : Parameters :=
  mkParameters F32.zero F32.zero F32.zero noInterp.

Record t := mk {
  delay : RingBuffer.t;
  parameters : Parameters
}.

Definition init : t := mk RingBuffer.init defaultParameters.

Definition prepare (c : t) (newSampleRate : Z) : result t :=
  let d := RingBuffer.prepare (delay c) newSampleRate newSampleRate in
  let* d1 := RingBuffer.setDelayTime d (F32.ofZ 0) RingBuffer.defaultSmoothTime in
  Ok (mk d1 (parameters c)).

Definition setParameters (c : t) (newParams : Parameters)
    (freqOffset : float) : result t :=
  let p := mkParameters (freq newParams) (wet newParams)
             (Math.setClamp (feedback newParams) F32.zero F32.one)
             (interpType newParams) in
  let* d := RingBuffer.setDelayTime (delay c)
              (F32.div F32.one (F32.add (freq p) freqOffset))
              (F32.lit 3 100) in
  Ok (mk d p).

(** [getDelay (&delayed)]: the value left in [delayed]. *)
Definition getDelay (c : t) : result (float * t) :=
  let* (v, d) :=
    match interpType (parameters c) with
    | noInterp => RingBuffer.getFromBuffer (delay c) noInterp
    | linearInterp => RingBuffer.getFromBuffer (delay c) linearInterp
    | cubicInterp => RingBuffer.getFromBuffer (delay c) cubicInterp
    | _ => RingBuffer.getFromBuffer (delay c) noInterp
    end in
  Ok (v, mk d (parameters c)).

Definition process (c : t) (input : option float) : result (float * t) :=
  let* (delayed, c1) := getDelay c in
  let p := parameters c1 in
  let* x := deref input in
  let feedbackLine := F32.add x (F32.mul delayed (feedback p)) in
  let* d := RingBuffer.pushToBuffer (delay c1) (Some feedbackLine) in
  Ok (F32.add x (F32.mul delayed (wet p)), mk d (parameters c1)).

End CombFilter.

(** ** [pa::dsp::Filter] *)

Module Filter.

Inductive FilterType : Set := lowpass | highpass.

Record Parameters := mkParameters {
  type : FilterType;
  cutoff : double;
  q : double;
  enabled : bool
}.

Definition defaultParameters : Parameters :=
  mkParameters lowpass (F64.ofZ 500) F64.M_SQRT1_2 true.

Record Coefficients := mkCo {
  a0 : double; a1 : double; a2 : double; b1 : double; b2 : double;
  dly1 : double; dly2 : double;
  k : double; k2 : double; n : double;
  prevQ : double; prevCutoff : double; prevSampleRate : double
}.

Definition defaultCo : Coefficients :=
  mkCo F64.one F64.zero F64.zero F64.zero F64.zero F64.zero F64.zero
       F64.zero F64.zero F64.zero F64.zero F64.zero F64.zero.

Record t := mk {
  parameters : Parameters;
  sampleRate : Z;
  co : Coefficients
}.

Definition init : t := mk defaultParameters 0 defaultCo.

Definition prepare (f : t) (newSampleRate : Z) : t :=
  mk (parameters f) newSampleRate (co f).

Definition cutoffOrRateChanged (f : t) : bool :=
  neb (cutoff (parameters f)) (prevCutoff (co f))
  || neb (F64.ofZ (sampleRate f)) (prevSampleRate (co f)).

Definition coefficientsFor (ty : FilterType) (k k2 n q : double)
    : double * double * double * double * double :=
  let b1 := F64.mul (F64.mul (F64.ofZ 2) (F64.sub k2 F64.one)) n in
  let b2 := F64.mul (F64.add (F64.sub F64.one (F64.div k q)) k2) n in
  match ty with
  | lowpass =>
      let a0 := F64.mul k2 n in
      (a0, F64.mul (F64.ofZ 2) a0, a0, b1, b2)
  | highpass =>
      let a0 := n in
      (a0, F64.mul (F64.ofZ (-2)) a0, a0, b1, b2)
  end.

Definition setCoefficients (f : t) : t :=
  let p := parameters f in
  let c := co f in
  let c1 :=
    if cutoffOrRateChanged f
    then
      let k' := Math.fastTan
                  (F64.mul F64.M_PI
                     (F64.div (cutoff p) (F64.ofZ (sampleRate f)))) in
      mkCo (a0 c) (a1 c) (a2 c) (b1 c) (b2 c) (dly1 c) (dly2 c)
           k' (F64.mul k' k') (n c)
           (prevQ c) (cutoff p) (F64.ofZ (sampleRate f))
    else c in
  let c2 :=
    if neb (q p) (prevQ c1)
    then
      mkCo (a0 c1) (a1 c1) (a2 c1) (b1 c1) (b2 c1) (dly1 c1) (dly2 c1)
           (k c1) (k2 c1)
           (F64.div F64.one
              (F64.add (F64.add F64.one (F64.div (k c1) (q p))) (k2 c1)))
           (q p) (prevCutoff c1) (prevSampleRate c1)
    else c1 in
  let '(a0', a1', a2', b1', b2') :=
    coefficientsFor (type p) (k c2) (k2 c2) (n c2) (q p) in
  mk p (sampleRate f)
     (mkCo a0' a1' a2' b1' b2' (dly1 c2) (dly2 c2)
           (k c2) (k2 c2) (n c2)
           (prevQ c2) (prevCutoff c2) (prevSampleRate c2)).

Definition setParameters (f : t) (newParameters : Parameters) : t :=
  let f1 := mk newParameters (sampleRate f) (co f) in
  if negb (enabled newParameters) then f1 else setCoefficients f1.

Definition process (f : t) (input : option float) : result (float * t) :=
  let p := parameters f in
  let c := co f in
  if negb (enabled p) || isNull input
  then let* x := deref input in Ok (x, f)
  else
    let* x0 := deref input in
    let x := F64.ofSingle x0 in
    let out := F64.add (F64.mul x (a0 c)) (dly1 c) in
    let d1 := F64.sub (F64.add (F64.mul x (a1 c)) (dly2 c))
                      (F64.mul (b1 c) out) in
    let d2 := F64.sub (F64.mul x (a2 c)) (F64.mul (b2 c) out) in
    Ok (F32.ofDouble out,
        mk p (sampleRate f)
           (mkCo (a0 c) (a1 c) (a2 c) (b1 c) (b2 c) d1 d2
                 (k c) (k2 c) (n c)
                 (prevQ c) (prevCutoff c) (prevSampleRate c))).

End Filter.

(** ** [pa::dsp::Reverb] *)

Module Reverb.

Record Parameters := mkParameters {
  damping : float; size : float; mix : float; width : float;
  spread : float;
  numEarlyCombs : Z; numLateCombs : Z
}.

Definition defaultParameters : Parameters :=
  mkParameters F32.zero F32.zero F32.zero F32.zero F32.zero 8 4.

(** The private class [Reverb::Comb]. *)
Module Comb.

Record t := mk {
  buffer : RingBuffer.t;
  previousValue : float
}.

Definition clear (c : t) : t := mk (RingBuffer.clear (buffer c)) F32.zero.

Definition prepare (c : t) (newSampleRate : Z) : result t :=
  let* b := RingBuffer.prepareSeconds (buffer c) (F32.lit 1 10)
              newSampleRate in
  Ok (clear (mk b (previousValue c))).

(** [Comb() { prepare(44100); }] *)
Definition init : result t := prepare (mk RingBuffer.init F32.zero) 44100.

Definition SetTime (c : t) (delayTimeInSeconds : float) : result t :=
  let* b := RingBuffer.setDelayTime (buffer c)
              (Math.clamp delayTimeInSeconds (F32.lit 1 1000) F32.one)
              RingBuffer.defaultSmoothTime in
  Ok (mk b (previousValue c)).

Definition processEarly (c : t) (input damp feed : float)
    : result (float * t) :=
  let* (delayLine, b1) := RingBuffer.getFromBuffer (buffer c) noInterp in
  let pv := F32.add delayLine
              (F32.mul damp (F32.sub (previousValue c) delayLine)) in
  let temp := F32.add input (F32.mul pv feed) in
  let* b2 := RingBuffer.pushToBuffer b1 (Some temp) in
  Ok (delayLine, mk b2 pv).

Definition processLate (c : t) (input : float) : result (float * t) :=
  let* (delayLine, b1) := RingBuffer.getFromBuffer (buffer c) noInterp in
  let temp := F32.add input (F32.mul delayLine (F32.lit 5 10)) in
  let* b2 := RingBuffer.pushToBuffer b1 (Some temp) in
  Ok (F32.sub delayLine input, mk b2 (previousValue c)).

End Comb.

(** [combs[channel][instance]] *)
Definition Bank := list (list Comb.t).

Record t := mk {
  sampleRate : Z;
  preGain : float; wet : float; dry : float;
  dampingSmooth : SmoothedValue.t;
  feedbackSmooth : SmoothedValue.t;
  wet1 : SmoothedValue.t;
  wet2 : SmoothedValue.t;
  drySmooth : SmoothedValue.t;
  parameters : Parameters;
  earlyCombs : Bank;
  lateCombs : Bank;
  earlyCombTimes : list float;
  lateCombTimes : list float
}.

(** [1.2f] *)
Definition wetGainScale : float := F32.lit 12 10.

Definition withCombs (r : t) (e l : Bank) : t :=
  mk (sampleRate r) (preGain r) (wet r) (dry r)
     (dampingSmooth r) (feedbackSmooth r) (wet1 r) (wet2 r) (drySmooth r)
     (parameters r) e l (earlyCombTimes r) (lateCombTimes r).

(** [bank[ch][j] = f (bank[ch][j])]; the vectors are indexed unchecked. *)
Definition updateComb (bank : Bank) (ch j : nat)
    (f : Comb.t -> result Comb.t) : result Bank :=
  match bank !! ch with
  | Some row =>
      match row !! j with
      | Some c => let* c' := f c in Ok (<[ch := <[j := c']> row]> bank)
      | None => Fault OutOfBounds
      end
  | None => Fault OutOfBounds
  end.

(** A call [bank[ch][j].m (...)] returning a sample. *)
Definition callComb (bank : Bank) (ch j : nat)
    (m : Comb.t -> result (float * Comb.t)) : result (float * Bank) :=
  match bank !! ch with
  | Some row =>
      match row !! j with
      | Some c => let* (o, c') := m c in
                  Ok (o, <[ch := <[j := c']> row]> bank)
      | None => Fault OutOfBounds
      end
  | None => Fault OutOfBounds
  end.

(** [for (uint i = 0; i < count; i++) bank[ch][i].SetTime (times[i] + spread)] *)
Fixpoint setTimes (count i : nat) (ch : nat) (times : list float)
    (spread : float) (bank : Bank) : result Bank :=
  match count with
  | O => Ok bank
  | S count' =>
      match times !! i with
      | Some tm =>
          let* bank' := updateComb bank ch i
                          (fun c => Comb.SetTime c (F32.add tm spread)) in
          setTimes count' (S i) ch times spread bank'
      | None => Fault OutOfBounds
      end
  end.

Definition setCombs (r : t) : result t :=
  let spreadAmount :=
    F32.div (Math.clamp (spread (parameters r)) F32.zero (F32.lit 1 100))
            (F32.ofZ 2) in
  let* e0 := setTimes 8 0 0 (earlyCombTimes r) spreadAmount (earlyCombs r) in
  let* l0 := setTimes 4 0 0 (lateCombTimes r) spreadAmount (lateCombs r) in
  let* e1 := setTimes 8 0 1 (earlyCombTimes r) (neg spreadAmount) e0 in
  let* l1 := setTimes 4 0 1 (lateCombTimes r) (neg spreadAmount) l0 in
  Ok (withCombs r e1 l1).

(** A range-based [for] over a vector of combs. *)
Fixpoint forEach (f : Comb.t -> result Comb.t) (row : list Comb.t)
    : result (list Comb.t) :=
  match row with
  | [] => Ok []
  | c :: row' =>
      let* c' := f c in
      let* rest := forEach f row' in
      Ok (c' :: rest)
  end.

(** [for (uint ch = 0; ch < 2; ch++)] over both banks: the early combs of a
    channel, then its late combs. *)
Definition forBothBanks (f : Comb.t -> result Comb.t) (e l : Bank)
    : result (Bank * Bank) :=
  match e !! 0%nat, l !! 0%nat, e !! 1%nat, l !! 1%nat with
  | Some e0, Some l0, Some e1, Some l1 =>
      let* e0' := forEach f e0 in
      let* l0' := forEach f l0 in
      let* e1' := forEach f e1 in
      let* l1' := forEach f l1 in
      Ok (<[1%nat := e1']> (<[0%nat := e0']> e),
          <[1%nat := l1']> (<[0%nat := l0']> l))
  | _, _, _, _ => Fault OutOfBounds
  end.

Definition prepareCombs (r : t) : result t :=
  let* (e, l) := forBothBanks (fun c => Comb.prepare c (sampleRate r))
                   (earlyCombs r) (lateCombs r) in
  Ok (withCombs r e l).

Definition clear (r : t) : result t :=
  let* (e, l) := forBothBanks (fun c => Ok (Comb.clear c))
                   (earlyCombs r) (lateCombs r) in
  Ok (withCombs r e l).

Definition prepare (r : t) (newSampleRate : Z) : result t :=
  let sr := if negb (newSampleRate =? sampleRate r) && negb (newSampleRate =? 0)
            then newSampleRate else sampleRate r in
  let* r1 := prepareCombs
               (mk sr (preGain r) (wet r) (dry r)
                   (dampingSmooth r) (feedbackSmooth r) (wet1 r) (wet2 r)
                   (drySmooth r) (parameters r) (earlyCombs r) (lateCombs r)
                   (earlyCombTimes r) (lateCombTimes r)) in
  let rs s := SmoothedValue.reset s (F64.ofZ sr) (F64.lit 5 100) in
  let* ds := rs (dampingSmooth r1) in
  let* fs := rs (feedbackSmooth r1) in
  let* dr := rs (drySmooth r1) in
  let* w1 := rs (wet1 r1) in
  let* w2 := rs (wet2 r1) in
  clear (mk sr (preGain r1) (wet r1) (dry r1) ds fs w1 w2 dr
            (parameters r1) (earlyCombs r1) (lateCombs r1)
            (earlyCombTimes r1) (lateCombTimes r1)).

(** Returns the new [(dry, wet)]. *)
Definition setMixValues (p : Parameters) : float * float :=
  let mixAmount := Math.clamp (mix p) F32.zero F32.one in
  (F32.sub F32.one mixAmount,
   F32.mul (Math.expRounder mixAmount (F32.lit 8 10)) (F32.lit 155 100)).

Definition setParameters (r : t) (newParameters : Parameters) : result t :=
  let old := parameters r in
  let p := newParameters in
  let '(dry', wet') :=
    if neb (mix p) (mix old) then setMixValues p else (dry r, wet r) in
  let preGain' :=
    F32.div (F32.lit 1 10)
            (F32.ofZ (wrap (numEarlyCombs p + numLateCombs p))) in
  let drySmooth' := SmoothedValue.setTargetValue (drySmooth r) dry' in
  let wet1' := SmoothedValue.setTargetValue (wet1 r)
                 (F32.mul (F32.mul wetGainScale wet')
                          (F32.add F32.one (width p))) in
  let wet2' := SmoothedValue.setTargetValue (wet2 r)
                 (F32.mul (F32.mul wetGainScale wet')
                          (F32.sub F32.one (width p))) in
  let r1 := mk (sampleRate r) preGain' wet' dry'
               (dampingSmooth r) (feedbackSmooth r) wet1' wet2' drySmooth'
               p (earlyCombs r) (lateCombs r)
               (earlyCombTimes r) (lateCombTimes r) in
  let* r2 := if neb (spread p) (spread old) then setCombs r1 else Ok r1 in
  if neb (damping p) (damping old) || neb (size p) (size old)
  then
    (* setDamping *)
    Ok (mk (sampleRate r2) (preGain r2) (wet r2) (dry r2)
           (SmoothedValue.setTargetValue (dampingSmooth r2)
              (F32.mul (damping p) (F32.lit 9 10)))
           (SmoothedValue.setTargetValue (feedbackSmooth r2)
              (F32.add (F32.mul (size p) (F32.lit 78 100)) (F32.lit 2 10)))
           (wet1 r2) (wet2 r2) (drySmooth r2)
           (parameters r2) (earlyCombs r2) (lateCombs r2)
           (earlyCombTimes r2) (lateCombTimes r2))
  else Ok r2.

Definition withEarlyTimes (r : t) (ts : list float) : t :=
  mk (sampleRate r) (preGain r) (wet r) (dry r)
     (dampingSmooth r) (feedbackSmooth r) (wet1 r) (wet2 r) (drySmooth r)
     (parameters r) (earlyCombs r) (lateCombs r) ts (lateCombTimes r).

Definition withLateTimes (r : t) (ts : list float) : t :=
  mk (sampleRate r) (preGain r) (wet r) (dry r)
     (dampingSmooth r) (feedbackSmooth r) (wet1 r) (wet2 r) (drySmooth r)
     (parameters r) (earlyCombs r) (lateCombs r) (earlyCombTimes r) ts.

(** [times[index] = v] on a vector, unchecked. *)
Definition assign (times : list float) (index : Z) (v : float)
    : result (list float) :=
  match times !! Z.to_nat index with
  | Some _ => Ok (<[Z.to_nat index := v]> times)
  | None => Fault OutOfBounds
  end.

Definition setEarlyCombTime (r : t) (newDelayTime : float) (combIndex : Z)
    : result t :=
  let* ts := assign (earlyCombTimes r) (Math.clampU combIndex 0 7)
               newDelayTime in
  setCombs (withEarlyTimes r ts).

Definition setLateCombTime (r : t) (newDelayTime : float) (combIndex : Z)
    : result t :=
  let* ts := assign (lateCombTimes r) (Math.clampU combIndex 0 3)
               newDelayTime in
  setCombs (withLateTimes r ts).

(** The loop over the early combs: both channels at index [j], then
    [j + 1]. *)
Fixpoint earlyLoop (count j : nat) (bank : Bank) (input damp feed : float)
    (outL outR : float) : result (float * float * Bank) :=
  match count with
  | O => Ok (outL, outR, bank)
  | S count' =>
      let* (oL, bank1) :=
        callComb bank 0 j (fun c => Comb.processEarly c input damp feed) in
      let* (oR, bank2) :=
        callComb bank1 1 j (fun c => Comb.processEarly c input damp feed) in
      earlyLoop count' (S j) bank2 input damp feed
                (F32.add outL oL) (F32.add outR oR)
  end.

(** The loop over the late combs, in series. *)
Fixpoint lateLoop (count j : nat) (bank : Bank) (outL outR : float)
    : result (float * float * Bank) :=
  match count with
  | O => Ok (outL, outR, bank)
  | S count' =>
      let* (outL', bank1) :=
        callComb bank 0 j (fun c => Comb.processLate c outL) in
      let* (outR', bank2) :=
        callComb bank1 1 j (fun c => Comb.processLate c outR) in
      lateLoop count' (S j) bank2 outL' outR'
  end.

(** Body of [process] once both pointers are known to be non-null: the
    values left in [*left] and [*right]. *)
Definition processSamples (r : t) (left right : float)
    : result (float * float * t) :=
  let p := parameters r in
  let input := F32.mul (F32.add left right) (preGain r) in
  let '(damp, ds) := SmoothedValue.getNextValue (dampingSmooth r) in
  let '(feed, fs) := SmoothedValue.getNextValue (feedbackSmooth r) in
  let* (eL, eR, early') :=
    earlyLoop (Z.to_nat (numEarlyCombs p)) 0 (earlyCombs r)
              input damp feed F32.zero F32.zero in
  let* (outL, outR, late') :=
    lateLoop (Z.to_nat (numLateCombs p)) 0 (lateCombs r) eL eR in
  let '(d, drs) := SmoothedValue.getNextValue (drySmooth r) in
  let '(w1, w1s) := SmoothedValue.getNextValue (wet1 r) in
  let '(w2, w2s) := SmoothedValue.getNextValue (wet2 r) in
  Ok (F32.add (F32.add (F32.mul d left) (F32.mul w1 outL)) (F32.mul w2 outR),
      F32.add (F32.add (F32.mul d right) (F32.mul w1 outR)) (F32.mul w2 outL),
      mk (sampleRate r) (preGain r) (wet r) (dry r)
         ds fs w1s w2s drs p early' late'
         (earlyCombTimes r) (lateCombTimes r)).

Definition process (r : t) (left right : option float)
    : result (option float * option float * t) :=
  match left, right with
  | Some l, Some rt =>
      let* (l', r', st) := processSamples r l rt in Ok (Some l', Some r', st)
  | _, _ => Ok (left, right, r)
  end.

(** [Reverb()] *)
Definition init : result t :=
  let* c := Comb.init in
  let r0 :=
    mk 44100 F32.zero F32.zero F32.zero
       (SmoothedValue.make F32.zero) (SmoothedValue.make F32.zero)
       (SmoothedValue.make F32.zero) (SmoothedValue.make F32.zero)
       (SmoothedValue.make F32.zero)
       defaultParameters
       (replicate 2 (replicate 8 c))
       (replicate 2 (replicate 4 c))
       [F32.lit 6 100; F32.lit 4 100; F32.lit 2 100; F32.lit 1 100;
        F32.lit 52 1000; F32.lit 36 1000; F32.lit 42 1000; F32.lit 24 1000]
       [F32.lit 11 1000; F32.lit 54 1000; F32.lit 33 1000; F32.lit 23 1000] in
  let* r1 := setCombs r0 in
  prepare r1 44100.

End Reverb.

(** ** [RiserProcessor] *)

Module RiserProcessor.

Record t := mk {
  masterAmount : float; reverbAmount : float;
  filterAmount : float; flangerAmount : float;
  flanger : CombFilter.t * CombFilter.t;
  lowpassF : Filter.t * Filter.t;
  highpassF : Filter.t * Filter.t;
  reverb : Reverb.t;
  flangerParams : CombFilter.Parameters;
  lowpassParams : Filter.Parameters;
  highpassParams : Filter.Parameters;
  reverbParams : Reverb.Parameters
}.

Definition mapValue (val min max : float) : float :=
  Math.map val F32.zero F32.one min max.

(** The loop of the constructor over the comb times. *)
Fixpoint setCombTimes (count : nat) (i : Z) (earlyTimes lateTimes : list float)
    (rv : Reverb.t) : result Reverb.t :=
  match count with
  | O => Ok rv
  | S count' =>
      match earlyTimes !! Z.to_nat i with
      | Some te =>
          let* rv1 := Reverb.setEarlyCombTime rv te i in
          let* rv2 :=
            if i <? 4
            then
              match lateTimes !! Z.to_nat i with
              | Some tl => Reverb.setLateCombTime rv1 tl i
              | None => Fault OutOfBounds
              end
            else Ok rv1 in
          setCombTimes count' (i + 1) earlyTimes lateTimes rv2
      | None => Fault OutOfBounds
      end
  end.

(** [RiserProcessor()] *)
Definition init : result t :=
  let earlyTimes :=
    [F32.lit 53 10000; F32.lit 134 10000; F32.lit 229 10000;
     F32.lit 30 1000; F32.lit 92 10000; F32.lit 158 10000;
     F32.lit 397 10000; F32.lit 184 10000] in
  let lateTimes :=
    [F32.lit 111 10000; F32.lit 175 10000; F32.lit 76 10000;
     F32.lit 152 10000] in
  let* rv0 := Reverb.init in
  let* rv := setCombTimes 8 0 earlyTimes lateTimes rv0 in
  Ok (mk F32.zero (F32.lit 65 100) F32.one (F32.lit 7 10)
         (CombFilter.init, CombFilter.init)
         (Filter.init, Filter.init)
         (Filter.init, Filter.init)
         rv
         (CombFilter.mkParameters (F32.ofZ 3000) F32.zero (F32.lit 5 10)
                                  linearInterp)
         (Filter.mkParameters Filter.lowpass
            (F64.ofSingle (F32.ofZ 20000)) (F64.ofSingle (F32.lit 5 10)) true)
         (Filter.mkParameters Filter.highpass
            (F64.ofSingle (F32.ofZ 10)) F64.M_SQRT1_2 true)
         (Reverb.mkParameters (F32.lit 6 10) (F32.lit 2 10) F32.zero F32.one
                              (F32.lit 65 10) 8 4)).

Definition calculateValues (s : t) : result t :=
  let fa := flangerAmount s in
  let fi := filterAmount s in
  let ra := reverbAmount s in
  let fp := CombFilter.mkParameters
              (mapValue fa (F32.ofZ 20) (F32.ofZ 280))
              (mapValue (Math.expRounder fa (F32.lit 3 10))
                        F32.zero (F32.lit 75 100))
              (mapValue fa F32.zero (F32.lit 55 100))
              (CombFilter.interpType (flangerParams s)) in
  let lp := Filter.mkParameters
              (Filter.type (lowpassParams s))
              (F64.ofSingle
                 (mapValue (Math.expRounder fi (F32.lit 3 10))
                           (F32.ofZ 20000) (F32.ofZ 4000)))
              (F64.ofSingle
                 (mapValue (Math.expRounder fi (F32.lit (-6) 10))
                           (F32.lit 5 10) (F32.lit 85 100)))
              (Filter.enabled (lowpassParams s)) in
  let hp := Filter.mkParameters
              (Filter.type (highpassParams s))
              (F64.ofSingle
                 (mapValue (Math.expRounder fi (F32.lit (-3) 10))
                           (F32.ofZ 10) (F32.ofZ 200)))
              (F64.ofSingle
                 (mapValue (Math.expRounder fi (F32.lit (-5) 10))
                           (F32.ofDouble F64.M_SQRT1_2) F32.one))
              (Filter.enabled (highpassParams s)) in
  let rp := Reverb.mkParameters
              (Reverb.damping (reverbParams s))
              (mapValue ra (F32.lit 1 100) (F32.lit 45 100))
              (mapValue ra F32.zero (F32.lit 75 100))
              (mapValue ra F32.one (F32.lit 6 10))
              (mapValue (Math.expRounder ra (F32.lit 3 10))
                        (F32.lit 5 10) (F32.lit 15 10))
              (Reverb.numEarlyCombs (reverbParams s))
              (Reverb.numLateCombs (reverbParams s)) in
  let* fl0 := CombFilter.setParameters (fst (flanger s)) fp F32.zero in
  let* fl1 := CombFilter.setParameters (snd (flanger s)) fp
                (F32.mul (F32.ofZ 7)
                         (Math.expRounder fa (F32.lit (-4) 10))) in
  let* rv := Reverb.setParameters (reverb s) rp in
  Ok (mk (masterAmount s) ra fi fa
         (fl0, fl1)
         (Filter.setParameters (fst (lowpassF s)) lp,
          Filter.setParameters (snd (lowpassF s)) lp)
         (Filter.setParameters (fst (highpassF s)) hp,
          Filter.setParameters (snd (highpassF s)) hp)
         rv fp lp hp rp).

Definition prepare (s : t) (sampleRate : Z) : result t :=
  let* rv := Reverb.prepare (reverb s) sampleRate in
  let* fl0 := CombFilter.prepare (fst (flanger s)) sampleRate in
  let* fl1 := CombFilter.prepare (snd (flanger s)) sampleRate in
  calculateValues
    (mk (masterAmount s) (reverbAmount s) (filterAmount s) (flangerAmount s)
        (fl0, fl1)
        (Filter.prepare (fst (lowpassF s)) sampleRate,
         Filter.prepare (snd (lowpassF s)) sampleRate)
        (Filter.prepare (fst (highpassF s)) sampleRate,
         Filter.prepare (snd (highpassF s)) sampleRate)
        rv
        (flangerParams s) (lowpassParams s) (highpassParams s)
        (reverbParams s)).

Definition setParameters (s : t)
    (newDoublerAmount newFilterAmount newReverbAmount newMasterAmount : float)
    : result t :=
  let ma := Math.clamp newMasterAmount F32.zero F32.one in
  let ra := F32.mul (Math.clamp newReverbAmount F32.zero F32.one) ma in
  let fi := F32.mul (Math.clamp newFilterAmount F32.zero F32.one) ma in
  let fa := F32.mul (Math.clamp newDoublerAmount F32.zero F32.one) ma in
  calculateValues
    (mk ma ra fi fa (flanger s) (lowpassF s) (highpassF s) (reverb s)
        (flangerParams s) (lowpassParams s) (highpassParams s)
        (reverbParams s)).

(** The protective ceiling of the process loop, [1.2f]. *)
Definition ceil : float := F32.lit 12 10.

(** One iteration of the process loop on the samples [left[i]], [right[i]]:
    the two values written back and the processor afterwards. *)
Definition processFrame (s : t) (inL inR : float)
    : result (float * float * t) :=
  let* (outL1, fl0) := CombFilter.process (fst (flanger s)) (Some inL) in
  let* (outR1, fl1) := CombFilter.process (snd (flanger s)) (Some inR) in
  let* (outL2, lp0) := Filter.process (fst (lowpassF s)) (Some outL1) in
  let* (outR2, lp1) := Filter.process (snd (lowpassF s)) (Some outR1) in
  let* (outL3, hp0) := Filter.process (fst (highpassF s)) (Some outL2) in
  let* (outR3, hp1) := Filter.process (snd (highpassF s)) (Some outR2) in
  let* (outL4, outR4, rv) := Reverb.processSamples (reverb s) outL3 outR3 in
  Ok (Math.setClamp outL4 (neg ceil) ceil,
      Math.setClamp outR4 (neg ceil) ceil,
      mk (masterAmount s) (reverbAmount s) (filterAmount s) (flangerAmount s)
         (fl0, fl1) (lp0, lp1) (hp0, hp1) rv
         (flangerParams s) (lowpassParams s) (highpassParams s)
         (reverbParams s)).

(** [for (int i = 0; i < numSamples; i++)]; the arrays are indexed
    unchecked. *)
Fixpoint processLoop (count i : nat) (s : t) (left right : list float)
    : result (list float * list float * t) :=
  match count with
  | O => Ok (left, right, s)
  | S count' =>
      match left !! i, right !! i with
      | Some l, Some r =>
          let* (oL, oR, s') := processFrame s l r in
          processLoop count' (S i) s' (<[i := oL]> left) (<[i := oR]> right)
      | _, _ => Fault OutOfBounds
      end
  end.

(** [process (float* left, float* right, const int& numSamples)]: [None]
    is a null array pointer. *)
Definition process (s : t) (left right : option (list float))
    (numSamples : Z)
    : result (option (list float) * option (list float) * t) :=
  match left, right with
  | Some l, Some r =>
      if numSamples <=? 0 then Ok (left, right, s)
      else
        let* (l', r', s') := processLoop (Z.to_nat numSamples) 0 s l r in
        Ok (Some l', Some r', s')
  | _, _ => Ok (left, right, s)
  end.

End RiserProcessor.

End Ieee.

(** ** Predicates and examples for the second embedding *)

(** The heap block of a ring buffer has the size the buffer records, and
    holds that many cells. *)
Definition allocated (rb : Ieee.RingBuffer.t) : Prop :=
  Ieee.HeapBlock.size (Ieee.RingBuffer.buffer rb) = Ieee.RingBuffer.size rb /\
  Z.of_nat (length (Ieee.HeapBlock.data (Ieee.RingBuffer.buffer rb)))
  = Ieee.RingBuffer.size rb.

(** The sample stored at index [i] of the delay line, for an index inside
    the buffer. *)
Definition cellAt (rb : Ieee.RingBuffer.t) (i : Z) : option Ieee.float :=
  if (0 <=? i) && (i <? Ieee.RingBuffer.size rb)
  then Ieee.HeapBlock.data (Ieee.RingBuffer.buffer rb) !! Z.to_nat i
  else None.

(** The delayed sample of the spec's read at the index [idx] with the
    fractional part [fr]: the sample at that index (no interpolation), its
    blend with the previous one (linear), or the Catmull-Rom blend of the
    four samples around it (cubic), as long as all of them lie inside the
    buffer. *)
Definition tap (rb : Ieee.RingBuffer.t) (interp : InterpolationType)
    (idx : Z) (fr : Ieee.float) : option Ieee.float :=
  match interp with
  | linearInterp =>
      match cellAt rb idx, cellAt rb (idx - 1) with
      | Some a, Some b => Some (Ieee.Math.LinearInterp a b fr)
      | _, _ => None
      end
  | cubicInterp =>
      match cellAt rb (idx + 1), cellAt rb idx,
            cellAt rb (idx - 1), cellAt rb (idx - 2) with
      | Some s1, Some s2, Some s3, Some s4 =>
          Some (Ieee.Math.CubicInterp s1 s2 s3 s4 fr true)
      | _, _, _, _ => None
      end
  | _ => cellAt rb idx
  end.

(** The read offset a comb filter computes in its next [process]: the
    product of rate and delay time in single precision, raised to 2 in the
    cubic mode. *)
Definition nextOffset (c : Ieee.CombFilter.t) : Ieee.float :=
  let rb := Ieee.CombFilter.delay c in
  let o := Ieee.F32.mul (Ieee.F32.ofZ (Ieee.RingBuffer.sampleRate rb))
             (fst (Ieee.SmoothedValue.getNextValue
                     (Ieee.RingBuffer.delayTime rb))) in
  match Ieee.CombFilter.interpType (Ieee.CombFilter.parameters c) with
  | cubicInterp => if Ieee.ltb o (Ieee.F32.ofZ 2) then Ieee.F32.ofZ 2 else o
  | _ => o
  end.

(** A sample that is NaN or lies inside the protective ceiling. *)
Definition clippedOrNaN (x : Ieee.float) : Prop :=
  Ieee.isNaN x = true \/
  (Ieee.leb (Ieee.neg Ieee.RiserProcessor.ceil) x = true /\
   Ieee.leb x Ieee.RiserProcessor.ceil = true).

(** The samples a call of [RiserProcessor::process] that returned left in
    the two arrays. *)
Definition written
    (r : result (option (list Ieee.float) * option (list Ieee.float)
                 * Ieee.RiserProcessor.t))
    : option (list Ieee.float * list Ieee.float) :=
  match r with
  | Ok (Some l, Some r, _) => Some (l, r)
  | _ => None
  end.

Module IeeeExamples.
Import Ieee.

Definition half : float := F32.lit 5 10.

(** [RiserProcessor rp; rp.prepare (32000); rp.setParameters (0, 0, 0, 0);] *)
Definition riser32k : result RiserProcessor.t :=
  let* s0 := RiserProcessor.init in
  let* s1 := RiserProcessor.prepare s0 32000 in
  RiserProcessor.setParameters s1 F32.zero F32.zero F32.zero F32.zero.

(** [RiserProcessor rp; rp.setParameters (0, 0, 0, 0); rp.prepare (44100);] *)
Definition riserSetFirst : result RiserProcessor.t :=
  let* s0 := RiserProcessor.init in
  let* s1 := RiserProcessor.setParameters s0 F32.zero F32.zero F32.zero
               F32.zero in
  RiserProcessor.prepare s1 44100.

(** [RiserProcessor rp; rp.prepare (44100); rp.setParameters (0, 0, 0, 0);] *)
Definition riser44k : result RiserProcessor.t :=
  let* s0 := RiserProcessor.init in
  let* s1 := RiserProcessor.prepare s0 44100 in
  RiserProcessor.setParameters s1 F32.zero F32.zero F32.zero F32.zero.

(** The samples 1, 2, ..., 16. *)
Definition ramp16 : list float := List.map F32.ofZ (seqZ 1 16).

(** The samples 1, 2, 3, 4. *)
Definition ramp4 : list float := List.map F32.ofZ (seqZ 1 4).

(** A comb filter in the linear mode of the flanger: four cells at a rate
    of 4 Hz holding 5, 2, 3, 4 with the write index at 1, the delay settled
    at 0.625 s (an offset of 2.5 samples), wet 0.5 and feedback 0.25. *)
Definition comb4 : CombFilter.t :=
  CombFilter.mk
    (RingBuffer.mk
       (HeapBlock.mk [F32.ofZ 5; F32.ofZ 2; F32.ofZ 3; F32.ofZ 4] 4)
       4 1 4 F32.zero (SmoothedValue.make (F32.lit 625 1000)))
    (CombFilter.mkParameters F32.one (F32.lit 5 10) (F32.lit 25 100)
                             linearInterp).

End IeeeExamples.

(** * Properties *)

(** ** Comparisons and clamping *)

Section Comparisons.
Import Num.

Lemma Qltb_lt (a b : Q) : Qltb a b = true <-> (a < b)%Q.
Proof.
  unfold Qltb. rewrite negb_true_iff. split.
  - intros H. apply Qnot_le_lt. intros Hle.
    apply Qle_bool_iff in Hle. congruence.
  - intros H. destruct (Qle_bool b a) eqn:E; [|reflexivity].
    apply Qle_bool_iff in E. exfalso. eapply Qlt_not_le; eauto.
Qed.

Lemma Qltb_ge (a b : Q) : Qltb a b = false <-> (b <= a)%Q.
Proof.
  unfold Qltb. rewrite negb_false_iff. apply Qle_bool_iff.
Qed.

Lemma Qleb_le (a b : Q) : Qleb a b = true <-> (a <= b)%Q.
Proof. apply Qle_bool_iff. Qed.

Lemma Qeqb_eq (a b : Q) : Qeqb a b = true <-> (a == b)%Q.
Proof. apply Qeq_bool_iff. Qed.

Lemma Qeqb_neq (a b : Q) : Qeqb a b = false <-> ~ (a == b)%Q.
Proof.
  unfold Qeqb. split.
  - intros H E. apply Qeq_bool_iff in E. congruence.
  - intros H. destruct (Qeq_bool a b) eqn:E; [|reflexivity].
    apply Qeq_bool_iff in E. contradiction.
Qed.

Lemma setClamp_bounds (v lo hi : Q) :
  (lo <= hi)%Q -> (lo <= Math.setClamp v lo hi <= hi)%Q.
Proof.
  intros Hlh. unfold Math.setClamp.
  destruct (Qltb v lo) eqn:E1.
  - split; [apply Qle_refl | exact Hlh].
  - apply Qltb_ge in E1. destruct (Qltb hi v) eqn:E2.
    + split; [exact Hlh | apply Qle_refl].
    + apply Qltb_ge in E2. split; assumption.
Qed.

Lemma clamp_inside (v lo hi : Q) :
  (lo <= v)%Q -> (v <= hi)%Q -> Math.clamp v lo hi = v.
Proof.
  intros H1 H2. unfold Math.clamp.
  apply Qltb_ge in H1. apply Qltb_ge in H2. now rewrite H1, H2.
Qed.

Lemma wrap_small (z : Z) : 0 <= z < UINT_MOD -> wrap z = z.
Proof. intros H. unfold wrap. now apply Z.mod_small. Qed.

Lemma wrap_range (z : Z) : 0 <= wrap z < UINT_MOD.
Proof. unfold wrap, UINT_MOD. apply Z.mod_pos_bound. lia. Qed.

(** Truncating a fraction whose value is the integer [z]. *)
Lemma Qtrunc_integer (x : Q) (z : Z) : (x == inject_Z z)%Q -> Qtrunc x = z.
Proof.
  unfold Qeq, Qtrunc. destruct x as [n d]. simpl. intros H.
  rewrite Z.mul_1_r in H. subst n. apply Z.quot_mul. lia.
Qed.

End Comparisons.

(** ** Biquad filter: pass-through *)

Section FilterPassThrough.

(** A disabled filter handed a readable sample returns the sample and
    keeps its whole state, the delay registers included. *)
Lemma Filter_process_disabled (f : Filter.t) (x : Q) :
  Filter.enabled (Filter.parameters f) = false ->
  Filter.process f (Some x) = Returned (x, f).
Proof. intros H. unfold Filter.process. rewrite H. reflexivity. Qed.

(** C2 (source behaviour at a null pointer).  Whatever the state of the
    filter, enabled or not, [process (nullptr)] takes the guarded branch
    and evaluates [*input] there: the call dereferences the null pointer
    instead of returning a sample. *)
Theorem Filter_process_null_dereferences (f : Filter.t) :
  Filter.process f None = NullDereference.
Proof.
  unfold Filter.process. simpl isNull. rewrite orb_true_r. reflexivity.
Qed.

End FilterPassThrough.

(** ** Ring buffer: the write index *)

Section WriteIndex.
Import Num RingBuffer RingBufferCalls.

Lemma writeIndexInv_init : writeIndexInv RingBuffer.init.
Proof. split; simpl; lia. Qed.

Lemma writeIndexInv_same (rb rb' : RingBuffer.t) :
  size rb' = size rb -> writeIndex rb' = writeIndex rb ->
  writeIndexInv rb -> writeIndexInv rb'.
Proof. unfold writeIndexInv. intros -> ->. tauto. Qed.

Lemma writeIndexInv_increment (rb : RingBuffer.t) :
  writeIndexInv rb -> writeIndexInv (incrementWritePointer rb).
Proof.
  intros [H0 H1]. unfold writeIndexInv, incrementWritePointer. simpl.
  pose proof (wrap_range (writeIndex rb + 1)) as Hw.
  assert (Hle : wrap (writeIndex rb + 1) <= writeIndex rb + 1).
  { unfold wrap, UINT_MOD. apply Z.mod_le; lia. }
  destruct (size rb <=? wrap (writeIndex rb + 1)) eqn:E.
  - apply Z.leb_le in E. split.
    + apply wrap_range.
    + intros Hs. specialize (H1 Hs).
      assert (Heq : wrap (writeIndex rb + 1) = size rb) by lia.
      rewrite Heq, Z.sub_diag. change (wrap 0) with 0. lia.
  - apply Z.leb_gt in E. split; [lia | intros _; lia].
Qed.

Lemma writeIndexInv_prepare (rb : RingBuffer.t) (n sr : Z) :
  writeIndexInv rb -> writeIndexInv (prepare rb n sr).
Proof.
  intros H. unfold prepare, clear. simpl.
  destruct (negb _) eqn:E; simpl.
  - split; simpl; lia.
  - exact H.
Qed.

Lemma writeIndexInv_stepDelay (rb : RingBuffer.t) :
  writeIndexInv rb -> writeIndexInv (snd (stepDelay rb)).
Proof.
  unfold stepDelay. destruct (SmoothedValue.getNextValue _). simpl.
  apply writeIndexInv_same; reflexivity.
Qed.

Lemma getFromBuffer_snd (rb : RingBuffer.t) (interp : InterpolationType) :
  snd (getFromBuffer rb interp) = snd (stepDelay rb).
Proof.
  unfold getFromBuffer, getFromBufferNoInterp, getFromBufferLinearInterp,
    getFromBufferCubicInterp.
  destruct interp; destruct (stepDelay rb); reflexivity.
Qed.

Lemma writeIndexInv_getFromBuffer (rb : RingBuffer.t) interp :
  writeIndexInv rb -> writeIndexInv (snd (getFromBuffer rb interp)).
Proof. rewrite getFromBuffer_snd. apply writeIndexInv_stepDelay. Qed.

Lemma writeIndexInv_getFromBufferPtr (rb : RingBuffer.t) sample interp :
  writeIndexInv rb -> writeIndexInv (snd (getFromBufferPtr rb sample interp)).
Proof.
  intros H. unfold getFromBufferPtr. destruct sample; [|exact H].
  pose proof (writeIndexInv_getFromBuffer rb interp H) as H'.
  destruct (getFromBuffer rb interp). exact H'.
Qed.

Lemma writeIndexInv_pushToBuffer (rb : RingBuffer.t) input :
  writeIndexInv rb -> writeIndexInv (pushToBuffer rb input).
Proof.
  intros H. destruct input; [|exact H]. unfold pushToBuffer.
  apply writeIndexInv_increment. revert H.
  apply writeIndexInv_same; reflexivity.
Qed.

Lemma writeIndexInv_exec (rb : RingBuffer.t) (c : call) :
  writeIndexInv rb -> writeIndexInv (exec rb c).
Proof.
  intros H. destruct c; simpl.
  - now apply writeIndexInv_prepare.
  - now apply writeIndexInv_prepare.
  - revert H. apply writeIndexInv_same; reflexivity.
  - revert H. unfold setDelayTime. apply writeIndexInv_same;
      destruct (negb _); reflexivity.
  - unfold getAndPush. destruct input; [|exact H].
    apply writeIndexInv_getFromBufferPtr.
    now apply writeIndexInv_pushToBuffer.
  - now apply writeIndexInv_getFromBufferPtr.
  - now apply writeIndexInv_getFromBuffer.
  - now apply writeIndexInv_pushToBuffer.
  - now apply writeIndexInv_increment.
Qed.

Lemma writeIndexInv_run (cs : list call) (rb : RingBuffer.t) :
  writeIndexInv rb -> writeIndexInv (run rb cs).
Proof.
  revert rb. induction cs as [|c cs IH]; intros rb H; simpl.
  - exact H.
  - apply IH. now apply writeIndexInv_exec.
Qed.

(** C10.  Write-index invariant: in every ring buffer reached from the
    constructed one by any sequence of calls of the interface (either
    [prepare], [clear], [setDelayTime], [getAndPush], the reads,
    [pushToBuffer], [forceIncrementWritePointer]), a size [> 0] comes with
    [0 <= writeIndex < size]. *)
Theorem RingBuffer_writeIndex_invariant (cs : list call) :
  0 < size (run RingBuffer.init cs) ->
  0 <= writeIndex (run RingBuffer.init cs) < size (run RingBuffer.init cs).
Proof.
  intros Hs.
  destruct (writeIndexInv_run cs RingBuffer.init writeIndexInv_init) as [H0 H1].
  split; [exact H0 | exact (H1 Hs)].
Qed.

Lemma RingBuffer_writeIndex_invariant_witness :
  let cs := [Prepare 4 10; PushToBuffer (Some 1%Q); GetFromBuffer noInterp;
             PushToBuffer (Some 2%Q); ForceIncrementWritePointer;
             GetAndPush (Some 3%Q); PushToBuffer (Some 4%Q)] in
  size (run RingBuffer.init cs) = 4 /\
  writeIndex (run RingBuffer.init cs) = 1 /\
  0 <= writeIndex (run RingBuffer.init cs) < size (run RingBuffer.init cs).
Proof.
  intros cs. split; [reflexivity|]. split; [reflexivity|].
  apply (RingBuffer_writeIndex_invariant cs). reflexivity.
Defined.

End WriteIndex.

(** ** Biquad filter: coefficient caching *)

Section FilterCoefficients.
Import Num Filter.

Ltac unfold_setParameters H :=
  unfold setParameters, setCoefficients; rewrite H;
  cbn [negb parameters sampleRate co type cutoff q enabled].

Ltac by_cases :=
  destruct (type _);
  cbn [coefficientsFor a0 a1 a2 b1 b2 dly1 dly2 k k2 n
       prevQ prevCutoff prevSampleRate parameters sampleRate co];
  repeat split; reflexivity.

Variables (f : Filter.t) (p : Parameters).
Hypothesis Hen : enabled p = true.

Let f' := setParameters f p.
Let sr := ofInt (sampleRate f).

Lemma setParameters_frame :
  parameters f' = p /\ sampleRate f' = sampleRate f /\
  dly1 (co f') = dly1 (co f) /\ dly2 (co f') = dly2 (co f).
Proof.
  subst f'. unfold_setParameters Hen.
  destruct (cutoffOrRateChanged _); destruct (negb (Qeqb _ _)); by_cases.
Qed.

Lemma setParameters_k_kept :
  (cutoff p == prevCutoff (co f))%Q -> (sr == prevSampleRate (co f))%Q ->
  k (co f') = k (co f) /\ k2 (co f') = k2 (co f) /\
  prevCutoff (co f') = prevCutoff (co f) /\
  prevSampleRate (co f') = prevSampleRate (co f).
Proof.
  intros Hc Hs. subst f' sr.
  unfold_setParameters Hen.
  assert (E : cutoffOrRateChanged (mk p (sampleRate f) (co f)) = false).
  { unfold cutoffOrRateChanged. simpl.
    apply Qeqb_eq in Hc. apply Qeqb_eq in Hs. now rewrite Hc, Hs. }
  rewrite E. destruct (negb (Qeqb _ _)); by_cases.
Qed.

Lemma setParameters_k_recomputed :
  ~ (cutoff p == prevCutoff (co f))%Q \/ ~ (sr == prevSampleRate (co f))%Q ->
  k (co f') = Math.fastTan (M_PI * (cutoff p / sr)) /\
  k2 (co f') = (k (co f') * k (co f'))%Q /\
  prevCutoff (co f') = cutoff p /\ prevSampleRate (co f') = sr.
Proof.
  intros Hc. subst f' sr.
  unfold_setParameters Hen.
  assert (E : cutoffOrRateChanged (mk p (sampleRate f) (co f)) = true).
  { unfold cutoffOrRateChanged. simpl. apply orb_true_iff.
    destruct Hc as [Hc|Hc]; apply Qeqb_neq in Hc; rewrite Hc; auto. }
  rewrite E. destruct (negb (Qeqb _ _)); by_cases.
Qed.

Lemma setParameters_n_kept :
  (q p == prevQ (co f))%Q ->
  n (co f') = n (co f) /\ prevQ (co f') = prevQ (co f).
Proof.
  intros Hq. subst f'.
  unfold_setParameters Hen.
  apply Qeqb_eq in Hq.
  destruct (cutoffOrRateChanged _); cbn [prevQ]; rewrite Hq; cbn [negb];
    by_cases.
Qed.

Lemma setParameters_n_recomputed :
  ~ (q p == prevQ (co f))%Q ->
  n (co f') = (1 / (1 + k (co f') / q p + k2 (co f')))%Q /\
  prevQ (co f') = q p.
Proof.
  intros Hq. subst f'.
  unfold_setParameters Hen.
  apply Qeqb_neq in Hq.
  destruct (cutoffOrRateChanged _); cbn [prevQ]; rewrite Hq; cbn [negb];
    by_cases.
Qed.

Lemma setParameters_coefficients :
  (a0 (co f'), a1 (co f'), a2 (co f'), b1 (co f'), b2 (co f')) =
  coefficientsFor (type p) (k (co f')) (k2 (co f')) (n (co f')) (q p).
Proof.
  subst f'.
  unfold_setParameters Hen.
  destruct (cutoffOrRateChanged _); destruct (negb (Qeqb _ _)); by_cases.
Qed.

Lemma setParameters_prevQ : (prevQ (co f') == q p)%Q.
Proof.
  destruct (Qeq_dec (q p) (prevQ (co f))) as [Hq|Hq].
  - destruct (setParameters_n_kept Hq) as [_ ->]. now symmetry.
  - destruct (setParameters_n_recomputed Hq) as [_ ->]. reflexivity.
Qed.

End FilterCoefficients.
(** ** Arithmetic of the biquad normaliser *)

Section NormaliserArithmetic.
Local Open Scope Q_scope.

Lemma Qdiv_one_eq (x y : Q) : x / y == 1 -> x == y.
Proof.
  intros H. destruct (Qeq_dec y 0) as [Hy|Hy].
  - exfalso. unfold Qdiv in H. rewrite Hy in H.
    change (/ 0) with 0 in H. rewrite Qmult_0_r in H. discriminate H.
  - transitivity (x / y * y); [field; exact Hy|]. rewrite H. ring.
Qed.

Lemma normaliser_positive (k q : Q) :
  0 < k -> 0 < q -> 0 < 1 + k / q + k * k.
Proof.
  intros Hk Hq.
  assert (Hi : 0 < / q) by now apply Qinv_lt_0_compat.
  assert (H1 : 0 < k * / q) by now apply Qmult_lt_0_compat.
  assert (H2 : 0 < k * k) by now apply Qmult_lt_0_compat.
  unfold Qdiv. lra.
Qed.

(** With [n] the reciprocal of [1 + k/q + k2], the numerator and the
    denominator of the lowpass DC gain agree. *)
Lemma lowpass_unity (k q : Q) :
  ~ q == 0 -> ~ 1 + k / q + k * k == 0 ->
  let n := 1 / (1 + k / q + k * k) in
  k * k * n + 2 * (k * k * n) + k * k * n ==
  1 + 2 * (k * k - 1) * n + (1 - k / q + k * k) * n.
Proof.
  intros Hq Hd n.
  assert (HnD : n * (1 + k / q + k * k) == 1).
  { subst n. unfold Qdiv at 1. rewrite Qmult_1_l, Qmult_comm.
    now apply Qmult_inv_r. }
  clearbody n.
  transitivity (1 + 2 * (k * k - 1) * n + (1 - k / q + k * k) * n
                - (1 - n * (1 + k / q + k * k))).
  - unfold Qdiv. ring.
  - rewrite HnD. ring.
Qed.

(** A normaliser left over from a smaller [k] breaks the unity gain. *)
Lemma stale_gain_ne (k K q : Q) :
  0 < k -> k < K -> 0 < q ->
  let N := 1 / (1 + k / q + k * k) in
  ~ (K * K * N + 2 * (K * K * N) + K * K * N) /
    (1 + 2 * (K * K - 1) * N + (1 - K / q + K * K) * N) == 1.
Proof.
  intros Hk HK Hq N Hgain. apply Qdiv_one_eq in Hgain.
  pose proof (normaliser_positive k q Hk Hq) as HD.
  assert (HN : N * (1 + k / q + k * k) == 1).
  { subst N. unfold Qdiv at 1. rewrite Qmult_1_l, Qmult_comm.
    apply Qmult_inv_r. lra. }
  assert (Hi : 0 < / q) by now apply Qinv_lt_0_compat.
  assert (HNpos : 0 < N).
  { subst N. unfold Qdiv. rewrite Qmult_1_l. now apply Qinv_lt_0_compat. }
  clearbody N.
  assert (HNK : N * (1 + K / q + K * K) == 1).
  { transitivity
      (K * K * N + 2 * (K * K * N) + K * K * N
       - (1 + 2 * (K * K - 1) * N + (1 - K / q + K * K) * N) + 1).
    - unfold Qdiv. ring.
    - rewrite Hgain. ring. }
  assert (Hdiff : N * ((K - k) * / q + (K * K - k * k)) == 0).
  { transitivity (N * (1 + K / q + K * K) - N * (1 + k / q + k * k)).
    - unfold Qdiv. ring.
    - rewrite HNK, HN. ring. }
  assert (H1 : 0 < (K - k) * / q) by (apply Qmult_lt_0_compat; lra).
  assert (H2 : 0 < K * K - k * k).
  { assert (E : K * K - k * k == (K - k) * (K + k)) by ring.
    rewrite E. apply Qmult_lt_0_compat; lra. }
  assert (H3 : 0 < N * ((K - k) * / q + (K * K - k * k))).
  { apply Qmult_lt_0_compat; lra. }
  lra.
Qed.

End NormaliserArithmetic.

(** ** Biquad filter: what a call of [setParameters] changes *)

Section FilterCaching.
Import Num Filter Examples.

Lemma tangent_terms :
  (0 < k500)%Q /\ (k500 < k4000)%Q /\ (k4000 < 1)%Q.
Proof.
  assert (H : Qltb 0 k500 && Qltb k500 k4000 && Qltb k4000 1 = true)
    by (vm_compute; reflexivity).
  apply andb_true_iff in H. destruct H as [H H3].
  apply andb_true_iff in H. destruct H as [H1 H2].
  split; [exact (proj1 (Qltb_lt _ _) H1)|].
  split; [exact (proj1 (Qltb_lt _ _) H2) | exact (proj1 (Qltb_lt _ _) H3)].
Qed.

Lemma M_SQRT1_2_positive : (0 < M_SQRT1_2)%Q.
Proof. reflexivity. Qed.

(** The filter of the examples after its first enabled call: everything
    is computed afresh. *)
Lemma first_lowpass500 :
  let f1 := setParameters filter44100 lowpass500 in
  k (co f1) = k500 /\ k2 (co f1) = (k500 * k500)%Q /\
  n (co f1) = (1 / (1 + k500 / M_SQRT1_2 + k500 * k500))%Q /\
  prevCutoff (co f1) = 500%Q /\ prevSampleRate (co f1) = ofInt 44100 /\
  prevQ (co f1) = M_SQRT1_2 /\ sampleRate f1 = 44100 /\
  a0 (co f1) = (k500 * k500 * n (co f1))%Q.
Proof.
  intros f1.
  assert (Hen : enabled lowpass500 = true) by reflexivity.
  assert (Hchg : ~ (cutoff lowpass500 == prevCutoff (co filter44100))%Q \/
                 ~ (ofInt (sampleRate filter44100) ==
                    prevSampleRate (co filter44100))%Q)
    by (left; discriminate).
  assert (Hq : ~ (q lowpass500 == prevQ (co filter44100))%Q) by discriminate.
  destruct (setParameters_k_recomputed filter44100 lowpass500 Hen Hchg)
    as (Hk & Hk2 & Hpc & Hps).
  destruct (setParameters_n_recomputed filter44100 lowpass500 Hen Hq)
    as (Hn & Hpq).
  destruct (setParameters_frame filter44100 lowpass500 Hen)
    as (_ & Hsr & _).
  pose proof (setParameters_coefficients filter44100 lowpass500 Hen) as Hc.
  fold f1 in Hk, Hk2, Hpc, Hps, Hn, Hpq, Hsr, Hc. clearbody f1.
  change (type lowpass500) with lowpass in Hc.
  cbn [coefficientsFor] in Hc.
  apply (f_equal (fun t => fst (fst (fst (fst t))))) in Hc.
  cbn [fst] in Hc.
  change (k (co f1) = k500) in Hk.
  rewrite Hk in Hk2. rewrite Hk, Hk2 in Hn. rewrite Hk2 in Hc.
  split; [exact Hk|]. split; [exact Hk2|]. split; [exact Hn|].
  split; [exact Hpc|]. split; [exact Hps|]. split; [exact Hpq|].
  split; [exact Hsr|]. exact Hc.
Qed.

Lemma tuple5_eq (x0 x1 x2 x3 x4 y0 y1 y2 y3 y4 : Q) :
  (x0, x1, x2, x3, x4) = (y0, y1, y2, y3, y4) ->
  x0 = y0 /\ x1 = y1 /\ x2 = y2 /\ x3 = y3 /\ x4 = y4.
Proof. intros H. injection H. auto. Qed.

(** C7, as amended.  An enabled call of [setParameters] keeps [k] and
    [k2] when cutoff and sample rate equal the cached values, and keeps
    [n] when Q equals the cached value.  The five coefficients are
    recomputed by every enabled call, from the filter type, [k], [k2], [n]
    and Q: they come out equal to the stored ones when cutoff, Q and sample
    rate equal the cached values and the stored coefficients are those of
    the same filter type, which is the state every enabled call leaves. *)
Theorem Filter_setParameters_caching (f : Filter.t) (p : Parameters) :
  enabled p = true ->
  let f' := setParameters f p in
  let sameCutoffAndRate :=
    ((cutoff p == prevCutoff (co f))%Q /\
     (ofInt (sampleRate f) == prevSampleRate (co f))%Q) in
  let sameQ := (q p == prevQ (co f))%Q in
  (sameCutoffAndRate -> k (co f') = k (co f) /\ k2 (co f') = k2 (co f)) /\
  (sameQ -> n (co f') = n (co f)) /\
  (sameCutoffAndRate -> sameQ -> coefficientsMatch f (type p) ->
     (a0 (co f') == a0 (co f) /\ a1 (co f') == a1 (co f) /\
      a2 (co f') == a2 (co f) /\ b1 (co f') == b1 (co f) /\
      b2 (co f') == b2 (co f))%Q) /\
  coefficientsMatch f' (type p).
Proof.
  intros Hen f' sameCR sameQ.
  pose proof (setParameters_coefficients f p Hen) as Hc.
  pose proof (setParameters_prevQ f p Hen) as HpQ.
  pose proof (setParameters_k_kept f p Hen) as Hkk.
  pose proof (setParameters_n_kept f p Hen) as Hnk.
  fold f' in Hc, HpQ, Hkk, Hnk. clearbody f'.
  split; [|split; [|split]].
  - intros [H1 H2]. destruct (Hkk H1 H2) as (Hk & Hk2 & _).
    split; assumption.
  - intros Hq. now destruct (Hnk Hq).
  - intros [H1 H2] Hq Hm.
    destruct (Hkk H1 H2) as (Hk & Hk2 & _).
    destruct (Hnk Hq) as (Hn & _).
    rewrite Hk, Hk2, Hn in Hc.
    unfold coefficientsMatch in Hm. unfold sameQ in Hq.
    destruct (type p); cbn [coefficientsFor] in Hc, Hm;
      destruct Hm as (M0 & M1 & M2 & M3 & M4);
      apply tuple5_eq in Hc; destruct Hc as (E0 & E1 & E2 & E3 & E4);
      rewrite E0, E1, E2, E3, E4, M0, M1, M2, M3, M4, Hq;
      repeat split; reflexivity.
  - unfold coefficientsMatch.
    destruct (type p); cbn [coefficientsFor] in Hc |- *;
      apply tuple5_eq in Hc; destruct Hc as (E0 & E1 & E2 & E3 & E4);
      rewrite E0, E1, E2, E3, E4, HpQ;
      repeat split; reflexivity.
Qed.

Lemma Filter_setParameters_caching_witness :
  let f := setParameters filter44100 lowpass500 in
  let f' := setParameters f lowpass500 in
  k (co f') = k (co f) /\ k2 (co f') = k2 (co f) /\ n (co f') = n (co f) /\
  (a0 (co f') == a0 (co f) /\ a1 (co f') == a1 (co f) /\
   a2 (co f') == a2 (co f) /\ b1 (co f') == b1 (co f) /\
   b2 (co f') == b2 (co f))%Q.
Proof.
  intros f f'.
  assert (Hen : enabled lowpass500 = true) by reflexivity.
  destruct first_lowpass500 as (_ & _ & _ & Hpc & Hps & Hpq & Hsr & _).
  destruct (Filter_setParameters_caching filter44100 lowpass500 Hen)
    as (_ & _ & _ & Hmatch).
  destruct (Filter_setParameters_caching f lowpass500 Hen)
    as (Hk & Hn & Hco & _).
  fold f in Hpc, Hps, Hpq, Hsr, Hmatch. fold f' in Hk, Hn, Hco.
  clearbody f'. clearbody f.
  assert (HCR : (cutoff lowpass500 == prevCutoff (co f))%Q /\
                (ofInt (sampleRate f) == prevSampleRate (co f))%Q).
  { rewrite Hpc, Hps, Hsr. split; reflexivity. }
  assert (HQ : (q lowpass500 == prevQ (co f))%Q).
  { rewrite Hpq. reflexivity. }
  destruct (Hk HCR) as [Hk1 Hk2].
  split; [exact Hk1|]. split; [exact Hk2|]. split; [exact (Hn HQ)|].
  exact (Hco HCR HQ Hmatch).
Defined.

(** C7 as stated fails: switching the filter type with cutoff, Q and
    sample rate all equal to the cached values keeps [k], [k2] and [n] but
    changes the coefficient [a0]. *)
Lemma Filter_caching_type_change :
  let f1 := setParameters filter44100 lowpass500 in
  let f2 := setParameters f1 highpass500 in
  (cutoff highpass500 == prevCutoff (co f1))%Q /\
  (q highpass500 == prevQ (co f1))%Q /\
  (ofInt (sampleRate f1) == prevSampleRate (co f1))%Q /\
  k (co f2) = k (co f1) /\ k2 (co f2) = k2 (co f1) /\
  n (co f2) = n (co f1) /\
  ~ (a0 (co f2) == a0 (co f1))%Q.
Proof.
  intros f1 f2.
  assert (Hen : enabled highpass500 = true) by reflexivity.
  destruct first_lowpass500 as (Hk & Hk2 & Hn & Hpc & Hps & Hpq & Hsr & Ha0).
  pose proof (setParameters_k_kept f1 highpass500 Hen) as Hkk.
  pose proof (setParameters_n_kept f1 highpass500 Hen) as Hnk.
  pose proof (setParameters_coefficients f1 highpass500 Hen) as Hc.
  fold f1 in Hk, Hk2, Hn, Hpc, Hps, Hpq, Hsr, Ha0.
  fold f2 in Hkk, Hnk, Hc. clearbody f2. clearbody f1.
  assert (HC : (cutoff highpass500 == prevCutoff (co f1))%Q)
    by (rewrite Hpc; reflexivity).
  assert (HR : (ofInt (sampleRate f1) == prevSampleRate (co f1))%Q)
    by (rewrite Hps, Hsr; reflexivity).
  assert (HQ : (q highpass500 == prevQ (co f1))%Q)
    by (rewrite Hpq; reflexivity).
  destruct (Hkk HC HR) as (Ek & Ek2 & _).
  destruct (Hnk HQ) as (En & _).
  change (type highpass500) with highpass in Hc. cbn [coefficientsFor] in Hc.
  apply tuple5_eq in Hc. destruct Hc as (E0 & _).
  split; [exact HC|]. split; [exact HQ|]. split; [exact HR|].
  split; [exact Ek|]. split; [exact Ek2|]. split; [exact En|].
  rewrite E0, En, Ha0.
  destruct tangent_terms as (T1 & T2 & T3).
  pose proof (normaliser_positive k500 M_SQRT1_2 T1 M_SQRT1_2_positive) as HD.
  assert (HN : (0 < n (co f1))%Q).
  { rewrite Hn. unfold Qdiv at 1. rewrite Qmult_1_l.
    now apply Qinv_lt_0_compat. }
  assert (Hkk1 : (k500 * k500 < 1)%Q).
  { assert (H : (0 < (1 - k500) * (1 + k500))%Q)
      by (apply Qmult_lt_0_compat; lra).
    assert (E : ((1 - k500) * (1 + k500) == 1 - k500 * k500)%Q) by ring.
    rewrite E in H. lra. }
  intros E.
  assert (H : (0 < n (co f1) * (1 - k500 * k500))%Q)
    by (apply Qmult_lt_0_compat; lra).
  assert (E' : (n (co f1) * (1 - k500 * k500) ==
                n (co f1) - k500 * k500 * n (co f1))%Q) by ring.
  rewrite E' in H. lra.
Qed.

End FilterCaching.

(** ** Biquad filter: DC gain *)

Section FilterDCGain.
Import Num Filter Examples.

(** At a fixpoint of the recursive update under the constant input [c]
    (both delay registers reproduce themselves), the output [out]
    satisfies [out * (1 + b1 + b2) = c * (a0 + a1 + a2)]. *)
Lemma Filter_fixpoint_output (f f' : Filter.t) (c out : Q) :
  enabled (parameters f) = true ->
  process f (Some c) = Returned (out, f') ->
  (dly1 (co f') == dly1 (co f))%Q -> (dly2 (co f') == dly2 (co f))%Q ->
  (out * (1 + b1 (co f) + b2 (co f)) ==
   c * (a0 (co f) + a1 (co f) + a2 (co f)))%Q.
Proof.
  intros Hen Hp H1 H2. unfold process in Hp. rewrite Hen in Hp.
  cbn [negb orb isNull deref obind] in Hp.
  injection Hp as Hout Hf'. subst f'. cbn [co dly1 dly2] in H1, H2.
  rewrite Hout in H1, H2.
  assert (E : (out == c * a0 (co f) + dly1 (co f))%Q)
    by (rewrite <- Hout; reflexivity).
  lra.
Qed.


(** Lowpass coefficients computed in a call that also recomputes [n]
    have unity DC gain. *)
Lemma Filter_lowpass_unity (f : Filter.t) (p : Parameters) :
  enabled p = true -> type p = lowpass ->
  ~ (q p == prevQ (co f))%Q ->
  let c := co (setParameters f p) in
  (k2 c == k c * k c)%Q -> (0 < k c)%Q -> (0 < q p)%Q ->
  (dcGain (setParameters f p) == 1)%Q.
Proof.
  intros Hen Hty Hq c Hk2 Hk Hqp.
  pose proof (setParameters_coefficients f p Hen) as Hc.
  destruct (setParameters_n_recomputed f p Hen Hq) as (Hn & _).
  unfold dcGain. fold c in Hc, Hn |- *. clearbody c.
  rewrite Hty in Hc. cbn [coefficientsFor] in Hc.
  apply tuple5_eq in Hc. destruct Hc as (E0 & E1 & E2 & E3 & E4).
  pose proof (normaliser_positive (k c) (q p) Hk Hqp) as HD.
  assert (Hq0 : ~ (q p == 0)%Q) by lra.
  assert (HD0 : ~ (1 + k c / q p + k c * k c == 0)%Q) by lra.
  pose proof (lowpass_unity (k c) (q p) Hq0 HD0) as U. cbv zeta in U.
  assert (Hn' : (n c == 1 / (1 + k c / q p + k c * k c))%Q)
    by (rewrite Hn, Hk2; reflexivity).
  assert (Hnpos : (0 < n c)%Q).
  { rewrite Hn'. unfold Qdiv at 1. rewrite Qmult_1_l.
    now apply Qinv_lt_0_compat. }
  assert (Hnum : (a0 c + a1 c + a2 c ==
                  1 + b1 c + b2 c)%Q).
  { rewrite E0, E1, E2, E3, E4, Hk2, Hn'. exact U. }
  assert (Hpos : (0 < a0 c + a1 c + a2 c)%Q).
  { rewrite E0, E1, E2, Hk2.
    assert (H : (0 < k c * k c * n c)%Q).
    { apply Qmult_lt_0_compat; [|exact Hnpos].
      now apply Qmult_lt_0_compat. }
    lra. }
  rewrite Hnum. rewrite Hnum in Hpos. field. lra.
Qed.

(** C5 (source behaviour when the cutoff alone changes).  The filter of
    the examples is set to a 500 Hz lowpass and then to a 4 kHz lowpass
    with the same Q: the second call recomputes [k] but keeps the [n] of
    the first, and the DC gain of the stored coefficients is not 1. *)
Theorem Filter_lowpass_dcGain_stale :
  let f1 := setParameters filter44100 lowpass500 in
  let f2 := setParameters f1 lowpass4000 in
  k (co f2) = k4000 /\ n (co f2) = n (co f1) /\
  n (co f1) = (1 / (1 + k500 / M_SQRT1_2 + k500 * k500))%Q /\
  ~ (dcGain f2 == 1)%Q.
Proof.
  intros f1 f2.
  assert (Hen : enabled lowpass4000 = true) by reflexivity.
  destruct first_lowpass500 as (Hk & Hk2 & Hn & Hpc & Hps & Hpq & Hsr & _).
  pose proof (setParameters_k_recomputed f1 lowpass4000 Hen) as Hkr.
  pose proof (setParameters_n_kept f1 lowpass4000 Hen) as Hnk.
  pose proof (setParameters_coefficients f1 lowpass4000 Hen) as Hc.
  unfold dcGain.
  fold f1 in Hk, Hk2, Hn, Hpc, Hps, Hpq, Hsr.
  fold f2 in Hkr, Hnk, Hc |- *. clearbody f2. clearbody f1.
  assert (Hchg : ~ (cutoff lowpass4000 == prevCutoff (co f1))%Q \/
                 ~ (ofInt (sampleRate f1) == prevSampleRate (co f1))%Q).
  { left. rewrite Hpc. discriminate. }
  assert (HQ : (q lowpass4000 == prevQ (co f1))%Q)
    by (rewrite Hpq; reflexivity).
  destruct (Hkr Hchg) as (Ek & Ek2 & _). destruct (Hnk HQ) as (En & _).
  rewrite Hsr in Ek. change (k (co f2) = k4000) in Ek. rewrite Ek in Ek2.
  change (type lowpass4000) with lowpass in Hc.
  change (q lowpass4000) with M_SQRT1_2 in Hc.
  cbn [coefficientsFor] in Hc.
  apply tuple5_eq in Hc. destruct Hc as (E0 & E1 & E2 & E3 & E4).
  split; [exact Ek|]. split; [exact En|]. split; [exact Hn|].
  rewrite E0, E1, E2, E3, E4, Ek, Ek2, En, Hn.
  destruct tangent_terms as (T1 & T2 & T3).
  exact (stale_gain_ne k500 k4000 M_SQRT1_2 T1 T2 M_SQRT1_2_positive).
Qed.

End FilterDCGain.

(** ** Sample rate of zero *)

Section SampleRateZero.
Import Num RingBufferCalls.

Lemma prepare_sampleRate (rb : RingBuffer.t) (n sr : Z) :
  RingBuffer.sampleRate (RingBuffer.prepare rb n sr) =
  if sr =? 0 then 1 else sr.
Proof.
  unfold RingBuffer.prepare, RingBuffer.clear.
  cbn [RingBuffer.sampleRate].
  destruct (negb (sr =? RingBuffer.sampleRate _)) eqn:E; [reflexivity|].
  apply negb_false_iff, Z.eqb_eq in E. now rewrite <- E.
Qed.

Lemma exec_sampleRate (rb : RingBuffer.t) (c : call) :
  uintArgs c -> 1 <= RingBuffer.sampleRate rb ->
  1 <= RingBuffer.sampleRate (exec rb c).
Proof.
  intros Hu H.
  destruct c; cbn [exec uintArgs] in *;
    try (unfold RingBuffer.prepareSeconds; rewrite prepare_sampleRate;
         destruct (Z.eqb_spec newSampleRate 0); lia).
  - exact H.
  - unfold RingBuffer.setDelayTime. cbn [RingBuffer.sampleRate].
    destruct (negb _); exact H.
  - unfold RingBuffer.getAndPush. destruct input; [|exact H].
    unfold RingBuffer.getFromBufferPtr.
    rewrite (surjective_pairing (RingBuffer.getFromBuffer _ _)).
    cbn [snd]. rewrite getFromBuffer_snd. unfold RingBuffer.stepDelay.
    destruct (SmoothedValue.getNextValue _). exact H.
  - unfold RingBuffer.getFromBufferPtr. destruct sample; [|exact H].
    rewrite (surjective_pairing (RingBuffer.getFromBuffer _ _)).
    cbn [snd]. rewrite getFromBuffer_snd. unfold RingBuffer.stepDelay.
    destruct (SmoothedValue.getNextValue _). exact H.
  - rewrite getFromBuffer_snd. unfold RingBuffer.stepDelay.
    destruct (SmoothedValue.getNextValue _). exact H.
  - destruct input; exact H.
  - exact H.
Qed.

Lemma run_sampleRate (cs : list call) (rb : RingBuffer.t) :
  Forall uintArgs cs -> 1 <= RingBuffer.sampleRate rb ->
  1 <= RingBuffer.sampleRate (run rb cs).
Proof.
  revert rb. induction cs as [|c cs IH]; intros rb Hu H; cbn [run foldl].
  - exact H.
  - inversion Hu as [|? ? Hc Hcs]; subst.
    apply IH; [exact Hcs|]. now apply exec_sampleRate.
Qed.

(** The biquad filter does not force the rate: [Filter::prepare (0)]
    stores the rate 0, and the next [setParameters] reaches the
    cutoff-to-coefficient conversion with the divisor 0 (the condition of
    its [jassert] is false). *)
Lemma Filter_prepare_zero_stores_zero :
  let f := Filter.prepare Filter.init 0 in
  ~ (1 <= Filter.sampleRate f) /\
  Filter.cutoffOrRateChanged f = true /\
  Filter.jassertSampleRate f = false /\
  (ofInt (Filter.sampleRate f) == 0)%Q.
Proof.
  cbv zeta. split; [cbn; lia|]. repeat split; reflexivity.
Qed.

(** Sample rate of zero in the ring buffer, the one component that
    converts a delay time to a sample count: either [prepare] called with
    the sample rate 0 stores the rate 1, and after any further calls of the
    interface the stored rate is at least 1, so that the divisor of the
    delay-time conversion is never zero. *)
Theorem RingBuffer_prepare_forces_sampleRate
    (rb : RingBuffer.t) (n : Z) (secs : Q) :
  RingBuffer.sampleRate (RingBuffer.prepare rb n 0) = 1 /\
  RingBuffer.sampleRate (RingBuffer.prepareSeconds rb secs 0) = 1 /\
  forall cs : list call, Forall uintArgs cs ->
    1 <= RingBuffer.sampleRate (run (RingBuffer.prepare rb n 0) cs) /\
    ~ (ofInt (RingBuffer.sampleRate (run (RingBuffer.prepare rb n 0) cs))
       == 0)%Q.
Proof.
  split; [apply prepare_sampleRate|].
  split; [apply prepare_sampleRate|].
  intros cs Hu.
  assert (H : 1 <= RingBuffer.sampleRate (run (RingBuffer.prepare rb n 0) cs)).
  { apply run_sampleRate; [exact Hu|]. rewrite prepare_sampleRate. cbn. lia. }
  split; [exact H|].
  unfold ofInt, Qeq. cbn [Qnum Qden inject_Z]. lia.
Qed.

Lemma RingBuffer_prepare_forces_sampleRate_witness :
  let cs := [SetDelayTime 0.5 0.1; PushToBuffer (Some 1%Q);
             Prepare 8 0; GetFromBuffer linearInterp] in
  Forall uintArgs cs /\
  RingBuffer.sampleRate (run (RingBuffer.prepare RingBuffer.init 4 0) cs) = 1 /\
  1 <= RingBuffer.sampleRate (run (RingBuffer.prepare RingBuffer.init 4 0) cs).
Proof.
  intros cs.
  assert (Hu : Forall uintArgs cs).
  { repeat constructor; cbn; lia. }
  split; [exact Hu|]. split; [reflexivity|].
  destruct (RingBuffer_prepare_forces_sampleRate RingBuffer.init 4 0.5)
    as (_ & _ & H).
  exact (proj1 (H cs Hu)).
Defined.

End SampleRateZero.

(** ** Ring buffer: one push *)

Section RoundTrip.
Import Num RingBuffer.

Lemma pushToBuffer_spec (rb : RingBuffer.t) (x : Q) :
  bufferOk rb -> 0 <= writeIndex rb < size rb -> size rb < UINT_MOD ->
  let rb' := pushToBuffer rb (Some x) in
  bufferOk rb' /\ size rb' = size rb /\ sampleRate rb' = sampleRate rb /\
  delaySmoothTime rb' = delaySmoothTime rb /\ delayTime rb' = delayTime rb /\
  writeIndex rb' =
    (if writeIndex rb + 1 <? size rb then writeIndex rb + 1 else 0) /\
  HeapBlock.data (buffer rb') =
    <[Z.to_nat (writeIndex rb) := x]> (HeapBlock.data (buffer rb)).
Proof.
  intros [Hb1 Hb2] Hw Hs rb'. subst rb'.
  unfold pushToBuffer, incrementWritePointer, HeapBlock.set.
  cbn [buffer size writeIndex sampleRate delaySmoothTime delayTime].
  rewrite Hb1. destruct (Z.leb_spec (size rb) (writeIndex rb)); [lia|].
  rewrite (wrap_small (writeIndex rb + 1)) by lia.
  split; [|split; [reflexivity|split; [reflexivity|split; [reflexivity|
           split; [reflexivity|split]]]]].
  - unfold bufferOk. cbn [buffer size HeapBlock.size HeapBlock.data].
    rewrite length_insert. split; [reflexivity | exact Hb2].
  - destruct (Z.leb_spec (size rb) (writeIndex rb + 1));
      destruct (Z.ltb_spec (writeIndex rb + 1) (size rb)); try lia.
    replace (writeIndex rb + 1 - size rb) with 0 by lia. reflexivity.
  - reflexivity.
Qed.


Lemma toUint_integer (x : Q) (z : Z) :
  (x == inject_Z z)%Q -> 0 <= z < UINT_MOD -> toUint x = z.
Proof.
  intros Hx Hz. unfold toUint. rewrite (Qtrunc_integer x z Hx).
  now apply wrap_small.
Qed.

End RoundTrip.

(** ** Ring buffer: the read with linear interpolation *)

Section LinearRead.
Import Num RingBuffer.

(** The index before 0 wraps to the largest [uint], which [operator[]]
    sends to the cell one past the allocation. *)
Lemma HeapBlock_get_before_zero (b : HeapBlock.t) :
  0 <= HeapBlock.size b < UINT_MOD ->
  Z.of_nat (length (HeapBlock.data b)) = HeapBlock.size b ->
  HeapBlock.cell b (wrap (0 - 1)) = HeapBlock.size b /\
  HeapBlock.get b (wrap (0 - 1)) = HeapBlock.past b.
Proof.
  intros Hs Hl. unfold HeapBlock.get, HeapBlock.cell.
  change (wrap (0 - 1)) with (UINT_MOD - 1).
  destruct (Z.leb_spec (HeapBlock.size b) (UINT_MOD - 1)); [|lia].
  split; [reflexivity|].
  rewrite lookup_ge_None_2 by lia. reflexivity.
Qed.

(** A read index above 0 has its neighbour inside the allocation. *)
Lemma HeapBlock_get_before (b : HeapBlock.t) (readIndex : Z) :
  0 < readIndex < HeapBlock.size b -> HeapBlock.size b <= UINT_MOD ->
  HeapBlock.cell b (wrap (readIndex - 1)) = readIndex - 1.
Proof.
  intros Hr Hs. unfold HeapBlock.cell.
  rewrite wrap_small by lia.
  destruct (Z.leb_spec (HeapBlock.size b) (readIndex - 1)); [lia|reflexivity].
Qed.

(** C6 (source behaviour at read index 0).  A buffer of capacity 4 at
    rate 2 receives five samples (contents [5; 2; 3; 4], write index 1) and
    the delay time 0.75 s, an offset of 1.5 samples: the read index is 0,
    the neighbour [buffer[readIndex - 1]] resolves to cell 4, one past the
    allocation, and the result blends [buffer[0] = 5] with the content [p]
    of that cell, whatever it is; the element at index capacity - 1 = 3
    plays no part. *)
Theorem RingBuffer_linear_read_at_index_zero (p : Q) :
  let rb := pushAll (prepare (Examples.constructedWithPast p) 4 2)
                    [1; 2; 3; 4; 5]%Q in
  let rb' := setDelayTime rb 0.75 0 in
  let readOffset := (ofInt (sampleRate rb') * 0.75)%Q in
  let readIndex := getReadIndex rb' (toUint readOffset) in
  HeapBlock.data (buffer rb') = [5; 2; 3; 4]%Q /\
  HeapBlock.past (buffer rb') = p /\
  writeIndex rb' = 1 /\ size rb' = 4 /\
  (Math.mod1 readOffset == 0.5)%Q /\ readIndex = 0 /\
  HeapBlock.cell (buffer rb') (wrap (readIndex - 1)) = 4 /\
  (fst (getFromBufferLinearInterp rb') == 5 + 0.5 * (p - 5))%Q.
Proof.
  cbv zeta.
  assert (E : fst (getFromBufferLinearInterp
                (setDelayTime
                   (pushAll (prepare (Examples.constructedWithPast p) 4 2)
                            [1; 2; 3; 4; 5]%Q) 0.75 0))
              = Math.LinearInterp 5 p (Math.mod1 (ofInt 2 * 0.75)))
    by (vm_compute; reflexivity).
  repeat split; try (vm_compute; reflexivity).
  rewrite E. vm_compute Math.mod1. unfold Math.LinearInterp.
  change (Qleb 0.50 0) with false. change (Qleb 1 0.50) with false.
  cbv iota. ring.
Qed.

End LinearRead.

(** ** Reverb: bypass at mix 0 *)

Section ReverbBypass.
Import Num Reverb Examples.

Lemma setTargetValue_target (s : SmoothedValue.t) (v : Q) :
  (SmoothedValue.target (SmoothedValue.setTargetValue s v) == v)%Q.
Proof.
  unfold SmoothedValue.setTargetValue.
  destruct (Qeqb v (SmoothedValue.target s)) eqn:E.
  - apply Qeqb_eq in E. now symmetry.
  - destruct (SmoothedValue.stepsToTarget s <=? 0); reflexivity.
Qed.

Lemma getNextValue_settled (s : SmoothedValue.t) :
  SmoothedValue.isSmoothing s = false ->
  SmoothedValue.getNextValue s = (SmoothedValue.target s, s).
Proof. intros H. unfold SmoothedValue.getNextValue. now rewrite H. Qed.

(** [setMixValues] at a mix of 0: all dry, no wet. *)
Lemma setMixValues_zero (p : Parameters) :
  (mix p == 0)%Q ->
  (fst (setMixValues p) == 1)%Q /\ (snd (setMixValues p) == 0)%Q.
Proof.
  intros Hm. unfold setMixValues. cbn [fst snd].
  assert (Hc : Math.clamp (mix p) 0 1 = mix p)
    by (apply clamp_inside; lra).
  rewrite Hc. split; [lra|].
  unfold Math.expRounder, Math.ExpRounder.
  assert (Hc' : Math.clamp (mix p) (-1) 1 = mix p)
    by (apply clamp_inside; lra).
  rewrite Hc'.
  assert (E1 : Qltb 0 (mix p) = false) by (apply Qltb_ge; lra).
  assert (E2 : Qleb (-1) (mix p) = true) by (apply Qleb_le; lra).
  assert (E3 : Qleb (mix p) 0 = true) by (apply Qleb_le; lra).
  rewrite E1, E2, E3. cbn [andb].
  set (c := if Qleb 0 (Math.clamp 0.8 (-1) 1) then _ else _). clearbody c.
  unfold Qdiv. rewrite Hm. ring.
Qed.

(** What the claim describes, where the source provides it: a call of
    [setParameters] that changes the mix to 0 targets dry = 1 and
    wet1 = wet2 = 0. *)
Lemma Reverb_mix_changed_to_zero (rv : Reverb.t) (p : Parameters) :
  ~ (mix p == mix (parameters rv))%Q -> (mix p == 0)%Q ->
  let rv' := setParameters rv p in
  (SmoothedValue.target (drySmooth rv') == 1)%Q /\
  (SmoothedValue.target (wet1 rv') == 0)%Q /\
  (SmoothedValue.target (wet2 rv') == 0)%Q.
Proof.
  intros Hne Hm rv'. subst rv'. unfold setParameters.
  apply Qeqb_neq in Hne. rewrite Hne. cbn [negb].
  destruct (setMixValues_zero p Hm) as [Hd Hw].
  destruct (setMixValues p) as [dry' wet']. cbn [fst snd] in Hd, Hw.
  assert (T : forall (r : Reverb.t) (b : bool), drySmooth (if b then setCombs r else r) = drySmooth r
                       /\ wet1 (if b then setCombs r else r) = wet1 r
                       /\ wet2 (if b then setCombs r else r) = wet2 r).
  { intros r b. destruct b; repeat split; reflexivity. }
  destruct (negb (Qeqb (damping p) (damping (parameters rv)))
            || negb (Qeqb (size p) (size (parameters rv))));
    cbn [drySmooth wet1 wet2];
    match goal with
    | |- context [if ?b then setCombs ?r else ?r] =>
        destruct (T r b) as (-> & -> & ->)
    end;
    cbn [drySmooth wet1 wet2];
    rewrite !setTargetValue_target, Hd, Hw;
    repeat split; try reflexivity; ring.
Qed.

(** Once the three gains have settled at dry = 1 and wet1 = wet2 = 0,
    [process] returns both samples as they came. *)
Lemma Reverb_process_settled (rv : Reverb.t) (l r : Q) :
  SmoothedValue.isSmoothing (drySmooth rv) = false ->
  SmoothedValue.isSmoothing (wet1 rv) = false ->
  SmoothedValue.isSmoothing (wet2 rv) = false ->
  (SmoothedValue.target (drySmooth rv) == 1)%Q ->
  (SmoothedValue.target (wet1 rv) == 0)%Q ->
  (SmoothedValue.target (wet2 rv) == 0)%Q ->
  (fst (fst (processSamples rv l r)) == l)%Q /\
  (snd (fst (processSamples rv l r)) == r)%Q.
Proof.
  intros S0 S1 S2 T0 T1 T2. unfold processSamples.
  destruct (SmoothedValue.getNextValue (dampingSmooth rv)) as [damp ds].
  destruct (SmoothedValue.getNextValue (feedbackSmooth rv)) as [feed fs].
  destruct (earlyLoop _ _ _ _ _ _ _ _) as [[eL eR] early'].
  destruct (lateLoop _ _ _ _ _) as [[outL outR] late'].
  rewrite (getNextValue_settled _ S0), (getNextValue_settled _ S1),
    (getNextValue_settled _ S2).
  cbn [fst snd]. rewrite T0, T1, T2. split; ring.
Qed.

(** C1 (source behaviour on a reverb that was just constructed).  The
    constructed reverb already has [parameters.mix = 0] with [dry = 0], so
    [setParameters] with a mix of 0 finds the mix unchanged, skips
    [setMixValues] and targets dry = 0: no gain is ramping, and [process]
    turns any two samples [(l, r)] into [(0, 0)]. *)
Theorem Reverb_constructed_mix_zero_mutes (l r : Q) :
  let rv := setParameters Reverb.init reverbMixZero in
  (mix (parameters rv) == 0)%Q /\
  SmoothedValue.isSmoothing (drySmooth rv) = false /\
  SmoothedValue.isSmoothing (wet1 rv) = false /\
  SmoothedValue.isSmoothing (wet2 rv) = false /\
  (SmoothedValue.target (drySmooth rv) == 0)%Q /\
  (fst (fst (processSamples rv l r)) == 0)%Q /\
  (snd (fst (processSamples rv l r)) == 0)%Q.
Proof.
  cbv zeta.
  set (rv := setParameters Reverb.init reverbMixZero).
  assert (S0 : SmoothedValue.getNextValue (drySmooth rv) = (0%Q, drySmooth rv))
    by (vm_compute; reflexivity).
  assert (S1 : SmoothedValue.getNextValue (wet1 rv) = (0%Q, wet1 rv))
    by (vm_compute; reflexivity).
  assert (S2 : SmoothedValue.getNextValue (wet2 rv) = (0%Q, wet2 rv))
    by (vm_compute; reflexivity).
  repeat split; try (vm_compute; reflexivity);
    unfold processSamples;
    destruct (SmoothedValue.getNextValue (dampingSmooth rv)) as [damp ds];
    destruct (SmoothedValue.getNextValue (feedbackSmooth rv)) as [feed fs];
    destruct (earlyLoop _ _ _ _ _ _ _ _) as [[eL eR] early'];
    destruct (lateLoop _ _ _ _ _) as [[outL outR] late'];
    rewrite S0, S1, S2; cbn [fst snd]; ring.
Qed.

End ReverbBypass.

(** * Further properties of the components *)

(** ** [pa::math]: clamping, mapping, fractional part, interpolation *)

Section MathsFacts.
Import Num.
Local Open Scope Q_scope.

(** [clamp] with ordered bounds lands inside them, leaves a value that is
    already inside untouched, and clamping twice changes nothing more. *)
Theorem clamp_contract (v lo hi : Q) :
  lo <= hi ->
  lo <= Math.clamp v lo hi <= hi /\
  (lo <= v <= hi -> Math.clamp v lo hi = v) /\
  Math.clamp (Math.clamp v lo hi) lo hi = Math.clamp v lo hi.
Proof.
  intros Hlh.
  pose proof (setClamp_bounds v lo hi Hlh) as Hb.
  change (Math.setClamp v lo hi) with (Math.clamp v lo hi) in Hb.
  split; [exact Hb|]. split.
  - intros [H1 H2]. now apply clamp_inside.
  - apply clamp_inside; apply Hb.
Qed.

Lemma clamp_contract_witness :
  0 <= Math.clamp 7 0 1 <= 1 /\ Math.clamp 7 0 1 = 1 /\
  Math.clamp (1 # 2) 0 1 = 1 # 2.
Proof.
  destruct (clamp_contract 7 0 1 ltac:(discriminate)) as (H & _ & _).
  destruct (clamp_contract (1 # 2) 0 1 ltac:(discriminate)) as (_ & H' & _).
  split; [exact H|]. split; [reflexivity|].
  apply H'. split; discriminate.
Defined.

Lemma map_unit (v lo hi : Q) : Math.map v 0 1 lo hi == lo + v * (hi - lo).
Proof. unfold Math.map. field. Qed.

(** [map] sends the ends of a non-degenerate input range to the ends of
    the output range, and a value inside the input range [0, 1] to a value
    between the two output ends, whichever of them is the larger. *)
Theorem map_endpoints_and_range (v inMin inMax outMin outMax : Q) :
  ~ inMin == inMax ->
  Math.map inMin inMin inMax outMin outMax == outMin /\
  Math.map inMax inMin inMax outMin outMax == outMax /\
  (0 <= v <= 1 ->
   (outMin <= outMax ->
    outMin <= Math.map v 0 1 outMin outMax <= outMax) /\
   (outMax <= outMin ->
    outMax <= Math.map v 0 1 outMin outMax <= outMin)).
Proof.
  intros Hne.
  assert (Hd : ~ inMax - inMin == 0) by (intros E; apply Hne; lra).
  split; [unfold Math.map; field; exact Hd|].
  split; [unfold Math.map; field; exact Hd|].
  intros [H0 H1]. rewrite map_unit. split; intros Ho.
  - assert (H : 0 <= v * (outMax - outMin))
      by (apply Qmult_le_0_compat; lra).
    assert (H' : 0 <= (1 - v) * (outMax - outMin))
      by (apply Qmult_le_0_compat; lra).
    assert (E : (1 - v) * (outMax - outMin) ==
                (outMax - outMin) - v * (outMax - outMin)) by ring.
    rewrite E in H'. split; lra.
  - assert (H : 0 <= v * (outMin - outMax))
      by (apply Qmult_le_0_compat; lra).
    assert (H' : 0 <= (1 - v) * (outMin - outMax))
      by (apply Qmult_le_0_compat; lra).
    assert (E : (1 - v) * (outMin - outMax) ==
                (outMin - outMax) - v * (outMin - outMax)) by ring.
    assert (E2 : v * (outMax - outMin) == - (v * (outMin - outMax))) by ring.
    rewrite E in H'. rewrite E2. split; lra.
Qed.

Lemma map_endpoints_and_range_witness :
  Math.map 0 0 1 20000 4000 == 20000 /\ Math.map 1 0 1 20000 4000 == 4000 /\
  4000 <= Math.map (1 # 4) 0 1 20000 4000 <= 20000.
Proof.
  destruct (map_endpoints_and_range (1 # 4) 0 1 20000 4000
              ltac:(discriminate)) as (H0 & H1 & H).
  split; [exact H0|]. split; [exact H1|].
  apply H; [split|]; discriminate.
Defined.

Lemma mod1_rem (x : Q) :
  Math.mod1 x == Z.rem (Qnum x) (Z.pos (Qden x)) # Qden x.
Proof.
  unfold Math.mod1, Qtrunc, ofInt. destruct x as [n d]. cbn [Qnum Qden].
  pose proof (Z.quot_rem' n (Z.pos d)) as E.
  unfold Qeq, Qminus, Qplus, Qopp, inject_Z. cbn [Qnum Qden].
  rewrite Pos.mul_1_r. nia.
Qed.

(** [mod1] keeps the sign of its argument (the question the source leaves
    open): for an argument whose conversion to [int] is defined, the result
    lies strictly between -1 and 1, is not negative for an argument that is
    not negative, and not positive for an argument that is not positive. *)
Theorem mod1_sign_and_size (x : Q) :
  intConvertible x ->
  -1 < Math.mod1 x < 1 /\
  (0 <= x -> 0 <= Math.mod1 x) /\
  (x <= 0 -> Math.mod1 x <= 0).
Proof.
  intros _.
  rewrite mod1_rem. destruct x as [n d]. cbn [Qnum Qden].
  unfold Qlt, Qle. cbn [Qnum Qden]. rewrite !Z.mul_1_r.
  pose proof (Z.rem_bound_abs n (Z.pos d) ltac:(lia)) as Hb.
  split; [|split].
  - simpl Z.mul. lia.
  - intros Hn. simpl in Hn. pose proof (Z.rem_nonneg n (Z.pos d)). lia.
  - intros Hn. simpl in Hn. pose proof (Z.rem_nonpos n (Z.pos d)). lia.
Qed.

Lemma mod1_sign_and_size_witness :
  intConvertible (-1.25) /\ intConvertible 2.75 /\
  Math.mod1 (-1.25) == -0.25 /\ Math.mod1 (-1.25) <= 0 /\
  0 <= Math.mod1 2.75.
Proof.
  assert (H1 : intConvertible (-1.25))
    by (split; [apply Z.leb_le | apply Z.ltb_lt]; reflexivity).
  assert (H2 : intConvertible 2.75)
    by (split; [apply Z.leb_le | apply Z.ltb_lt]; reflexivity).
  destruct (mod1_sign_and_size (-1.25) H1) as (_ & _ & Hn).
  destruct (mod1_sign_and_size 2.75 H2) as (_ & Hp & _).
  split; [exact H1|]. split; [exact H2|].
  split; [reflexivity|]. split; [apply Hn | apply Hp]; discriminate.
Defined.

End MathsFacts.

Section InterpolationFacts.
Import Num.
Local Open Scope Q_scope.

Lemma Qleb_gt (a b : Q) : Qleb a b = false <-> b < a.
Proof.
  unfold Qleb. split.
  - intros H. apply Qnot_le_lt. intros Hle.
    apply Qle_bool_iff in Hle. congruence.
  - intros H. destruct (Qle_bool a b) eqn:E; [|reflexivity].
    apply Qle_bool_iff in E. exfalso. eapply Qlt_not_le; eauto.
Qed.

(** [LinearInterp] never leaves the interval spanned by its two samples,
    whatever [t] is, and at [t = 1/2] it is their mean. *)
Theorem LinearInterp_between (a b t : Q) :
  (a <= b -> a <= Math.LinearInterp a b t <= b) /\
  (b <= a -> b <= Math.LinearInterp a b t <= a) /\
  Math.LinearInterp a b (1 # 2) == (a + b) / 2.
Proof.
  assert (Hmid : Math.LinearInterp a b (1 # 2) == (a + b) / 2).
  { unfold Math.LinearInterp. change (Qleb (1 # 2) 0) with false.
    change (Qleb 1 (1 # 2)) with false. cbv iota. field. }
  unfold Math.LinearInterp.
  destruct (Qleb t 0) eqn:E0.
  { repeat split; try lra; exact Hmid. }
  destruct (Qleb 1 t) eqn:E1.
  { repeat split; try lra; exact Hmid. }
  apply Qleb_gt in E0. apply Qleb_gt in E1.
  split; [|split; [|exact Hmid]]; intros Hab.
  - assert (H : 0 <= t * (b - a)) by (apply Qmult_le_0_compat; lra).
    assert (H' : 0 <= (1 - t) * (b - a)) by (apply Qmult_le_0_compat; lra).
    assert (E : (1 - t) * (b - a) == (b - a) - t * (b - a)) by ring.
    rewrite E in H'. split; lra.
  - assert (H : 0 <= t * (a - b)) by (apply Qmult_le_0_compat; lra).
    assert (H' : 0 <= (1 - t) * (a - b)) by (apply Qmult_le_0_compat; lra).
    assert (E : (1 - t) * (a - b) == (a - b) - t * (a - b)) by ring.
    assert (E2 : t * (b - a) == - (t * (a - b))) by ring.
    rewrite E in H'. rewrite E2. split; lra.
Qed.

Lemma LinearInterp_between_witness :
  2 <= Math.LinearInterp 2 6 (3 # 4) <= 6 /\
  2 <= Math.LinearInterp 6 2 (3 # 4) <= 6.
Proof.
  destruct (LinearInterp_between 2 6 (3 # 4)) as (H1 & _ & _).
  destruct (LinearInterp_between 6 2 (3 # 4)) as (_ & H2 & _).
  split; [apply H1 | apply H2]; discriminate.
Defined.

(** On four samples in arithmetic progression the Catmull-Rom variant of
    [CubicInterp] is the straight line through the two middle samples, for
    every [t], the clamped ends included. *)
Theorem CubicInterp_catmull_rom_linear (a h t : Q) :
  Math.CubicInterp a (a + h) (a + 2 * h) (a + 3 * h) t true ==
  Math.LinearInterp (a + h) (a + 2 * h) t.
Proof.
  unfold Math.CubicInterp, Math.LinearInterp.
  destruct (Qleb t 0); [reflexivity|].
  destruct (Qleb 1 t); [reflexivity|].
  cbv beta iota zeta. ring.
Qed.

End InterpolationFacts.

(** ** [pa::math]: the exponential response curve *)

Section ExpRounderFacts.
Import Num.
Local Open Scope Q_scope.

Lemma curveFactor_range (cv : Q) : -0.95 <= curveFactor cv <= 20.
Proof.
  unfold curveFactor.
  pose proof (setClamp_bounds cv (-1) 1 ltac:(discriminate)) as Hb.
  change (Math.setClamp cv (-1) 1) with (Math.clamp cv (-1) 1) in Hb.
  set (c0 := Math.clamp cv (-1) 1) in *. clearbody c0. cbv zeta.
  destruct (Qleb 0 c0) eqn:E.
  - apply Qleb_le in E. rewrite map_unit. split; lra.
  - apply Qleb_gt in E.
    assert (Em : Math.map c0 (-1) 0 (-0.95) 0 == 0.95 * c0)
      by (unfold Math.map; field).
    rewrite Em. split; lra.
Qed.

Lemma ExpRounder_unfold (x cv : Q) :
  Math.ExpRounder x cv =
  let x' := Math.clamp x (-1) 1 in
  let c := curveFactor cv in
  if Qltb 0 x' && Qleb x' 1 then (x' * (1 + c)) / (c * x' + 1)
  else if Qleb (-1) x' && Qleb x' 0 then (- x' * (1 + c)) / (c * x' - 1)
  else 0.
Proof. reflexivity. Qed.

Lemma curve_denominator (c x : Q) :
  -0.95 <= c -> 0 <= x <= 1 -> 0 < c * x + 1.
Proof.
  intros Hc [H0 H1]. destruct (Qlt_le_dec c 0) as [Hn|Hp].
  - assert (H : 0 <= (- c) * (1 - x)) by (apply Qmult_le_0_compat; lra).
    assert (E : (- c) * (1 - x) == c * x - c) by ring.
    rewrite E in H. lra.
  - assert (H : 0 <= c * x) by (apply Qmult_le_0_compat; lra). lra.
Qed.

Lemma ExpRounder_positive_branch (x cv : Q) :
  0 < x -> x <= 1 ->
  Math.ExpRounder x cv ==
  (x * (1 + curveFactor cv)) / (curveFactor cv * x + 1).
Proof.
  intros H0 H1. rewrite ExpRounder_unfold. cbv zeta.
  rewrite (clamp_inside x (-1) 1) by lra.
  apply Qltb_lt in H0. apply Qleb_le in H1. rewrite H0, H1. reflexivity.
Qed.

Lemma ExpRounder_negative_branch (x cv : Q) :
  -1 <= x -> x <= 0 ->
  Math.ExpRounder x cv ==
  (- x * (1 + curveFactor cv)) / (curveFactor cv * x - 1).
Proof.
  intros H0 H1. rewrite ExpRounder_unfold. cbv zeta.
  rewrite (clamp_inside x (-1) 1) by lra.
  assert (E : Qltb 0 x = false) by (apply Qltb_ge; exact H1).
  apply Qleb_le in H0. apply Qleb_le in H1. rewrite E, H0, H1. reflexivity.
Qed.

Lemma ExpRounder_zero_eq (x cv : Q) : x == 0 -> Math.ExpRounder x cv == 0.
Proof.
  intros Hx. rewrite ExpRounder_negative_branch by lra.
  unfold Qdiv. rewrite Hx. ring.
Qed.

Lemma ExpRounder_unit (x cv : Q) :
  0 <= x <= 1 -> 0 <= Math.ExpRounder x cv <= 1.
Proof.
  intros [H0 H1]. destruct (Qeq_dec x 0) as [Hz|Hnz].
  - rewrite (ExpRounder_zero_eq x cv Hz). split; discriminate.
  - assert (Hpos : 0 < x) by (apply Qle_lteq in H0; destruct H0 as [H|H];
                              [exact H | exfalso; apply Hnz; symmetry; exact H]).
    rewrite ExpRounder_positive_branch by assumption.
    pose proof (curveFactor_range cv) as [Hc1 Hc2].
    set (c := curveFactor cv) in *. clearbody c.
    pose proof (curve_denominator c x Hc1 (conj H0 H1)) as Hd.
    assert (Hn : 0 <= x * (1 + c)) by (apply Qmult_le_0_compat; lra).
    split.
    + apply Qle_shift_div_l; [exact Hd|]. lra.
    + apply Qle_shift_div_r; [exact Hd|].
      assert (E : x * (1 + c) == c * x + x) by ring. rewrite E. lra.
Qed.

(** [ExpRounder] maps [0, 1] into [0, 1] for every curve value, keeps both
    ends fixed, and treats an input above 1 like 1. *)
Theorem ExpRounder_contract (x cv : Q) :
  (0 <= x <= 1 -> 0 <= Math.ExpRounder x cv <= 1) /\
  Math.ExpRounder 0 cv == 0 /\
  Math.ExpRounder 1 cv == 1 /\
  (1 <= x -> Math.ExpRounder x cv == 1).
Proof.
  assert (Hone : Math.ExpRounder 1 cv == 1).
  { rewrite ExpRounder_positive_branch by (try reflexivity; discriminate).
    pose proof (curveFactor_range cv) as [Hc1 Hc2].
    set (c := curveFactor cv) in *. clearbody c. field. lra. }
  split; [apply ExpRounder_unit|].
  split; [apply ExpRounder_zero_eq; reflexivity|].
  split; [exact Hone|].
  intros Hx. rewrite <- Hone. rewrite !ExpRounder_unfold. cbv zeta.
  assert (E : Math.clamp x (-1) 1 == 1).
  { unfold Math.clamp. destruct (Qltb x (-1)) eqn:E1.
    - apply Qltb_lt in E1. lra.
    - destruct (Qltb 1 x) eqn:E2; [reflexivity|].
      apply Qltb_ge in E2. lra. }
  assert (E1 : Math.clamp 1 (-1) 1 = 1) by reflexivity.
  rewrite E1.
  assert (Hp : Qltb 0 (Math.clamp x (-1) 1) = true)
    by (apply Qltb_lt; rewrite E; reflexivity).
  assert (Hl : Qleb (Math.clamp x (-1) 1) 1 = true)
    by (apply Qleb_le; rewrite E; discriminate).
  rewrite Hp, Hl. change (Qltb 0 1 && Qleb 1 1) with true. cbv iota.
  cbn [andb]. rewrite E. reflexivity.
Qed.

Lemma ExpRounder_contract_witness :
  0 <= Math.ExpRounder (7 # 10) 0.3 <= 1 /\ Math.ExpRounder 5 (-0.6) == 1.
Proof.
  destruct (ExpRounder_contract (7 # 10) 0.3) as (H & _).
  destruct (ExpRounder_contract 5 (-0.6)) as (_ & _ & _ & H').
  split; [apply H; split | apply H']; discriminate.
Defined.

(** [ExpRounder] mirrors the sign of its input: on [-1, 1] it is an odd
    function of the input, for every curve value. *)
Theorem ExpRounder_odd (x cv : Q) :
  -1 <= x <= 1 -> Math.ExpRounder (- x) cv == - Math.ExpRounder x cv.
Proof.
  intros [H0 H1].
  pose proof (curveFactor_range cv) as [Hc1 Hc2].
  destruct (Qlt_le_dec 0 x) as [Hp|Hn].
  - rewrite (ExpRounder_positive_branch x cv) by assumption.
    rewrite (ExpRounder_negative_branch (- x) cv) by lra.
    pose proof (curve_denominator (curveFactor cv) x Hc1 ltac:(split; lra)) as Hd.
    set (c := curveFactor cv) in *. clearbody c. field. split; lra.
  - destruct (Qeq_dec x 0) as [Hz|Hnz].
    + rewrite (ExpRounder_zero_eq x cv Hz).
      rewrite (ExpRounder_zero_eq (- x) cv) by lra. reflexivity.
    + assert (Hneg : x < 0).
      { apply Qle_lteq in Hn. destruct Hn as [H|H]; [exact H|contradiction]. }
      rewrite (ExpRounder_negative_branch x cv) by lra.
      rewrite (ExpRounder_positive_branch (- x) cv) by lra.
      pose proof (curve_denominator (curveFactor cv) (- x) Hc1
                    ltac:(split; lra)) as Hd.
      set (c := curveFactor cv) in *. clearbody c. field. split; lra.
Qed.

Lemma ExpRounder_odd_witness :
  Math.ExpRounder (- (1 # 2)) 0.3 == - Math.ExpRounder (1 # 2) 0.3.
Proof. apply (ExpRounder_odd (1 # 2) 0.3). split; discriminate. Defined.

End ExpRounderFacts.

(** ** Signal chain: what the macro controls are mapped to *)

Section MacroMapping.
Import Num RiserProcessor.
Local Open Scope Q_scope.

Lemma mapValue_up (v lo hi : Q) :
  0 <= v <= 1 -> lo <= hi -> lo <= mapValue v lo hi <= hi.
Proof.
  intros [H0 H1] Hlh. unfold mapValue. rewrite map_unit.
  assert (H : 0 <= v * (hi - lo)) by (apply Qmult_le_0_compat; lra).
  assert (H' : 0 <= (1 - v) * (hi - lo)) by (apply Qmult_le_0_compat; lra).
  assert (E : (1 - v) * (hi - lo) == (hi - lo) - v * (hi - lo)) by ring.
  rewrite E in H'. split; lra.
Qed.

Lemma mapValue_down (v lo hi : Q) :
  0 <= v <= 1 -> hi <= lo -> hi <= mapValue v lo hi <= lo.
Proof.
  intros [H0 H1] Hlh. unfold mapValue. rewrite map_unit.
  assert (H : 0 <= v * (lo - hi)) by (apply Qmult_le_0_compat; lra).
  assert (H' : 0 <= (1 - v) * (lo - hi)) by (apply Qmult_le_0_compat; lra).
  assert (E : (1 - v) * (lo - hi) == (lo - hi) - v * (lo - hi)) by ring.
  assert (E2 : v * (hi - lo) == - (v * (lo - hi))) by ring.
  rewrite E in H'. rewrite E2. split; lra.
Qed.

Lemma mapValue_at_zero (v lo hi : Q) : v == 0 -> mapValue v lo hi == lo.
Proof. intros Hv. unfold mapValue. rewrite map_unit, Hv. ring. Qed.

Lemma amount_range (a m : Q) :
  0 <= Math.clamp a 0 1 * Math.clamp m 0 1 <= 1.
Proof.
  pose proof (setClamp_bounds a 0 1 ltac:(discriminate)) as Ha.
  pose proof (setClamp_bounds m 0 1 ltac:(discriminate)) as Hm.
  change (Math.setClamp a 0 1) with (Math.clamp a 0 1) in Ha.
  change (Math.setClamp m 0 1) with (Math.clamp m 0 1) in Hm.
  set (x := Math.clamp a 0 1) in *. set (y := Math.clamp m 0 1) in *.
  clearbody x y.
  assert (H : 0 <= x * y) by (apply Qmult_le_0_compat; lra).
  assert (H' : 0 <= x * (1 - y)) by (apply Qmult_le_0_compat; lra).
  assert (E : x * (1 - y) == x - x * y) by ring.
  rewrite E in H'. split; lra.
Qed.

Lemma amount_at_zero (a m : Q) :
  m <= 0 -> Math.clamp a 0 1 * Math.clamp m 0 1 == 0.
Proof.
  intros Hm.
  assert (E : Math.clamp m 0 1 == 0).
  { unfold Math.clamp. destruct (Qltb m 0) eqn:E1; [reflexivity|].
    apply Qltb_ge in E1. destruct (Qltb 1 m) eqn:E2.
    - apply Qltb_lt in E2. lra.
    - lra. }
  rewrite E. ring.
Qed.

Lemma expRounder_unit (x cv : Q) :
  0 <= x <= 1 -> 0 <= Math.expRounder x cv <= 1.
Proof. apply ExpRounder_unit. Qed.

Lemma Filter_setParameters_stores (f : Filter.t) (p : Filter.Parameters) :
  Filter.parameters (Filter.setParameters f p) = p.
Proof.
  destruct (Filter.enabled p) eqn:E.
  - now destruct (setParameters_frame f p E).
  - unfold Filter.setParameters. rewrite E. reflexivity.
Qed.

Lemma Reverb_setParameters_stores (rv : Reverb.t) (p : Reverb.Parameters) :
  Reverb.parameters (Reverb.setParameters rv p) = p.
Proof.
  unfold Reverb.setParameters.
  destruct (negb (Qeqb (Reverb.mix p) (Reverb.mix (Reverb.parameters rv))));
    destruct (Reverb.setMixValues p);
    destruct (negb (Qeqb (Reverb.spread p) (Reverb.spread (Reverb.parameters rv))));
    destruct (negb (Qeqb (Reverb.damping p) (Reverb.damping (Reverb.parameters rv)))
              || negb (Qeqb (Reverb.size p) (Reverb.size (Reverb.parameters rv))));
    reflexivity.
Qed.

(** For every four values handed to [setParameters], inside [0, 1] or not,
    the stored amounts lie in [0, 1] and every derived parameter lies in the
    native range of its processor; the filters and the reverb hold exactly
    the derived parameter sets. *)
Theorem RiserProcessor_setParameters_ranges
    (s : RiserProcessor.t) (d f r m : Q) :
  let s' := setParameters s d f r m in
  (0 <= masterAmount s' <= 1 /\ 0 <= reverbAmount s' <= 1 /\
   0 <= filterAmount s' <= 1 /\ 0 <= flangerAmount s' <= 1) /\
  (20 <= CombFilter.freq (flangerParams s') <= 280 /\
   0 <= CombFilter.wet (flangerParams s') <= 0.75 /\
   0 <= CombFilter.feedback (flangerParams s') <= 0.55) /\
  (4000 <= Filter.cutoff (lowpassParams s') <= 20000 /\
   0.5 <= Filter.q (lowpassParams s') <= 0.85 /\
   10 <= Filter.cutoff (highpassParams s') <= 200 /\
   M_SQRT1_2 <= Filter.q (highpassParams s') <= 1) /\
  (0 <= Reverb.mix (reverbParams s') <= 0.75 /\
   0.01 <= Reverb.size (reverbParams s') <= 0.45 /\
   0.6 <= Reverb.width (reverbParams s') <= 1 /\
   0.5 <= Reverb.spread (reverbParams s') <= 1.5) /\
  (Filter.parameters (fst (lowpassF s')) = lowpassParams s' /\
   Filter.parameters (snd (lowpassF s')) = lowpassParams s' /\
   Filter.parameters (fst (highpassF s')) = highpassParams s' /\
   Filter.parameters (snd (highpassF s')) = highpassParams s' /\
   Reverb.parameters (reverb s') = reverbParams s').
Proof.
  intros s'. subst s'. unfold setParameters, calculateValues.
  cbn [masterAmount reverbAmount filterAmount flangerAmount flangerParams
       lowpassParams highpassParams reverbParams lowpassF highpassF reverb
       flanger fst snd
       CombFilter.freq CombFilter.wet CombFilter.feedback
       Filter.cutoff Filter.q Reverb.mix Reverb.size Reverb.width
       Reverb.spread].
  pose proof (amount_range r m) as Hr.
  pose proof (amount_range f m) as Hf.
  pose proof (amount_range d m) as Hd.
  pose proof (setClamp_bounds m 0 1 ltac:(discriminate)) as Hm.
  change (Math.setClamp m 0 1) with (Math.clamp m 0 1) in Hm.
  split; [repeat split; first [apply Hm | apply Hr | apply Hf | apply Hd]|].
  split.
  { split; [apply mapValue_up; [exact Hd | discriminate]|].
    split; [apply mapValue_up; [now apply expRounder_unit | discriminate]|].
    apply mapValue_up; [exact Hd | discriminate]. }
  split.
  { split; [apply mapValue_down; [now apply expRounder_unit | discriminate]|].
    split; [apply mapValue_up; [now apply expRounder_unit | discriminate]|].
    split; [apply mapValue_up; [now apply expRounder_unit | discriminate]|].
    apply mapValue_up; [now apply expRounder_unit | discriminate]. }
  split.
  { split; [apply mapValue_up; [exact Hr | discriminate]|].
    split; [apply mapValue_up; [exact Hr | discriminate]|].
    split; [apply mapValue_down; [exact Hr | discriminate]|].
    apply mapValue_up; [now apply expRounder_unit | discriminate]. }
  repeat split;
    first [apply Filter_setParameters_stores | apply Reverb_setParameters_stores].
Qed.

(** Macro bypass: with the master amount at 0 (or below), whatever the
    other three controls are, every derived parameter sits at the first end
    of its mapping: no comb wet or feedback, comb at 20 Hz, lowpass at
    20 kHz, highpass at 10 Hz, reverb mix 0. *)
Theorem RiserProcessor_master_zero (s : RiserProcessor.t) (d f r m : Q) :
  m <= 0 ->
  let s' := setParameters s d f r m in
  (reverbAmount s' == 0 /\ filterAmount s' == 0 /\ flangerAmount s' == 0) /\
  (CombFilter.freq (flangerParams s') == 20 /\
   CombFilter.wet (flangerParams s') == 0 /\
   CombFilter.feedback (flangerParams s') == 0) /\
  (Filter.cutoff (lowpassParams s') == 20000 /\
   Filter.q (lowpassParams s') == 0.5 /\
   Filter.cutoff (highpassParams s') == 10 /\
   Filter.q (highpassParams s') == M_SQRT1_2) /\
  (Reverb.mix (reverbParams s') == 0 /\
   Reverb.size (reverbParams s') == 0.01 /\
   Reverb.width (reverbParams s') == 1 /\
   Reverb.spread (reverbParams s') == 0.5).
Proof.
  intros Hm s'. subst s'. unfold setParameters, calculateValues.
  cbn [masterAmount reverbAmount filterAmount flangerAmount flangerParams
       lowpassParams highpassParams reverbParams
       CombFilter.freq CombFilter.wet CombFilter.feedback
       Filter.cutoff Filter.q Reverb.mix Reverb.size Reverb.width
       Reverb.spread].
  pose proof (amount_at_zero r m Hm) as Hr.
  pose proof (amount_at_zero f m Hm) as Hf.
  pose proof (amount_at_zero d m Hm) as Hd.
  split; [repeat split; assumption|].
  repeat split; apply mapValue_at_zero;
    first [assumption | apply ExpRounder_zero_eq; assumption].
Qed.

Lemma RiserProcessor_master_zero_witness :
  let s' := setParameters RiserProcessor.init 1 (1 # 2) 1 0 in
  CombFilter.wet (flangerParams s') == 0 /\
  Filter.cutoff (lowpassParams s') == 20000 /\
  Reverb.mix (reverbParams s') == 0.
Proof.
  destruct (RiserProcessor_master_zero RiserProcessor.init 1 (1 # 2) 1 0
              ltac:(discriminate))
    as (_ & (_ & Hw & _) & (Hc & _) & (Hmix & _)).
  cbv zeta. split; [exact Hw|]. split; [exact Hc | exact Hmix].
Defined.

End MacroMapping.

(** ** Heap block and ring buffer: indexing *)

Section IndexingFacts.
Import Num RingBuffer.

(** [getReadIndex] on a buffer whose write index is inside a capacity of at
    most [2^31], for an offset of at most the capacity: the result is
    [(writeIndex - readOffset) mod size], inside the buffer. *)
Theorem getReadIndex_mod (rb : RingBuffer.t) (readOffset : Z) :
  0 <= writeIndex rb < size rb -> size rb <= 2 ^ 31 ->
  0 <= readOffset <= size rb ->
  getReadIndex rb readOffset = (writeIndex rb - readOffset) mod size rb /\
  0 <= getReadIndex rb readOffset < size rb.
Proof.
  intros Hw Hs Ho.
  assert (E : getReadIndex rb readOffset =
              (writeIndex rb - readOffset) mod size rb).
  { unfold getReadIndex.
    rewrite (wrap_small (writeIndex rb - readOffset + size rb))
      by (unfold UINT_MOD; lia).
    destruct (Z.leb_spec (size rb) (writeIndex rb - readOffset + size rb)).
    - rewrite wrap_small by (unfold UINT_MOD; lia).
      apply Z.mod_unique with (q := 0); lia.
    - apply Z.mod_unique with (q := -1); lia. }
  split; [exact E|]. rewrite E. apply Z.mod_pos_bound. lia.
Qed.

Lemma getReadIndex_mod_witness :
  let rb := pushAll (prepare RingBuffer.init 4 20) [1; 2]%Q in
  getReadIndex rb 3 = 3 /\ 0 <= getReadIndex rb 3 < size rb.
Proof.
  intros rb.
  assert (Hw : 0 <= writeIndex rb < size rb)
    by (split; now vm_compute).
  assert (Hs : size rb <= 2 ^ 31) by now vm_compute.
  assert (Ho : 0 <= 3 <= size rb) by (split; now vm_compute).
  destruct (getReadIndex_mod rb 3 Hw Hs Ho) as [H1 H2].
  split; [exact H1 | exact H2].
Defined.

Lemma increment_fields (rb : RingBuffer.t) :
  buffer (incrementWritePointer rb) = buffer rb /\
  size (incrementWritePointer rb) = size rb /\
  sampleRate (incrementWritePointer rb) = sampleRate rb /\
  delayTime (incrementWritePointer rb) = delayTime rb.
Proof. repeat split; reflexivity. Qed.

Lemma increment_mod (rb : RingBuffer.t) :
  0 <= writeIndex rb < size rb -> size rb < UINT_MOD ->
  writeIndex (incrementWritePointer rb) = (writeIndex rb + 1) mod size rb.
Proof.
  intros Hw Hs. unfold incrementWritePointer. cbn [writeIndex].
  rewrite (wrap_small (writeIndex rb + 1)) by lia.
  destruct (Z.leb_spec (size rb) (writeIndex rb + 1)).
  - replace (writeIndex rb + 1 - size rb) with 0 by lia.
    change (wrap 0) with 0. apply Z.mod_unique with (q := 1); lia.
  - apply Z.mod_unique with (q := 0); lia.
Qed.

(** The write pointer runs in a circle: [n] increments take the write
    index to [(writeIndex + n) mod size] and touch nothing else of the
    buffer, so [size] increments bring it back. *)
Theorem incrementWritePointer_cycle (rb : RingBuffer.t) (n : nat) :
  0 <= writeIndex rb < size rb -> size rb < UINT_MOD ->
  let rb' := Nat.iter n forceIncrementWritePointer rb in
  writeIndex rb' = (writeIndex rb + Z.of_nat n) mod size rb /\
  size rb' = size rb /\ buffer rb' = buffer rb /\
  writeIndex (Nat.iter (Z.to_nat (size rb)) forceIncrementWritePointer rb)
    = writeIndex rb.
Proof.
  intros Hw Hs.
  assert (H : forall m : nat,
            writeIndex (Nat.iter m forceIncrementWritePointer rb)
              = (writeIndex rb + Z.of_nat m) mod size rb /\
            size (Nat.iter m forceIncrementWritePointer rb) = size rb /\
            buffer (Nat.iter m forceIncrementWritePointer rb) = buffer rb).
  { induction m as [|m (IHw & IHs & IHb)].
    - cbn [Nat.iter nat_rect Z.of_nat]. rewrite Z.add_0_r.
      rewrite Z.mod_small by lia. repeat split; reflexivity.
    - rewrite Nat.iter_succ. unfold forceIncrementWritePointer at 1 3 5.
      destruct (increment_fields (Nat.iter m forceIncrementWritePointer rb))
        as (Eb & Es & _).
      rewrite Eb, Es. split; [|split; assumption].
      rewrite increment_mod.
      + rewrite IHs, IHw, Zplus_mod_idemp_l. f_equal. lia.
      + rewrite IHs, IHw. apply Z.mod_pos_bound. lia.
      + rewrite IHs. exact Hs. }
  intros rb'. subst rb'. destruct (H n) as (H1 & H2 & H3).
  split; [exact H1|]. split; [exact H2|]. split; [exact H3|].
  destruct (H (Z.to_nat (size rb))) as (H4 & _). rewrite H4.
  rewrite Z2Nat.id by lia.
  apply eq_sym, Z.mod_unique with (q := 1); lia.
Qed.

Lemma incrementWritePointer_cycle_witness :
  let rb := pushAll (prepare RingBuffer.init 4 20) [1; 2]%Q in
  writeIndex (Nat.iter 3 forceIncrementWritePointer rb) = (2 + 3) mod 4 /\
  writeIndex (Nat.iter 4 forceIncrementWritePointer rb) = 2.
Proof.
  intros rb.
  assert (Hw : 0 <= writeIndex rb < size rb)
    by (split; now vm_compute).
  assert (Hs : size rb < UINT_MOD) by now vm_compute.
  destruct (incrementWritePointer_cycle rb 3 Hw Hs) as (H1 & _ & _ & H4).
  split; [exact H1 | exact H4].
Defined.

End IndexingFacts.

(** ** Ring buffer: preparing, pushing and the delay time *)

Section BufferFacts.
Import Num RingBuffer.

(** A sample pushed into the buffer is what a read with no interpolation
    returns when the delay time has settled at one sample period. *)
Theorem push_then_read_one_sample (rb : RingBuffer.t) (x : Q) :
  bufferOk rb -> 0 <= writeIndex rb < size rb -> size rb <= 2 ^ 31 ->
  SmoothedValue.isSmoothing (delayTime rb) = false ->
  (ofInt (sampleRate rb) * SmoothedValue.target (delayTime rb) == 1)%Q ->
  fst (getFromBufferNoInterp (pushToBuffer rb (Some x))) = x.
Proof.
  intros Hok Hw Hs Hsm Hone.
  assert (Hs' : size rb < UINT_MOD) by (unfold UINT_MOD; lia).
  destruct (pushToBuffer_spec rb x Hok Hw Hs')
    as (Hok1 & Hs1 & Hr1 & _ & Ht1 & Hw1 & Hd1).
  set (rb1 := pushToBuffer rb (Some x)) in *. clearbody rb1.
  unfold getFromBufferNoInterp, stepDelay.
  rewrite Ht1, (getNextValue_settled _ Hsm).
  cbn [buffer size writeIndex sampleRate fst].
  rewrite Hr1, (toUint_integer _ 1 Hone) by (unfold UINT_MOD; lia).
  unfold getReadIndex. cbn [size writeIndex]. rewrite Hs1, Hw1.
  destruct Hok1 as [Hh1 Hl1].
  unfold HeapBlock.get, HeapBlock.cell. rewrite Hh1, Hs1, Hd1.
  assert (Hi : (Z.to_nat (writeIndex rb)
                < length (HeapBlock.data (buffer rb)))%nat).
  { destruct Hok as [_ Hl]. lia. }
  assert (Eri : (if size rb <=?
                    wrap ((if writeIndex rb + 1 <? size rb
                           then writeIndex rb + 1 else 0) - 1 + size rb)
                 then wrap (wrap ((if writeIndex rb + 1 <? size rb
                                   then writeIndex rb + 1 else 0)
                                  - 1 + size rb) - size rb)
                 else wrap ((if writeIndex rb + 1 <? size rb
                             then writeIndex rb + 1 else 0) - 1 + size rb))
                = writeIndex rb).
  { destruct (Z.ltb_spec (writeIndex rb + 1) (size rb)).
    - rewrite (wrap_small (writeIndex rb + 1 - 1 + size rb))
        by (unfold UINT_MOD; lia).
      destruct (Z.leb_spec (size rb) (writeIndex rb + 1 - 1 + size rb));
        [|lia].
      rewrite wrap_small by (unfold UINT_MOD; lia). lia.
    - rewrite (wrap_small (0 - 1 + size rb)) by (unfold UINT_MOD; lia).
      destruct (Z.leb_spec (size rb) (0 - 1 + size rb)); lia. }
  rewrite Eri.
  destruct (Z.leb_spec (size rb) (writeIndex rb)); [lia|].
  rewrite list_lookup_insert_eq by exact Hi. reflexivity.
Qed.

Lemma push_then_read_one_sample_witness :
  let rb := setDelayTime (pushAll (prepare RingBuffer.init 4 20) [1; 2]%Q)
                         (1 / ofInt 20) 0 in
  fst (getFromBufferNoInterp (pushToBuffer rb (Some 7%Q))) = 7%Q.
Proof.
  intros rb.
  apply (push_then_read_one_sample rb 7).
  - split; reflexivity.
  - split; now vm_compute.
  - now vm_compute.
  - reflexivity.
  - reflexivity.
Defined.

Lemma drop_take_same (l : list Q) (n : nat) : drop n (take n l) = [].
Proof. apply drop_ge. rewrite length_take. lia. Qed.

(** The shape of a buffer that comes out of [prepare]. *)
Lemma prepare_form (rb : RingBuffer.t) (n sr : Z) :
  bufferOk rb -> 0 <= n ->
  let n1 := Math.setClampU n 0 (wrap (n * sr * 10)) in
  let n2 := Math.setClampU n1 0 (wrap (sr * 600)) in
  let resized := negb (n1 =? size rb) in
  let S := if resized then n2 else size rb in
  0 <= S /\
  prepare rb n sr =
  mk (HeapBlock.mk (replicate (Z.to_nat S) 0%Q)
                   (HeapBlock.past (buffer rb)) S)
     S (if resized then 0 else writeIndex rb)
     (if sr =? 0 then 1 else sr) (delaySmoothTime rb) (delayTime rb).
Proof.
  intros [Hh Hl] Hn n1 n2 resized S.
  pose proof (wrap_range (n * sr * 10)) as W1.
  pose proof (wrap_range (sr * 600)) as W2.
  assert (Hn1 : 0 <= n1).
  { subst n1. unfold Math.setClampU.
    destruct (Z.ltb_spec n 0); [lia|].
    destruct (Z.ltb_spec (wrap (n * sr * 10)) n); lia. }
  assert (Hn2 : 0 <= n2).
  { subst n2. unfold Math.setClampU.
    destruct (Z.ltb_spec n1 0); [lia|].
    destruct (Z.ltb_spec (wrap (sr * 600)) n1); lia. }
  assert (HS : 0 <= S) by (subst S; destruct resized; lia).
  split; [exact HS|].
  assert (Hrate : sampleRate (prepare rb n sr) = if sr =? 0 then 1 else sr)
    by apply prepare_sampleRate.
  unfold prepare in *. fold n1. fold n1 in Hrate. cbv zeta in *.
  fold n2. fold n2 in Hrate. fold resized. fold resized in Hrate.
  subst S. destruct resized.
  - unfold clear in *.
    cbn [buffer size writeIndex sampleRate delaySmoothTime delayTime] in *.
    rewrite Hrate. f_equal.
    unfold HeapBlock.initialise, HeapBlock.reallocate.
    cbn [HeapBlock.data HeapBlock.past HeapBlock.size].
    rewrite drop_take_same, app_nil_r. reflexivity.
  - unfold clear in *.
    cbn [buffer size writeIndex sampleRate delaySmoothTime delayTime] in *.
    rewrite Hrate. f_equal.
    unfold HeapBlock.initialise. rewrite Hh.
    rewrite drop_ge by lia. rewrite app_nil_r. reflexivity.
Qed.

(** [prepare] on a well-formed buffer, for any requested size and rate:
    the result is well-formed and holds zeros only; either the capacity is
    kept, or the write index is back at 0 and the capacity is at most
    [600 * newSampleRate] (as [uint]); and a second [prepare] with the same
    arguments changes nothing. *)
Theorem prepare_clears_and_is_idempotent (rb : RingBuffer.t) (n sr : Z) :
  bufferOk rb -> 0 <= n ->
  let rb' := prepare rb n sr in
  bufferOk rb' /\
  HeapBlock.data (buffer rb') = replicate (Z.to_nat (size rb')) 0%Q /\
  (size rb' = size rb \/
   (writeIndex rb' = 0 /\ size rb' <= wrap (sr * 600))) /\
  prepare rb' n sr = rb'.
Proof.
  intros Hok Hn rb'.
  destruct (prepare_form rb n sr Hok Hn) as [HS Hform]. cbv zeta in HS, Hform.
  set (n1 := Math.setClampU n 0 (wrap (n * sr * 10))) in *.
  set (n2 := Math.setClampU n1 0 (wrap (sr * 600))) in *.
  assert (Hn2 : n2 <= wrap (sr * 600)).
  { subst n2. unfold Math.setClampU.
    pose proof (wrap_range (sr * 600)).
    destruct (Z.ltb_spec n1 0); [lia|].
    destruct (Z.ltb_spec (wrap (sr * 600)) n1); lia. }
  assert (Hok' : bufferOk rb').
  { subst rb'. rewrite Hform. unfold bufferOk.
    cbn [buffer size HeapBlock.size HeapBlock.data].
    rewrite length_replicate. split; [reflexivity|lia]. }
  split; [exact Hok'|]. split.
  { subst rb'. rewrite Hform. reflexivity. }
  split.
  { subst rb'. rewrite Hform. cbn [size writeIndex].
    destruct (negb (n1 =? size rb)); [right; split; [reflexivity|exact Hn2]
                                     |left; reflexivity]. }
  destruct (prepare_form rb' n sr Hok' Hn) as [_ Hform'].
  cbv zeta in Hform'. fold n1 in Hform'. fold n2 in Hform'.
  rewrite Hform'. subst rb'. rewrite Hform.
  cbn [buffer size writeIndex delaySmoothTime delayTime HeapBlock.past].
  destruct (negb (n1 =? size rb)) eqn:Eres.
  - destruct (Z.eqb_spec n1 n2) as [E|E]; cbn [negb]; reflexivity.
  - apply negb_false_iff in Eres. rewrite Eres. cbn [negb]. reflexivity.
Qed.

Lemma prepare_clears_and_is_idempotent_witness :
  let rb := pushAll (prepare RingBuffer.init 4 20) [1; 2]%Q in
  HeapBlock.data (buffer (prepare rb 3 1)) = [0; 0; 0]%Q /\
  prepare (prepare rb 3 1) 3 1 = prepare rb 3 1.
Proof.
  intros rb.
  assert (Hok : bufferOk rb) by (split; reflexivity).
  destruct (prepare_clears_and_is_idempotent rb 3 1 Hok ltac:(lia))
    as (_ & _ & _ & H).
  split; [reflexivity | exact H].
Defined.

(** [setDelayTime] never targets a delay outside the buffer: whatever is
    requested, negative values included, the target of the smoothed delay
    time lies in [0, size / sampleRate]; the contents, the capacity and the
    write index are not touched. *)
Theorem setDelayTime_target_range (rb : RingBuffer.t) (d st : Q) :
  0 < sampleRate rb -> 0 <= size rb ->
  let rb' := setDelayTime rb d st in
  (0 <= SmoothedValue.target (delayTime rb')
   <= ofInt (size rb) / ofInt (sampleRate rb))%Q /\
  buffer rb' = buffer rb /\ size rb' = size rb /\
  writeIndex rb' = writeIndex rb /\ sampleRate rb' = sampleRate rb.
Proof.
  intros Hr Hs rb'. subst rb'. unfold setDelayTime.
  assert (Hhi : (0 <= ofInt (size rb) / ofInt (sampleRate rb))%Q).
  { unfold Qdiv. apply Qmult_le_0_compat.
    - change (inject_Z 0 <= inject_Z (size rb))%Q. rewrite <- Zle_Qle. lia.
    - apply Qlt_le_weak, Qinv_lt_0_compat.
      change (inject_Z 0 < inject_Z (sampleRate rb))%Q.
      rewrite <- Zlt_Qlt. lia. }
  destruct (negb (Qeqb st (delaySmoothTime rb)));
    cbn [buffer size writeIndex sampleRate delaySmoothTime delayTime];
    (split; [|repeat split; reflexivity]);
    rewrite setTargetValue_target;
    apply (setClamp_bounds _ 0 _ Hhi).
Qed.

Lemma setDelayTime_target_range_witness :
  let rb := prepare RingBuffer.init 4 20 in
  (0 <= SmoothedValue.target (delayTime (setDelayTime rb (-5) 0.1))
   <= ofInt 4 / ofInt 20)%Q.
Proof.
  intros rb.
  destruct (setDelayTime_target_range rb (-5) 0.1) as (H & _);
    [now vm_compute | now vm_compute | exact H].
Defined.

End BufferFacts.

(** ** Biquad filter: disabling, repeating a call, steady state *)

Section FilterFacts.
Import Num Filter Examples.

(** A call of [setParameters] that disables the filter keeps all cached
    values, coefficients and delay registers, and the filter then hands
    every sample through without changing its state. *)
Theorem Filter_disabled_is_transparent
    (f : Filter.t) (p : Parameters) (x : Q) :
  enabled p = false ->
  let f' := setParameters f p in
  co f' = co f /\ sampleRate f' = sampleRate f /\
  process f' (Some x) = Returned (x, f').
Proof.
  intros Hen f'. subst f'. unfold setParameters. rewrite Hen. cbn [negb].
  split; [reflexivity|]. split; [reflexivity|].
  unfold process. cbn [parameters]. rewrite Hen. reflexivity.
Qed.

Lemma Filter_disabled_is_transparent_witness :
  let f := setParameters filter44100
             (mkParameters highpass 200 1 false) in
  co f = co filter44100 /\ process f (Some 3%Q) = Returned (3%Q, f).
Proof.
  destruct (Filter_disabled_is_transparent filter44100
              (mkParameters highpass 200 1 false) 3 eq_refl) as (H1 & _ & H2).
  split; [exact H1 | exact H2].
Defined.

Lemma setParameters_prev_keys (f : Filter.t) (p : Parameters) :
  enabled p = true ->
  (cutoff p == prevCutoff (co (setParameters f p)))%Q /\
  (ofInt (sampleRate f) == prevSampleRate (co (setParameters f p)))%Q.
Proof.
  intros Hen.
  destruct (Qeq_dec (cutoff p) (prevCutoff (co f))) as [Hc|Hc].
  - destruct (Qeq_dec (ofInt (sampleRate f)) (prevSampleRate (co f)))
      as [Hs|Hs].
    + destruct (setParameters_k_kept f p Hen Hc Hs) as (_ & _ & -> & ->).
      split; assumption.
    + destruct (setParameters_k_recomputed f p Hen (or_intror Hs))
        as (_ & _ & -> & ->).
      split; reflexivity.
  - destruct (setParameters_k_recomputed f p Hen (or_introl Hc))
      as (_ & _ & -> & ->).
    split; reflexivity.
Qed.

Lemma Coefficients_eq (c c' : Coefficients) :
  (a0 c, a1 c, a2 c, b1 c, b2 c) = (a0 c', a1 c', a2 c', b1 c', b2 c') ->
  dly1 c = dly1 c' -> dly2 c = dly2 c' ->
  k c = k c' -> k2 c = k2 c' -> n c = n c' ->
  prevQ c = prevQ c' -> prevCutoff c = prevCutoff c' ->
  prevSampleRate c = prevSampleRate c' -> c = c'.
Proof.
  destruct c, c'. cbn. intros H. apply tuple5_eq in H.
  destruct H as (-> & -> & -> & -> & ->). intros. subst. reflexivity.
Qed.

(** Repeating an enabled call of [setParameters] with the same parameters
    changes nothing at all: the second call finds every cached value up to
    date and recomputes the same coefficients. *)
Theorem Filter_setParameters_twice (f : Filter.t) (p : Parameters) :
  enabled p = true ->
  setParameters (setParameters f p) p = setParameters f p.
Proof.
  intros Hen.
  destruct (setParameters_prev_keys f p Hen) as [Hc Hs].
  pose proof (setParameters_prevQ f p Hen) as Hq. symmetry in Hq.
  destruct (setParameters_frame f p Hen) as (Hp1 & Hr1 & _).
  pose proof (setParameters_coefficients f p Hen) as Hco1.
  set (f1 := setParameters f p) in *. clearbody f1.
  rewrite <- Hr1 in Hs.
  destruct (setParameters_k_kept f1 p Hen Hc Hs) as (Hk & Hk2 & Hpc & Hps).
  destruct (setParameters_n_kept f1 p Hen Hq) as (Hn & Hpq).
  destruct (setParameters_frame f1 p Hen) as (Hp2 & Hr2 & Hd1 & Hd2).
  pose proof (setParameters_coefficients f1 p Hen) as Hco2.
  rewrite Hk, Hk2, Hn, <- Hco1 in Hco2.
  set (f2 := setParameters f1 p) in *. clearbody f2.
  assert (Eco : co f2 = co f1) by now apply Coefficients_eq.
  destruct f2 as [p2 r2 c2], f1 as [p1 r1 c1]. cbn in *. congruence.
Qed.

Lemma Filter_setParameters_twice_witness :
  setParameters (setParameters filter44100 lowpass500) lowpass500
  = setParameters filter44100 lowpass500.
Proof.
  apply (Filter_setParameters_twice filter44100 lowpass500). reflexivity.
Defined.

Lemma Filter_fixpoint_output_witness :
  exists f' : Filter.t,
    process steadyFilter (Some 3%Q)
    = Returned ((3 * (1 # 4) + (13 # 4))%Q, f') /\
    (dly1 (co f') == dly1 (co steadyFilter))%Q /\
    (dly2 (co f') == dly2 (co steadyFilter))%Q /\
    (3 * (1 # 4) + (13 # 4) == 4)%Q /\
    ((3 * (1 # 4) + (13 # 4)) *
     (1 + b1 (co steadyFilter) + b2 (co steadyFilter)) ==
     3 * (a0 (co steadyFilter) + a1 (co steadyFilter)
          + a2 (co steadyFilter)))%Q.
Proof.
  eexists. split; [reflexivity|].
  split; [reflexivity|]. split; [reflexivity|]. split; [reflexivity|].
  eapply (Filter_fixpoint_output steadyFilter _ 3 (3 * (1 # 4) + (13 # 4))).
  - reflexivity.
  - reflexivity.
  - reflexivity.
  - reflexivity.
Defined.


Lemma Filter_lowpass_unity_witness :
  (dcGain (setParameters filter44100 lowpass500) == 1)%Q.
Proof.
  destruct first_lowpass500 as (Hk & Hk2 & _).
  destruct tangent_terms as (T1 & _).
  apply (Filter_lowpass_unity filter44100 lowpass500).
  - reflexivity.
  - reflexivity.
  - discriminate.
  - rewrite Hk2, Hk. reflexivity.
  - rewrite Hk. exact T1.
  - reflexivity.
Defined.

End FilterFacts.

(** ** Reverb and signal chain: bypass, preparation, block bounds *)

Section ChainFacts.
Import Num Examples.

Lemma setDelayTime_fields (rb : RingBuffer.t) (d st : Q) :
  RingBuffer.buffer (RingBuffer.setDelayTime rb d st) = RingBuffer.buffer rb /\
  RingBuffer.size (RingBuffer.setDelayTime rb d st) = RingBuffer.size rb /\
  RingBuffer.sampleRate (RingBuffer.setDelayTime rb d st)
  = RingBuffer.sampleRate rb.
Proof.
  unfold RingBuffer.setDelayTime.
  destruct (negb (Qeqb st (RingBuffer.delaySmoothTime rb)));
    repeat split; reflexivity.
Qed.

Lemma Reverb_mix_changed_to_zero_witness :
  let rv' := Reverb.setParameters
               (Reverb.setParameters Reverb.init reverbMixHalf)
               reverbMixZero in
  (SmoothedValue.target (Reverb.drySmooth rv') == 1)%Q /\
  (SmoothedValue.target (Reverb.wet1 rv') == 0)%Q /\
  (SmoothedValue.target (Reverb.wet2 rv') == 0)%Q.
Proof.
  apply (Reverb_mix_changed_to_zero
           (Reverb.setParameters Reverb.init reverbMixHalf) reverbMixZero).
  - rewrite Reverb_setParameters_stores. discriminate.
  - reflexivity.
Defined.

Lemma Reverb_process_settled_witness :
  (fst (fst (Reverb.processSamples reverbBypassed (1 # 3) (-2))) == 1 # 3)%Q /\
  (snd (fst (Reverb.processSamples reverbBypassed (1 # 3) (-2))) == -2)%Q.
Proof.
  apply (Reverb_process_settled reverbBypassed (1 # 3) (-2));
    vm_compute; reflexivity.
Defined.

(** After [Reverb::prepare], for any requested rate, every comb of both
    banks runs at the rate the reverb has stored (a requested rate of 0
    keeps the stored one) and has its damping memory at 0. *)
Theorem Reverb_prepare_combs (rv : Reverb.t) (newSampleRate : Z) :
  let rv' := Reverb.prepare rv newSampleRate in
  Reverb.sampleRate rv' =
    (if newSampleRate =? 0 then Reverb.sampleRate rv else newSampleRate) /\
  Forall (Forall (combPreparedAt (Reverb.sampleRate rv')))
         (Reverb.earlyCombs rv') /\
  Forall (Forall (combPreparedAt (Reverb.sampleRate rv')))
         (Reverb.lateCombs rv').
Proof.
  intros rv'. subst rv'. unfold Reverb.prepare.
  set (sr := if negb (newSampleRate =? Reverb.sampleRate rv)
                && negb (newSampleRate =? 0)
             then newSampleRate else Reverb.sampleRate rv).
  assert (Esr : sr = if newSampleRate =? 0 then Reverb.sampleRate rv
                     else newSampleRate).
  { subst sr. destruct (Z.eqb_spec newSampleRate (Reverb.sampleRate rv));
      destruct (Z.eqb_spec newSampleRate 0); cbn [negb andb]; congruence. }
  assert (Hc : forall c : Reverb.Comb.t,
            combPreparedAt sr (Reverb.Comb.clear (Reverb.Comb.prepare c sr))).
  { intros c. unfold combPreparedAt, Reverb.Comb.clear, Reverb.Comb.prepare.
    cbn [Reverb.Comb.buffer Reverb.Comb.previousValue].
    split; [|reflexivity].
    unfold RingBuffer.clear, RingBuffer.prepareSeconds.
    cbn [RingBuffer.sampleRate]. apply prepare_sampleRate. }
  assert (Hbank : forall bank : Reverb.Bank,
            Forall (Forall (combPreparedAt sr))
              (List.map (List.map Reverb.Comb.clear)
                 (List.map (List.map (fun c => Reverb.Comb.prepare c sr))
                    bank))).
  { intros bank. rewrite List.map_map. apply Forall_map.
    apply Forall_forall. intros row _. rewrite List.map_map.
    apply Forall_map. apply Forall_forall. intros c _. apply Hc. }
  unfold Reverb.clear, Reverb.prepareCombs, Reverb.withCombs.
  cbn [Reverb.sampleRate Reverb.earlyCombs Reverb.lateCombs].
  split; [exact Esr|]. split; apply Hbank.
Qed.

Lemma processLoop_outside (count : nat) :
  forall (i : nat) (s : RiserProcessor.t) (left right : list Q) (j : nat),
    (j < i \/ i + count <= j)%nat ->
    let '(l', r', _) := RiserProcessor.processLoop count i s left right in
    l' !! j = left !! j /\ r' !! j = right !! j.
Proof.
  induction count as [|count IH]; intros i s left right j Hj.
  - cbn. split; reflexivity.
  - cbn [RiserProcessor.processLoop].
    destruct (left !! i) as [l|]; [|split; reflexivity].
    destruct (right !! i) as [r|]; [|split; reflexivity].
    destruct (RiserProcessor.processFrame s l r) as [[oL oR] s'].
    specialize (IH (S i) s' (<[i := oL]> left) (<[i := oR]> right) j
                   ltac:(lia)).
    destruct (RiserProcessor.processLoop count (S i) s'
                (<[i:=oL]> left) (<[i:=oR]> right)) as [[l' r'] s''].
    destruct IH as [-> ->].
    split; apply list_lookup_insert_ne; lia.
Qed.

(** [process] never writes outside the block: with a non-positive
    [numSamples] arrays and processor come back as they were, and otherwise
    every cell at an index [>= numSamples] of either array keeps its
    sample, whatever the lengths of the arrays. *)
Theorem RiserProcessor_process_outside_block
    (s : RiserProcessor.t) (left right : list Q) (numSamples : Z) :
  (numSamples <= 0 ->
   RiserProcessor.process s (Some left) (Some right) numSamples
   = (Some left, Some right, s)) /\
  (0 < numSamples ->
   exists l' r',
     fst (RiserProcessor.process s (Some left) (Some right) numSamples)
       = (Some l', Some r') /\
     forall j, (Z.to_nat numSamples <= j)%nat ->
       l' !! j = left !! j /\ r' !! j = right !! j).
Proof.
  unfold RiserProcessor.process. split.
  - intros Hn. destruct (Z.leb_spec numSamples 0); [reflexivity|lia].
  - intros Hn. destruct (Z.leb_spec numSamples 0); [lia|].
    pose proof (processLoop_outside (Z.to_nat numSamples) 0 s left right)
      as H'.
    destruct (RiserProcessor.processLoop (Z.to_nat numSamples) 0 s left right)
      as [[l' r'] s'].
    exists l', r'. split; [reflexivity|].
    intros j Hj. apply H'. right. lia.
Qed.

Lemma RiserProcessor_process_outside_block_witness :
  exists l' r',
    fst (RiserProcessor.process RiserProcessor.init
           (Some [3; -2; 9]%Q) (Some [0.5; 7; 8]%Q) 2)
      = (Some l', Some r') /\
    l' !! 2%nat = Some 9%Q /\ r' !! 2%nat = Some 8%Q.
Proof.
  destruct (RiserProcessor_process_outside_block RiserProcessor.init
              [3; -2; 9]%Q [0.5; 7; 8]%Q 2) as [_ H].
  destruct (H ltac:(lia)) as (l' & r' & E & Hout).
  exists l', r'. split; [exact E|]. apply (Hout 2%nat). cbn. lia.
Defined.

End ChainFacts.

(** ** [pa::math]: the wrap in front of the tangent approximation *)

Section WrapFacts.
Import Num.
Local Open Scope Q_scope.

Lemma mod1_bounds (x : Q) :
  -1 < Math.mod1 x < 1 /\ (0 <= x -> 0 <= Math.mod1 x) /\
  (x <= 0 -> Math.mod1 x <= 0).
Proof.
  rewrite mod1_rem. destruct x as [n d]. cbn [Qnum Qden].
  unfold Qlt, Qle. cbn [Qnum Qden]. rewrite !Z.mul_1_r.
  pose proof (Z.rem_bound_abs n (Z.pos d) ltac:(lia)) as Hb.
  split; [|split].
  - simpl Z.mul. lia.
  - intros Hn. simpl in Hn. pose proof (Z.rem_nonneg n (Z.pos d)). lia.
  - intros Hn. simpl in Hn. pose proof (Z.rem_nonpos n (Z.pos d)). lia.
Qed.

Lemma fmod_mod1 (x y : Q) : ~ y == 0 -> fmod x y == y * Math.mod1 (x / y).
Proof. intros Hy. unfold fmod, Math.mod1. field. exact Hy. Qed.

Lemma fmod_bounds (x y : Q) :
  0 < y ->
  - y < fmod x y < y /\ (x <= 0 -> fmod x y <= 0).
Proof.
  intros Hy. rewrite fmod_mod1 by lra.
  destruct (mod1_bounds (x / y)) as ((Hl & Hu) & _ & Hneg).
  set (m := Math.mod1 (x / y)) in *. clearbody m.
  assert (H1 : 0 < y * (1 - m)) by (apply Qmult_lt_0_compat; lra).
  assert (H2 : 0 < y * (m + 1)) by (apply Qmult_lt_0_compat; lra).
  assert (E1 : y * (1 - m) == y - y * m) by ring.
  assert (E2 : y * (m + 1) == y * m + y) by ring.
  rewrite E1 in H1. rewrite E2 in H2. split; [split; lra|].
  intros Hx.
  assert (Hq : x / y <= 0).
  { unfold Qdiv.
    assert (Hi : 0 < / y) by now apply Qinv_lt_0_compat.
    assert (H : 0 <= (- x) * / y) by (apply Qmult_le_0_compat; lra).
    assert (E : (- x) * / y == - (x * / y)) by ring.
    rewrite E in H. lra. }
  specialize (Hneg Hq).
  assert (H : 0 <= y * (- m)) by (apply Qmult_le_0_compat; lra).
  assert (E : y * (- m) == - (y * m)) by ring.
  rewrite E in H. lra.
Qed.

Lemma Qtrunc_small (q : Q) : -1 < q < 1 -> Qtrunc q = 0%Z.
Proof.
  destruct q as [n d]. unfold Qlt, Qtrunc. cbn [Qnum Qden].
  intros [Hl Hu]. apply Z.quot_small_iff; lia.
Qed.

Lemma M_PI_positive : 0 < M_PI.
Proof. reflexivity. Qed.

(** What [WrapPi] does with [useHalfPi] set, as [FastTan] calls it: the
    result differs from the input by a whole number of half turns [pi] and
    lies strictly between [-3/2 pi] and [pi/2]; an input in [0, pi/2) is
    moved down by [pi], out of the interval [-pi/2, pi/2]. *)
Theorem WrapPi_half_shift (x : Q) :
  let w := Math.WrapPi x true in
  - (3 # 2) * M_PI < w < (1 # 2) * M_PI /\
  (exists k : Z, w == x - inject_Z k * M_PI) /\
  (0 <= x -> x < (1 # 2) * M_PI -> w == x - M_PI).
Proof.
  intros w. subst w. unfold Math.WrapPi.
  pose proof M_PI_positive as Hpi.
  set (y := x - M_PI * 0.5).
  destruct (fmod_bounds y M_PI Hpi) as ((Hl & Hu) & _).
  split; [split; lra|]. split.
  - exists (1 + Qtrunc (y / M_PI))%Z. unfold fmod, ofInt.
    rewrite inject_Z_plus. subst y. ring.
  - intros H0 H1.
    assert (Hq : -1 < y / M_PI < 1).
    { subst y. split.
      - apply Qlt_shift_div_l; [exact Hpi|]. lra.
      - apply Qlt_shift_div_r; [exact Hpi|]. lra. }
    unfold fmod. rewrite (Qtrunc_small _ Hq). unfold ofInt. subst y.
    change (inject_Z 0) with 0. ring.
Qed.

Lemma WrapPi_half_shift_witness :
  Math.WrapPi 0.1 true == 0.1 - M_PI.
Proof.
  destruct (WrapPi_half_shift 0.1) as (_ & _ & H).
  apply H; [discriminate | reflexivity].
Defined.

End WrapFacts.

(** * Properties of the second embedding *)

Section IeeeArithmetic.
Import Ieee.

Lemma F32_mul_nan_l (x : float) : F32.mul NaN x = NaN.
Proof. reflexivity. Qed.

Lemma F32_mul_nan_r (x : float) : F32.mul x NaN = NaN.
Proof. destruct x; reflexivity. Qed.

Lemma F32_add_nan_l (x : float) : F32.add NaN x = NaN.
Proof. reflexivity. Qed.

Lemma F32_add_nan_r (x : float) : F32.add x NaN = NaN.
Proof. destruct x; reflexivity. Qed.

Lemma F64_mul_nan_l (x : double) : F64.mul NaN x = NaN.
Proof. reflexivity. Qed.

Lemma F64_mul_nan_r (x : double) : F64.mul x NaN = NaN.
Proof. destruct x; reflexivity. Qed.

Lemma F64_add_nan_l (x : double) : F64.add NaN x = NaN.
Proof. reflexivity. Qed.

Lemma F64_add_nan_r (x : double) : F64.add x NaN = NaN.
Proof. destruct x; reflexivity. Qed.

Lemma F64_sub_nan_l (x : double) : F64.sub NaN x = NaN.
Proof. reflexivity. Qed.

Lemma F64_sub_nan_r (x : double) : F64.sub x NaN = NaN.
Proof. destruct x; reflexivity. Qed.

Lemma F64_div_nan_l (x : double) : F64.div NaN x = NaN.
Proof. reflexivity. Qed.

Lemma F64_div_nan_r (x : double) : F64.div x NaN = NaN.
Proof. destruct x; reflexivity. Qed.

Lemma toUint_range (x : spec_float) (z : Z) :
  toUint x = Ok z -> 0 <= z < Num.UINT_MOD.
Proof.
  unfold toUint. destruct (truncZ x) as [t|]; [|discriminate].
  destruct (Z.leb_spec 0 t); destruct (Z.ltb_spec t Num.UINT_MOD);
    cbn [andb]; intros Hx; inversion Hx; subst; lia.
Qed.

(** Comparing two floats the other way round gives the opposite answer. *)
Lemma SFcompare_antisym (x y : spec_float) (c : comparison) :
  SFcompare x y = Some c -> SFcompare y x = Some (CompOpp c).
Proof.
  destruct x as [sx|sx| |sx mx ex], y as [sy|sy| |sy my ey]; cbn;
    try discriminate;
    try (intros H; inversion H; subst; clear H);
    try (destruct sx; reflexivity);
    try (destruct sy; reflexivity);
    try (destruct sx, sy; reflexivity).
  destruct sx, sy; cbn; try reflexivity.
  - rewrite (Z.compare_antisym ey ex).
    destruct (ey ?= ex)%Z; cbn; try reflexivity.
    now rewrite (Pos.compare_cont_antisym mx my Eq).
  - rewrite (Z.compare_antisym ey ex).
    destruct (ey ?= ex)%Z; cbn; try reflexivity.
    now rewrite (Pos.compare_cont_antisym mx my Eq).
Qed.

Lemma SFcompare_refl (x : spec_float) :
  isNaN x = false -> SFcompare x x = Some Eq.
Proof.
  destruct x as [s|s| |s m e]; cbn; try discriminate; intros _.
  - reflexivity.
  - now destruct s.
  - rewrite Z.compare_refl.
    change (Pos.compare_cont Eq m m) with (Pos.compare m m).
    rewrite Pos.compare_refl. now destruct s.
Qed.

Lemma leb_not_nan (a b : spec_float) :
  leb a b = true -> isNaN a = false /\ isNaN b = false.
Proof.
  unfold leb, SFleb. destruct a, b; cbn; try discriminate; auto.
Qed.

(** [a < b] fails for two numbers only if [b <= a]. *)
Lemma ltb_false_leb (a b : spec_float) :
  isNaN a = false -> isNaN b = false -> ltb a b = false -> leb b a = true.
Proof.
  intros Ha Hb. unfold ltb, leb, SFltb, SFleb.
  destruct (SFcompare a b) as [c|] eqn:E.
  - rewrite (SFcompare_antisym a b c E). destruct c; cbn; congruence.
  - destruct a, b; cbn in *; discriminate.
Qed.

(** [setClamp] on floats: the ordered bounds are respected unless the
    value is NaN, which is written back as it is. *)
Lemma setClamp_nan (lo hi : float) : Math.setClamp NaN lo hi = NaN.
Proof. unfold Math.setClamp. cbn. destruct hi; reflexivity. Qed.

Lemma setClamp_range_or_nan (v lo hi : float) :
  leb lo hi = true ->
  let r := Math.setClamp v lo hi in
  isNaN r = true \/ (leb lo r = true /\ leb r hi = true).
Proof.
  intros Hlh r. subst r. destruct (leb_not_nan _ _ Hlh) as [Hlo Hhi].
  unfold Math.setClamp. destruct (ltb v lo) eqn:E1.
  - right. split; [|exact Hlh]. unfold leb, SFleb.
    now rewrite SFcompare_refl.
  - destruct (ltb hi v) eqn:E2.
    + right. split; [exact Hlh|]. unfold leb, SFleb.
      now rewrite SFcompare_refl.
    + destruct (isNaN v) eqn:Hv; [now left|]. right. split.
      * now apply ltb_false_leb.
      * now apply ltb_false_leb.
Qed.

End IeeeArithmetic.

(** ** Signal chain: NaN passes the safety clip *)

Section SafetyClipNaN.
Import Ieee IeeeExamples.

(** C9 (source behaviour).  A processor constructed, prepared at 32 kHz and
    set to [setParameters (0, 0, 0, 0)] is handed 99 samples of 0.5 on both
    channels.  With the master at 0 the lowpass sits at 20 kHz, above half
    the sample rate: its recursion grows until the sample cast to [float]
    is an infinity, the next stages turn it into NaN, and [setClamp], whose
    two comparisons are false for NaN, writes NaN back: sample 98 of both
    arrays is NaN after the call. *)
Theorem RiserProcessor_process_writes_nan :
  exists l r : list float,
    written (let* s := riser32k in
             RiserProcessor.process s (Some (replicate 99 half))
                                    (Some (replicate 99 half)) 99)
    = Some (l, r) /\
    l !! 98%nat = Some NaN /\ r !! 98%nat = Some NaN.
Proof.
  eexists. eexists. split.
  - vm_compute. reflexivity.
  - split; reflexivity.
Qed.

(** Parameters set before the first [prepare]: a processor constructed,
    set to [setParameters (0, 0, 0, 0)] and then prepared at 44.1 kHz has
    computed the coefficients of its filters with a sample rate of 0; the
    normaliser [n] is NaN and is not recomputed by [prepare], and the first
    [process] on two samples of 0.5 writes NaN to both samples of both
    channels. *)
Lemma RiserProcessor_parameters_before_prepare :
  written (let* s := riserSetFirst in
           RiserProcessor.process s (Some [half; half]) (Some [half; half]) 2)
  = Some ([NaN; NaN], [NaN; NaN]).
Proof. vm_compute. reflexivity. Qed.

End SafetyClipNaN.

(** ** Biquad filter prepared with a sample rate of 0 *)

Section FilterRateZero.
Import Ieee Ieee.Filter.

Lemma FastTan_infinity (s : bool) : Math.FastTan (S754_infinity s) = NaN.
Proof. destruct s; vm_compute; reflexivity. Qed.

Lemma FastTan_nan : Math.FastTan NaN = NaN.
Proof. vm_compute. reflexivity. Qed.

(** The coefficients [b1] and [b2] computed from a NaN tangent term. *)
Lemma coefficientsFor_nan (ty : FilterType) (n q : double) :
  let '(_, _, _, y1, y2) := coefficientsFor ty NaN NaN n q in
  y1 = NaN /\ y2 = NaN.
Proof. destruct ty; cbn; split; reflexivity. Qed.

(** C4 (source behaviour at a sample rate of 0).  [Filter::prepare (0)]
    stores 0.  The next enabled [setParameters] that finds the cutoff or the
    rate changed divides the cutoff by that 0: the quotient is an infinity,
    the tangent term [k] is NaN, and so are [k2], [b1] and [b2]. *)
Theorem Filter_prepare_zero_divides_by_zero
    (f : Filter.t) (p : Parameters) (s : bool) (m : positive) (e : Z) :
  enabled p = true -> cutoff p = S754_finite s m e ->
  cutoffOrRateChanged (mk p 0 (co f)) = true ->
  let f' := setParameters (prepare f 0) p in
  sampleRate f' = 0 /\
  F64.div (cutoff p) (F64.ofZ (sampleRate f')) = S754_infinity s /\
  k (co f') = NaN /\ k2 (co f') = NaN /\
  b1 (co f') = NaN /\ b2 (co f') = NaN.
Proof.
  intros Hen Hc Hch f'. subst f'. unfold setParameters, prepare.
  rewrite Hen. cbn [negb]. unfold setCoefficients.
  cbn [parameters sampleRate co]. rewrite Hch.
  assert (Hq : F64.div (cutoff p) (F64.ofZ 0) = S754_infinity s).
  { rewrite Hc. destruct s; reflexivity. }
  assert (Hk : Math.fastTan (F64.mul F64.M_PI (F64.div (cutoff p) (F64.ofZ 0)))
               = NaN).
  { rewrite Hq. unfold Math.fastTan.
    replace (F64.mul F64.M_PI (S754_infinity s)) with (S754_infinity s)
      by (destruct s; reflexivity).
    apply FastTan_infinity. }
  rewrite Hk. change (F64.mul NaN NaN) with NaN.
  cbn [k k2 n prevQ a0 a1 a2 b1 b2 dly1 dly2 prevCutoff prevSampleRate].
  destruct (neb (q p) (prevQ (co f)));
    cbn [k k2 n prevQ a0 a1 a2 b1 b2 dly1 dly2 prevCutoff prevSampleRate];
    match goal with
    | |- context [coefficientsFor ?ty NaN NaN ?n ?q] =>
        pose proof (coefficientsFor_nan ty n q) as Hco;
        destruct (coefficientsFor ty NaN NaN n q) as [[[[x0 x1] x2] y1] y2]
    end;
    destruct Hco as [-> ->];
    cbn [sampleRate co k k2 b1 b2];
    (split; [reflexivity|]); (split; [exact Hq|]);
    repeat split; reflexivity.
Qed.

Lemma Filter_prepare_zero_divides_by_zero_witness :
  let f' := setParameters (prepare Filter.init 0) defaultParameters in
  sampleRate f' = 0 /\
  F64.div (cutoff defaultParameters) (F64.ofZ (sampleRate f'))
  = S754_infinity false /\
  k (co f') = NaN /\ k2 (co f') = NaN /\
  b1 (co f') = NaN /\ b2 (co f') = NaN.
Proof.
  apply (Filter_prepare_zero_divides_by_zero Filter.init defaultParameters
           false 8796093022208000 (-44)); reflexivity.
Defined.

End FilterRateZero.

(** ** Ring buffer: delay round trip in single precision *)

Section RoundTripIeee.
Import Num Ieee Ieee.RingBuffer.

Lemma Ieee_prepare_resized (rb0 : RingBuffer.t) (N R : Z) :
  0 < N -> N <= wrap (N * R * 10) -> N <= wrap (R * 600) -> 0 < R ->
  size rb0 <> N ->
  let rb := prepare rb0 N R in
  allocated rb /\ size rb = N /\ writeIndex rb = 0 /\ sampleRate rb = R /\
  delaySmoothTime rb = delaySmoothTime rb0 /\ delayTime rb = delayTime rb0.
Proof.
  intros HN H10 H600 HR Hsz rb. subst rb. unfold prepare.
  assert (E1 : Math.setClampU N 0 (wrap (N * R * 10)) = N).
  { unfold Math.setClampU.
    destruct (Z.ltb_spec N 0); [lia|].
    destruct (Z.ltb_spec (wrap (N * R * 10)) N); [lia|reflexivity]. }
  assert (E2 : Math.setClampU N 0 (wrap (R * 600)) = N).
  { unfold Math.setClampU.
    destruct (Z.ltb_spec N 0); [lia|].
    destruct (Z.ltb_spec (wrap (R * 600)) N); [lia|reflexivity]. }
  rewrite E1. cbv zeta.
  destruct (Z.eqb_spec N (size rb0)) as [E|_]; [congruence|].
  cbn [negb]. rewrite E2.
  cbn [buffer size writeIndex sampleRate delaySmoothTime delayTime].
  unfold clear.
  cbn [buffer size writeIndex sampleRate delaySmoothTime delayTime].
  split; [|split; [reflexivity|split; [reflexivity|split]]].
  - unfold allocated, HeapBlock.initialise, HeapBlock.reallocate.
    cbn [buffer size HeapBlock.size HeapBlock.data]. split; [reflexivity|].
    rewrite length_app, length_replicate, length_drop, length_take,
      length_app, length_replicate. lia.
  - destruct (negb (R =? sampleRate rb0)) eqn:E.
    + destruct (Z.eqb_spec R 0); [lia|reflexivity].
    + apply negb_false_iff, Z.eqb_eq in E. rewrite <- E.
      destruct (Z.eqb_spec R 0); [lia|reflexivity].
  - split; reflexivity.
Qed.

Lemma Ieee_pushToBuffer_spec (rb : RingBuffer.t) (x : float) :
  allocated rb -> 0 <= writeIndex rb < size rb -> size rb < UINT_MOD ->
  exists rb',
    pushToBuffer rb (Some x) = Ok rb' /\
    allocated rb' /\ size rb' = size rb /\ sampleRate rb' = sampleRate rb /\
    delaySmoothTime rb' = delaySmoothTime rb /\
    delayTime rb' = delayTime rb /\
    writeIndex rb' =
      (if writeIndex rb + 1 <? size rb then writeIndex rb + 1 else 0) /\
    HeapBlock.data (buffer rb') =
      <[Z.to_nat (writeIndex rb) := x]> (HeapBlock.data (buffer rb)).
Proof.
  intros [Hb1 Hb2] Hw Hs.
  unfold pushToBuffer, HeapBlock.set. rewrite Hb1.
  destruct (Z.leb_spec (size rb) (writeIndex rb)); [lia|].
  destruct (lookup_lt_is_Some_2 (HeapBlock.data (buffer rb))
              (Z.to_nat (writeIndex rb)) ltac:(lia)) as [v Hv].
  rewrite Hv. cbn [bind]. eexists. split; [reflexivity|].
  unfold incrementWritePointer.
  cbn [buffer size writeIndex sampleRate delaySmoothTime delayTime].
  rewrite (wrap_small (writeIndex rb + 1)) by lia.
  split; [|split; [reflexivity|split; [reflexivity|split; [reflexivity|
           split; [reflexivity|split]]]]].
  - unfold allocated. cbn [buffer size HeapBlock.size HeapBlock.data].
    rewrite length_insert. split; [reflexivity | exact Hb2].
  - destruct (Z.leb_spec (size rb) (writeIndex rb + 1));
      destruct (Z.ltb_spec (writeIndex rb + 1) (size rb)); try lia.
    replace (writeIndex rb + 1 - size rb) with 0 by lia. reflexivity.
  - reflexivity.
Qed.

(** Pushing a sequence that fills a buffer from index 0: the write index
    comes back to 0 and the buffer holds the sequence. *)
Lemma Ieee_pushAll_fill (s : list float) :
  forall (rb : RingBuffer.t) (done : list float),
    allocated rb -> size rb < UINT_MOD ->
    writeIndex rb = Z.of_nat (length done) ->
    Z.of_nat (length done) + Z.of_nat (length s) = size rb ->
    (0 < length s)%nat ->
    take (length done) (HeapBlock.data (buffer rb)) = done ->
    exists rb',
      pushAll rb s = Ok rb' /\
      allocated rb' /\ size rb' = size rb /\ sampleRate rb' = sampleRate rb /\
      delaySmoothTime rb' = delaySmoothTime rb /\
      delayTime rb' = delayTime rb /\
      writeIndex rb' = 0 /\
      HeapBlock.data (buffer rb') = done ++ s.
Proof.
  induction s as [|x rest IH]; intros rb done Hok Hs Hw Hlen Hpos Hdone.
  - cbn in Hpos. lia.
  - cbn [length] in Hlen.
    destruct (Ieee_pushToBuffer_spec rb x Hok ltac:(lia) Hs)
      as (rb1 & Hp & Hok1 & Hs1 & Hr1 & Hd1 & Ht1 & Hw1 & Hdata1).
    cbn [pushAll]. rewrite Hp. cbn [bind].
    assert (Hl : length (HeapBlock.data (buffer rb))
                 = (length done + S (length rest))%nat).
    { destruct Hok as [_ Hl]. lia. }
    assert (Hdone1 : take (length (done ++ [x])) (HeapBlock.data (buffer rb1))
                     = done ++ [x]).
    { rewrite Hdata1, Hw, Nat2Z.id, length_app. cbn [length].
      rewrite Nat.add_1_r.
      rewrite (take_S_r _ _ x) by (apply list_lookup_insert_eq; lia).
      rewrite take_insert_ge by lia. now rewrite Hdone. }
    destruct rest as [|y rest'].
    + cbn [pushAll]. eexists. split; [reflexivity|].
      split; [exact Hok1|]. split; [exact Hs1|]. split; [exact Hr1|].
      split; [exact Hd1|]. split; [exact Ht1|]. split.
      * rewrite Hw1. cbn [length] in Hlen.
        change (Z.of_nat 1) with 1 in Hlen.
        destruct (Z.ltb_spec (writeIndex rb + 1) (size rb)); [lia|reflexivity].
      * rewrite <- Hdone1. rewrite take_ge; [reflexivity|].
        rewrite Hdata1, length_insert, length_app. cbn [length] in *. lia.
    + assert (Hw1' : writeIndex rb1 = Z.of_nat (length (done ++ [x]))).
      { rewrite Hw1, length_app. cbn [length] in *.
        destruct (Z.ltb_spec (writeIndex rb + 1) (size rb)); lia. }
      destruct (IH rb1 (done ++ [x]) Hok1 ltac:(lia) Hw1'
                  ltac:(rewrite length_app; cbn [length] in *; lia)
                  ltac:(cbn [length]; lia) Hdone1)
        as (rb' & Hp' & Hok' & Hs' & Hr' & Hd' & Ht' & Hw' & Hdata').
      exists rb'. split; [exact Hp'|]. split; [exact Hok'|].
      split; [congruence|]. split; [congruence|]. split; [congruence|].
      split; [congruence|]. split; [exact Hw'|].
      rewrite Hdata', <- app_assoc. reflexivity.
Qed.

(** [setDelayTime] touches the delay time only; the target it leaves is the
    requested delay clamped into the buffer (unless the comparison with the
    old target found the two equal, and the old one is kept). *)
Lemma Ieee_setDelayTime_frame (rb rb1 : RingBuffer.t) (d st : float) :
  setDelayTime rb d st = Ok rb1 ->
  let d' := Math.clamp (abs d) F32.zero
              (F32.div (F32.ofZ (size rb)) (F32.ofZ (sampleRate rb))) in
  buffer rb1 = buffer rb /\ size rb1 = size rb /\
  writeIndex rb1 = writeIndex rb /\ sampleRate rb1 = sampleRate rb /\
  (SmoothedValue.target (delayTime rb) = d' \/
   eqb d' (SmoothedValue.target (delayTime rb)) = false ->
   SmoothedValue.target (delayTime rb1) = d').
Proof.
  intros H d'. unfold setDelayTime in H.
  assert (T : forall dt : SmoothedValue.t,
            SmoothedValue.target dt = d' \/
            eqb d' (SmoothedValue.target dt) = false ->
            SmoothedValue.target (SmoothedValue.setTargetValue dt d') = d').
  { intros dt Hd. unfold SmoothedValue.setTargetValue.
    destruct (eqb d' (SmoothedValue.target dt)) eqn:E.
    - destruct Hd as [Hd|Hd]; [exact Hd | discriminate].
    - destruct (SmoothedValue.stepsToTarget dt <=? 0); reflexivity. }
  destruct (neb st (delaySmoothTime rb)).
  - unfold SmoothedValue.reset in H.
    destruct (F64.floorToInt _) as [n|]; [|discriminate].
    cbn [bind] in H. inversion H; subst rb1; clear H.
    cbn [buffer size writeIndex sampleRate delayTime].
    repeat split; try reflexivity. intros Hd. subst d'. now apply T.
  - cbn [bind] in H. inversion H; subst rb1; clear H.
    cbn [buffer size writeIndex sampleRate delayTime].
    repeat split; try reflexivity. intros Hd. subst d'. now apply T.
Qed.

Lemma Ieee_stepDelay_frame (rb : RingBuffer.t) :
  let rb' := snd (stepDelay rb) in
  buffer rb' = buffer rb /\ size rb' = size rb /\
  writeIndex rb' = writeIndex rb /\ sampleRate rb' = sampleRate rb /\
  SmoothedValue.target (delayTime rb') = SmoothedValue.target (delayTime rb).
Proof.
  unfold stepDelay, SmoothedValue.getNextValue.
  destruct (negb (SmoothedValue.isSmoothing (delayTime rb)));
    cbn; repeat split; reflexivity.
Qed.

(** A read leaves everything but the state of the ramp as it was. *)
Lemma Ieee_read_frame (rb rb' : RingBuffer.t) (v : float) :
  getFromBufferNoInterp rb = Ok (v, rb') ->
  buffer rb' = buffer rb /\ size rb' = size rb /\
  writeIndex rb' = writeIndex rb /\ sampleRate rb' = sampleRate rb /\
  SmoothedValue.target (delayTime rb') = SmoothedValue.target (delayTime rb).
Proof.
  unfold getFromBufferNoInterp. intros H.
  pose proof (Ieee_stepDelay_frame rb) as F.
  destruct (stepDelay rb) as [delay rb1]. cbn [snd] in F.
  destruct (toUint _) as [off|]; [|discriminate]. cbn [bind] in H.
  destruct (HeapBlock.get _ _) as [x|]; [|discriminate]. cbn [bind] in H.
  inversion H; subst. exact F.
Qed.

Lemma Ieee_readAll_frame (m : nat) :
  forall (rb rb' : RingBuffer.t) (vs : list float),
    readAll m rb = Ok (vs, rb') ->
    buffer rb' = buffer rb /\ size rb' = size rb /\
    writeIndex rb' = writeIndex rb /\ sampleRate rb' = sampleRate rb /\
    SmoothedValue.target (delayTime rb') = SmoothedValue.target (delayTime rb).
Proof.
  induction m as [|m IH]; intros rb rb' vs H.
  - cbn in H. inversion H; subst. repeat split; reflexivity.
  - cbn [readAll] in H.
    destruct (getFromBufferNoInterp rb) as [[v rb1]|] eqn:E1; [|discriminate].
    cbn [bind] in H.
    destruct (readAll m rb1) as [[vs' rb2]|] eqn:E2; [|discriminate].
    cbn [bind] in H. inversion H; subst.
    destruct (Ieee_read_frame _ _ _ E1) as (A1 & A2 & A3 & A4 & A5).
    destruct (IH _ _ _ E2) as (B1 & B2 & B3 & B4 & B5).
    repeat split; congruence.
Qed.

(** With at most one step of the ramp left, the next value is the target. *)
Lemma Ieee_getNextValue_last (dt : SmoothedValue.t) :
  SmoothedValue.countdown dt <= 1 ->
  fst (SmoothedValue.getNextValue dt) = SmoothedValue.target dt.
Proof.
  intros H. unfold SmoothedValue.getNextValue, SmoothedValue.isSmoothing.
  destruct (Z.ltb_spec 0 (SmoothedValue.countdown dt)); cbn [negb fst].
  - destruct (Z.ltb_spec 0 (SmoothedValue.countdown dt - 1)); [lia|].
    reflexivity.
  - reflexivity.
Qed.

Lemma Ieee_getReadIndex_mod (rb : RingBuffer.t) (off : Z) :
  0 <= writeIndex rb < size rb -> 0 <= off <= size rb ->
  writeIndex rb - off + size rb < UINT_MOD ->
  getReadIndex rb off = (writeIndex rb - off) mod size rb.
Proof.
  intros Hw Ho Hs. unfold getReadIndex.
  rewrite (wrap_small (writeIndex rb - off + size rb)) by lia.
  destruct (Z.leb_spec (size rb) (writeIndex rb - off + size rb)).
  - rewrite wrap_small by lia.
    apply Z.mod_unique with (q := 0); lia.
  - apply Z.mod_unique with (q := -1); lia.
Qed.

(** C3, as amended.  A ring buffer that [prepare] resizes to a capacity of
    [N > 0] samples at the rate [R > 0] receives the sequence [s[0..N)] and
    then [setDelayTime (d, st)], for any smoothing time [st], with a delay
    [d] that changes the target (or is the target already).  After any
    number of reads that leave at most one step of the ramp, the read with
    no interpolation returns [s[(writeIndex - off) mod N]], where the write
    index is 0 and [off = uint (float (R) * t)] is computed in single
    precision from the clamped delay [t]. *)
Theorem RingBuffer_delay_round_trip
    (rb0 rb1 rb2 : RingBuffer.t) (N R : Z) (s vs : list float)
    (d st : float) (m : nat) (off : Z) :
  let t := Math.clamp (abs d) F32.zero (F32.div (F32.ofZ N) (F32.ofZ R)) in
  0 < N -> N <= wrap (N * R * 10) -> N <= wrap (R * 600) -> 0 < R ->
  size rb0 <> N -> Z.of_nat (length s) = N ->
  (SmoothedValue.target (delayTime rb0) = t \/
   eqb t (SmoothedValue.target (delayTime rb0)) = false) ->
  (let* rb := pushAll (prepare rb0 N R) s in setDelayTime rb d st) = Ok rb1 ->
  readAll m rb1 = Ok (vs, rb2) ->
  SmoothedValue.countdown (delayTime rb2) <= 1 ->
  toUint (F32.mul (F32.ofZ R) t) = Ok off -> off <= N ->
  writeIndex rb2 = 0 /\
  exists (v : float) (rb3 : RingBuffer.t),
    getFromBufferNoInterp rb2 = Ok (v, rb3) /\
    s !! Z.to_nat ((writeIndex rb2 - off) mod N) = Some v.
Proof.
  intros t HN H10 H600 HR Hsz Hlen Ht Hrun Hreads Hcd Hoff HoffN.
  pose proof (wrap_range (R * 600)) as HwR.
  assert (H32 : UINT_MOD = 2 ^ 32) by reflexivity.
  destruct (Ieee_prepare_resized rb0 N R HN H10 H600 HR Hsz)
    as (Hok0 & Hs0 & Hw0 & Hr0 & Hd0 & Ht0).
  assert (P1 : size (prepare rb0 N R) < UINT_MOD) by lia.
  assert (P2 : writeIndex (prepare rb0 N R) = Z.of_nat (length (@nil float)))
    by (rewrite Hw0; reflexivity).
  assert (P3 : Z.of_nat (length (@nil float)) + Z.of_nat (length s)
               = size (prepare rb0 N R))
    by (rewrite Hs0; cbn [length]; lia).
  assert (P4 : (0 < length s)%nat) by lia.
  destruct (Ieee_pushAll_fill s (prepare rb0 N R) [] Hok0 P1 P2 P3 P4 eq_refl)
    as (rbq & Hp & Hokq & Hsq & Hrq & Hdq & Htq & Hwq & Hdata).
  rewrite Hp in Hrun. cbn [bind] in Hrun.
  destruct (Ieee_setDelayTime_frame _ _ _ _ Hrun) as (A1 & A2 & A3 & A4 & A5).
  rewrite Hsq, Hs0, Hrq, Hr0 in A5. fold t in A5.
  rewrite Htq, Ht0 in A5. specialize (A5 Ht).
  destruct (Ieee_readAll_frame _ _ _ _ Hreads) as (B1 & B2 & B3 & B4 & B5).
  assert (Hw2 : writeIndex rb2 = 0) by congruence.
  assert (Hs2 : size rb2 = N) by congruence.
  assert (Hr2 : sampleRate rb2 = R) by congruence.
  assert (Hb2 : buffer rb2 = buffer rbq) by congruence.
  assert (Ht2 : SmoothedValue.target (delayTime rb2) = t) by congruence.
  split; [exact Hw2|].
  unfold getFromBufferNoInterp.
  pose proof (Ieee_stepDelay_frame rb2) as F.
  pose proof (Ieee_getNextValue_last (delayTime rb2) Hcd) as Hlast.
  unfold stepDelay in *.
  destruct (SmoothedValue.getNextValue (delayTime rb2)) as [delay dt].
  cbn [fst snd] in *. destruct F as (F1 & F2 & F3 & F4 & _).
  cbn [sampleRate buffer]. rewrite Hlast, Ht2, Hr2, Hoff. cbn [bind].
  pose proof (toUint_range _ _ Hoff) as Hrange.
  rewrite Ieee_getReadIndex_mod by (cbn [writeIndex size]; lia).
  cbn [writeIndex size]. rewrite Hw2, Hs2.
  pose proof (Z.mod_pos_bound (0 - off) N HN) as Hb.
  unfold HeapBlock.get. rewrite Hb2.
  destruct Hokq as [Hhs Hhl]. rewrite Hhs, Hsq, Hs0.
  destruct (Z.leb_spec N ((0 - off) mod N)); [lia|].
  rewrite Hdata. cbn [app].
  destruct (lookup_lt_is_Some_2 s (Z.to_nat ((0 - off) mod N)) ltac:(lia))
    as [v Hv].
  rewrite Hv. cbn [bind]. exists v. eexists. split; reflexivity.
Qed.

End RoundTripIeee.

(** ** Ring buffer: the round trip on concrete buffers *)

Section RoundTripExamples.
Import Num Ieee Ieee.RingBuffer IeeeExamples.

Lemma RingBuffer_delay_round_trip_witness :
  exists (rb1 rb2 : RingBuffer.t) (vs : list float),
    (let* rb := pushAll (prepare RingBuffer.init 16 44100) ramp16 in
     setDelayTime rb (F32.lit 8 44100) defaultSmoothTime) = Ok rb1 /\
    readAll 4410 rb1 = Ok (vs, rb2) /\
    writeIndex rb2 = 0 /\
    exists (v : float) (rb3 : RingBuffer.t),
      getFromBufferNoInterp rb2 = Ok (v, rb3) /\
      ramp16 !! Z.to_nat ((writeIndex rb2 - 8) mod 16) = Some v.
Proof.
  eexists. eexists. eexists.
  split; [vm_compute; reflexivity|].
  split; [vm_compute; reflexivity|].
  eapply (RingBuffer_delay_round_trip RingBuffer.init _ _ 16 44100 ramp16 _
            (F32.lit 8 44100) defaultSmoothTime 4410 8).
  - lia.
  - now vm_compute.
  - now vm_compute.
  - lia.
  - now vm_compute.
  - reflexivity.
  - right. now vm_compute.
  - vm_compute. reflexivity.
  - vm_compute. reflexivity.
  - now vm_compute.
  - now vm_compute.
  - lia.
Defined.

(** C3 as stated fails even without a ramp: at 44.1 kHz the delay time
    [7 / 44100] in single precision, multiplied by the rate in single
    precision, is just below 7 and truncates to 6.  With the samples
    1, ..., 16 pushed and a smoothing time of 0, the claim gives
    [s[(0 - 7) mod 16] = 10]; the read returns [s[(0 - 6) mod 16] = 11]. *)
Lemma RingBuffer_delay_truncation_counterexample :
  exists (rb rb' : RingBuffer.t) (v : float),
    (let* rb := pushAll (prepare RingBuffer.init 16 44100) ramp16 in
     setDelayTime rb (F32.lit 7 44100) F32.zero) = Ok rb /\
    SmoothedValue.isSmoothing (delayTime rb) = false /\
    toUint (F32.mul (F32.ofZ 44100) (F32.lit 7 44100)) = Ok 6 /\
    writeIndex rb = 0 /\
    getFromBufferNoInterp rb = Ok (v, rb') /\
    v = F32.ofZ 11 /\
    ramp16 !! Z.to_nat ((writeIndex rb - 7) mod 16) = Some (F32.ofZ 10) /\
    ramp16 !! Z.to_nat ((writeIndex rb - 7) mod 16) <> Some v.
Proof.
  eexists. eexists. eexists.
  split; [vm_compute; reflexivity|].
  split; [vm_compute; reflexivity|].
  split; [vm_compute; reflexivity|].
  split; [vm_compute; reflexivity|].
  split; [vm_compute; reflexivity|].
  split; [vm_compute; reflexivity|].
  split; [vm_compute; reflexivity|].
  vm_compute. discriminate.
Qed.

(** The offsets [uint (44100.0f * (k / 44100.0f))] for [k = 0, ..., 15]:
    the product rounds below [k] at 7 and at 14. *)
Lemma RingBuffer_offsets_at_44100 :
  List.map (fun k => toUint (F32.mul (F32.ofZ 44100) (F32.lit k 44100)))
           (seqZ 0 16)
  = List.map Ok [0; 1; 2; 3; 4; 5; 6; 6; 8; 9; 10; 11; 12; 13; 13; 15].
Proof. vm_compute. reflexivity. Qed.

(** With the default smoothing time the delay time ramps: capacity 4 at
    20 Hz, samples 1, ..., 4, delay [2 / 20]: the ramp has two steps, and
    three reads in a row return 4, 3, 3; only from the second read on is the
    sample the one written two steps earlier. *)
Lemma RingBuffer_delay_ramp_reads :
  exists rb' : RingBuffer.t,
    (let* rb0 := pushAll (prepare RingBuffer.init 4 20) ramp4 in
     let* rb := setDelayTime rb0 (F32.lit 2 20) defaultSmoothTime in
     readAll 3 rb)
    = Ok ([F32.ofZ 4; F32.ofZ 3; F32.ofZ 3], rb').
Proof. eexists. vm_compute. reflexivity. Qed.

End RoundTripExamples.

(** ** Comb filter: one step *)

Section CombFilterStepIeee.
Import Num Ieee Ieee.RingBuffer.

Lemma toUint_toInt (x : float) (z : Z) :
  toUint x = Ok z -> z < 2 ^ 31 -> toInt x = Ok z.
Proof.
  unfold toUint, toInt. destruct (truncZ x) as [t|]; [|discriminate].
  destruct (Z.leb_spec 0 t); destruct (Z.ltb_spec t UINT_MOD);
    cbn [andb]; intros Hx; inversion Hx; subst; intros Hz.
  destruct (Z.leb_spec (- 2 ^ 31) z); [|lia].
  destruct (Z.ltb_spec z (2 ^ 31)); [|lia].
  reflexivity.
Qed.

Lemma cellAt_get (rb : RingBuffer.t) (i : Z) (a : float) :
  allocated rb -> cellAt rb i = Some a ->
  HeapBlock.get (buffer rb) i = Ok a.
Proof.
  intros [Hb _]. unfold cellAt, HeapBlock.get.
  destruct (Z.leb_spec 0 i); [|discriminate].
  destruct (Z.ltb_spec i (size rb)); [|discriminate].
  cbn [andb]. intros E. rewrite Hb.
  destruct (Z.leb_spec (size rb) i); [lia|].
  now rewrite E.
Qed.

Lemma cellAt_range (rb : RingBuffer.t) (i : Z) (a : float) :
  cellAt rb i = Some a -> 0 <= i < size rb.
Proof.
  unfold cellAt.
  destruct (Z.leb_spec 0 i); [|discriminate].
  destruct (Z.ltb_spec i (size rb)); [|discriminate].
  lia.
Qed.

Lemma cellAt_get_wrap (rb : RingBuffer.t) (i : Z) (a : float) :
  allocated rb -> size rb <= UINT_MOD -> cellAt rb i = Some a ->
  HeapBlock.get (buffer rb) (wrap i) = Ok a.
Proof.
  intros Ha Hs E. pose proof (cellAt_range _ _ _ E).
  rewrite wrap_small by lia. now apply cellAt_get.
Qed.

Lemma cellAt_stepDelay (rb : RingBuffer.t) (i : Z) :
  cellAt (snd (stepDelay rb)) i = cellAt rb i.
Proof.
  unfold cellAt. destruct (Ieee_stepDelay_frame rb) as (-> & -> & _).
  reflexivity.
Qed.

Lemma allocated_stepDelay (rb : RingBuffer.t) :
  allocated rb -> allocated (snd (stepDelay rb)).
Proof.
  unfold allocated. destruct (Ieee_stepDelay_frame rb) as (-> & -> & _).
  tauto.
Qed.

(** The read a comb filter makes in [process]: the offset is the one of
    [nextOffset], the index [(writeIndex - offset) mod size], and the value
    the tap of the interpolation mode. *)
Lemma Ieee_getFromBuffer_tap (c : CombFilter.t) (off : Z) (d : float) :
  let rb := CombFilter.delay c in
  let p := CombFilter.parameters c in
  allocated rb -> 0 <= writeIndex rb < size rb -> size rb < 2 ^ 31 ->
  toUint (nextOffset c) = Ok off -> off <= size rb ->
  tap rb (CombFilter.interpType p) ((writeIndex rb - off) mod size rb)
      (F32.sub (nextOffset c) (F32.ofZ off)) = Some d ->
  getFromBuffer rb (CombFilter.interpType p) = Ok (d, snd (stepDelay rb)).
Proof.
  intros rb p Ha Hw Hs Ho Hoff Ht.
  pose proof (toUint_range _ _ Ho) as Hr.
  pose proof (Ieee_stepDelay_frame rb) as F. cbn zeta in F.
  pose proof (allocated_stepDelay rb Ha) as Ha1.
  pose proof (cellAt_stepDelay rb) as Hc.
  assert (HM : Math.mod1 (nextOffset c)
               = Ok (F32.sub (nextOffset c) (F32.ofZ off))).
  { unfold Math.mod1. rewrite (toUint_toInt _ _ Ho) by lia. reflexivity. }
  assert (HU : UINT_MOD = 2 ^ 32) by reflexivity.
  assert (HI : getReadIndex (snd (stepDelay rb)) off
               = (writeIndex rb - off) mod size rb).
  { destruct F as (_ & F2 & F3 & _).
    rewrite Ieee_getReadIndex_mod by (rewrite ?F2, ?F3; lia).
    now rewrite F2, F3. }
  assert (SD : fst (stepDelay rb)
               = fst (SmoothedValue.getNextValue (delayTime rb))).
  { unfold stepDelay.
    destruct (SmoothedValue.getNextValue (delayTime rb)); reflexivity. }
  assert (SR : sampleRate (snd (stepDelay rb)) = sampleRate rb)
    by (destruct F as (_ & _ & _ & F4 & _); exact F4).
  assert (SZ : size (snd (stepDelay rb)) <= UINT_MOD)
    by (destruct F as (_ & -> & _); lia).
  unfold nextOffset in Ho, Ht, HM. fold rb p in Ho, Ht, HM.
  rewrite <- SD in Ho, Ht, HM. rewrite <- SR in Ho, Ht, HM.
  unfold tap in Ht. rewrite <- !Hc in Ht.
  rewrite <- HI in Ht. clear HI SD SR F Hc.
  unfold getFromBuffer, getFromBufferNoInterp, getFromBufferLinearInterp,
    getFromBufferCubicInterp.
  revert Ho Ht HM.
  destruct (stepDelay rb) as [dl rb1]. cbn [fst snd] in *.
  destruct (CombFilter.interpType p); intros Ho Ht HM.
  - (* noInterp *)
    rewrite Ho. cbn [bind].
    rewrite (cellAt_get _ _ _ Ha1 Ht). reflexivity.
  - (* linearInterp *)
    rewrite Ho. cbn [bind].
    destruct (cellAt rb1 (getReadIndex rb1 off)) as [a|] eqn:Ea;
      [|discriminate].
    destruct (cellAt rb1 (getReadIndex rb1 off - 1)) as [b|] eqn:Eb;
      [|discriminate].
    rewrite (cellAt_get _ _ _ Ha1 Ea). cbn [bind].
    rewrite (cellAt_get_wrap _ _ _ Ha1 SZ Eb). cbn [bind].
    rewrite HM. cbn [bind]. now inversion Ht.
  - (* cosineInterp *)
    rewrite Ho. cbn [bind].
    rewrite (cellAt_get _ _ _ Ha1 Ht). reflexivity.
  - (* cubicInterp *)
    rewrite Ho. cbn [bind].
    destruct (cellAt rb1 (getReadIndex rb1 off + 1)) as [s1|] eqn:E1;
      [|discriminate].
    destruct (cellAt rb1 (getReadIndex rb1 off)) as [s2|] eqn:E2;
      [|discriminate].
    destruct (cellAt rb1 (getReadIndex rb1 off - 1)) as [s3|] eqn:E3;
      [|discriminate].
    destruct (cellAt rb1 (getReadIndex rb1 off - 2)) as [s4|] eqn:E4;
      [|discriminate].
    rewrite (cellAt_get_wrap _ _ _ Ha1 SZ E1). cbn [bind].
    rewrite (cellAt_get _ _ _ Ha1 E2). cbn [bind].
    rewrite (cellAt_get_wrap _ _ _ Ha1 SZ E3). cbn [bind].
    rewrite (cellAt_get_wrap _ _ _ Ha1 SZ E4). cbn [bind].
    rewrite HM. cbn [bind]. now inversion Ht.
  - (* hermiteInterp *)
    rewrite Ho. cbn [bind].
    rewrite (cellAt_get _ _ _ Ha1 Ht). reflexivity.
Qed.

(** C8 (as amended): in a comb filter whose delay line is allocated, with
    the write index inside it and the read offset [off] (the truncated
    product of rate and next delay time) at most the size, let [d] be the
    delayed sample: the tap of the interpolation mode at the index
    [(writeIndex - off) mod size] with the fractional part of the offset.
    One [process] step on the input [x] returns [x + d * wet], writes
    [x + d * feedback] at the write index and nowhere else, advances the
    write index by one modulo the size and the delay time by one step of its
    ramp, and keeps the parameters.  The feedback [setParameters] stores is
    the clamped one, and it lies in [[0, 1]] unless it is NaN. *)
Theorem CombFilter_process_step
    (c : CombFilter.t) (x d : float) (off : Z) :
  let rb := CombFilter.delay c in
  let p := CombFilter.parameters c in
  allocated rb -> 0 <= writeIndex rb < size rb -> size rb < 2 ^ 31 ->
  toUint (nextOffset c) = Ok off -> off <= size rb ->
  tap rb (CombFilter.interpType p) ((writeIndex rb - off) mod size rb)
      (F32.sub (nextOffset c) (F32.ofZ off)) = Some d ->
  (exists c' : CombFilter.t,
     CombFilter.process c (Some x)
     = Ok (F32.add x (F32.mul d (CombFilter.wet p)), c') /\
     CombFilter.parameters c' = p /\
     allocated (CombFilter.delay c') /\
     size (CombFilter.delay c') = size rb /\
     sampleRate (CombFilter.delay c') = sampleRate rb /\
     writeIndex (CombFilter.delay c') = (writeIndex rb + 1) mod size rb /\
     delayTime (CombFilter.delay c')
     = snd (SmoothedValue.getNextValue (delayTime rb)) /\
     HeapBlock.data (buffer (CombFilter.delay c'))
     = <[Z.to_nat (writeIndex rb)
         := F32.add x (F32.mul d (CombFilter.feedback p))]>
         (HeapBlock.data (buffer rb))) /\
  (forall (newParams : CombFilter.Parameters) (freqOffset : float)
          (c2 : CombFilter.t),
     CombFilter.setParameters c newParams freqOffset = Ok c2 ->
     let fb := CombFilter.feedback (CombFilter.parameters c2) in
     fb = Math.setClamp (CombFilter.feedback newParams) F32.zero F32.one /\
     (isNaN fb = true \/
      (leb F32.zero fb = true /\ leb fb F32.one = true))).
Proof.
  intros rb p Ha Hw Hs Ho Hoff Ht. split.
  - pose proof (Ieee_getFromBuffer_tap c off d Ha Hw Hs Ho Hoff Ht) as HG.
    fold rb p in HG.
    pose proof (Ieee_stepDelay_frame rb) as F. cbn zeta in F.
    destruct F as (F1 & F2 & F3 & F4 & _).
    pose proof (allocated_stepDelay rb Ha) as Ha1.
    assert (HU : UINT_MOD = 2 ^ 32) by reflexivity.
    destruct (Ieee_pushToBuffer_spec (snd (stepDelay rb))
                (F32.add x (F32.mul d (CombFilter.feedback p))) Ha1
                ltac:(rewrite F2, F3; lia) ltac:(rewrite F2; lia))
      as (rb' & HP & A' & S' & R' & _ & D' & W' & B').
    exists (CombFilter.mk rb' p).
    split.
    { unfold CombFilter.process, CombFilter.getDelay. fold rb p.
      assert (E : match CombFilter.interpType p with
                  | noInterp => getFromBuffer rb noInterp
                  | linearInterp => getFromBuffer rb linearInterp
                  | cubicInterp => getFromBuffer rb cubicInterp
                  | _ => getFromBuffer rb noInterp
                  end = getFromBuffer rb (CombFilter.interpType p))
        by (destruct (CombFilter.interpType p); reflexivity).
      rewrite E, HG. cbn [bind deref CombFilter.parameters CombFilter.delay].
      rewrite HP. reflexivity. }
    cbn [CombFilter.parameters CombFilter.delay].
    split; [reflexivity|]. split; [exact A'|].
    split; [now rewrite S', F2|]. split; [now rewrite R', F4|].
    split.
    { rewrite W', F2, F3.
      destruct (Z.ltb_spec (writeIndex rb + 1) (size rb)).
      - symmetry. apply Z.mod_small. lia.
      - replace (writeIndex rb + 1) with (size rb) by lia.
        symmetry. apply Z.mod_same. lia. }
    split.
    { rewrite D'. unfold stepDelay.
      destruct (SmoothedValue.getNextValue (delayTime rb)); reflexivity. }
    rewrite B', F1, F3. reflexivity.
  - intros newParams freqOffset c2 H2 fb. subst fb.
    unfold CombFilter.setParameters in H2.
    destruct (setDelayTime _ _ _) as [d2|]; [|discriminate].
    cbn [bind] in H2. inversion H2; subst.
    cbn [CombFilter.parameters CombFilter.feedback].
    split; [reflexivity|].
    apply setClamp_range_or_nan. reflexivity.
Qed.

End CombFilterStepIeee.

(** ** Comb filter: concrete steps *)

Section CombFilterExamples.
Import Num Ieee Ieee.RingBuffer IeeeExamples.

Lemma CombFilter_process_step_witness :
  exists c' : CombFilter.t,
    CombFilter.process comb4 (Some F32.one) = Ok (F32.lit 275 100, c') /\
    writeIndex (CombFilter.delay c') = 2 /\
    HeapBlock.data (buffer (CombFilter.delay c'))
    = [F32.ofZ 5; F32.lit 1875 1000; F32.ofZ 3; F32.ofZ 4].
Proof.
  destruct (CombFilter_process_step comb4 F32.one (F32.lit 35 10) 2)
    as [(c' & H1 & _ & _ & _ & _ & H2 & _ & H3) _].
  - split; reflexivity.
  - cbn. lia.
  - cbn. lia.
  - vm_compute. reflexivity.
  - cbn. lia.
  - vm_compute. reflexivity.
  - exists c'. split; [exact H1|]. split; [exact H2|exact H3].
Defined.

(** C8 as stated fails in a comb filter that was never prepared: its delay
    line has no cells, the read of [process] leaves the allocation, and no
    sample is returned or written. *)
Lemma CombFilter_process_unprepared_counterexample :
  size (CombFilter.delay CombFilter.init) = 0 /\
  CombFilter.process CombFilter.init (Some F32.one) = Fault OutOfBounds /\
  ~ exists (out : float) (c' : CombFilter.t),
      CombFilter.process CombFilter.init (Some F32.one) = Ok (out, c').
Proof.
  split; [reflexivity|]. split; [reflexivity|].
  intros (out & c' & H). vm_compute in H. discriminate.
Qed.

End CombFilterExamples.

(** ** Comb filter prepared with a sample rate of 0 *)

Section CombFilterRateZero.
Import Num Ieee Ieee.RingBuffer.

Lemma Ieee_getReadIndex_nonneg (rb : RingBuffer.t) (off : Z) :
  0 <= getReadIndex rb off.
Proof.
  unfold getReadIndex.
  destruct (size rb <=? wrap (writeIndex rb - off + size rb));
    apply wrap_range.
Qed.

Lemma HeapBlock_get_empty (b : HeapBlock.t) (i : Z) :
  HeapBlock.size b = 0 -> 0 <= i -> HeapBlock.get b i = Fault OutOfBounds.
Proof.
  intros Hs Hi. unfold HeapBlock.get. rewrite Hs.
  destruct (Z.leb_spec 0 i); [reflexivity|lia].
Qed.

(** No read succeeds in a ring buffer whose block has no cells. *)
Lemma Ieee_getFromBuffer_empty (rb : RingBuffer.t) (interp : InterpolationType) :
  HeapBlock.size (buffer rb) = 0 ->
  exists f : fault, getFromBuffer rb interp = Fault f.
Proof.
  intros Hs.
  pose proof (Ieee_stepDelay_frame rb) as F. cbn zeta in F.
  destruct F as (F1 & _).
  unfold getFromBuffer, getFromBufferNoInterp, getFromBufferLinearInterp,
    getFromBufferCubicInterp.
  destruct (stepDelay rb) as [dl rb1]. cbn [snd] in F1.
  assert (Hs1 : HeapBlock.size (buffer rb1) = 0) by now rewrite F1.
  destruct interp;
    (destruct (toUint _) as [off|f]; cbn [bind]; [|now exists f]);
    rewrite HeapBlock_get_empty;
    try exact Hs1;
    try apply Ieee_getReadIndex_nonneg;
    try apply wrap_range;
    cbn [bind]; now eexists.
Qed.

Lemma Ieee_reset_default (dt : SmoothedValue.t) :
  SmoothedValue.reset dt (F64.ofZ 1)
    (F64.ofSingle (Math.setClamp defaultSmoothTime F32.zero defaultSmoothTime))
  = Ok (SmoothedValue.setCurrentAndTargetValue
          (SmoothedValue.mk (SmoothedValue.currentValue dt)
             (SmoothedValue.target dt) (SmoothedValue.step dt)
             (SmoothedValue.countdown dt) 0)
          (SmoothedValue.target dt)).
Proof.
  unfold SmoothedValue.reset.
  assert (E : F64.floorToInt
                (F64.mul
                   (F64.ofSingle
                      (Math.setClamp defaultSmoothTime F32.zero
                         defaultSmoothTime))
                   (F64.ofZ 1)) = Ok 0) by (vm_compute; reflexivity).
  rewrite E. reflexivity.
Qed.

(** [prepare (0)] on a comb filter whose delay line is allocated returns,
    leaving a delay line of no cells at the rate 1; every later [process]
    leaves the allocation on its read, whatever the input. *)
Theorem CombFilter_prepare_zero (c : CombFilter.t) :
  allocated (CombFilter.delay c) ->
  exists c' : CombFilter.t,
    CombFilter.prepare c 0 = Ok c' /\
    size (CombFilter.delay c') = 0 /\
    sampleRate (CombFilter.delay c') = 1 /\
    HeapBlock.data (buffer (CombFilter.delay c')) = [] /\
    HeapBlock.size (buffer (CombFilter.delay c')) = 0 /\
    forall input : option float,
      exists f : fault, CombFilter.process c' input = Fault f.
Proof.
  intros [Hb Hl].
  assert (P : exists rb1,
             prepare (CombFilter.delay c) 0 0 = rb1 /\
             size rb1 = 0 /\ sampleRate rb1 = 1 /\
             HeapBlock.data (buffer rb1) = [] /\
             HeapBlock.size (buffer rb1) = 0).
  { eexists. split; [reflexivity|].
    unfold prepare.
    change (Math.setClampU 0 0 (wrap (0 * 0 * 10))) with 0.
    destruct (Z.eqb_spec 0 (size (CombFilter.delay c))) as [E|E];
      cbn [negb].
    - assert (Hd : HeapBlock.data (buffer (CombFilter.delay c)) = []).
      { apply length_zero_iff_nil. lia. }
      destruct (Z.eqb_spec 0 (sampleRate (CombFilter.delay c))) as [E2|E2];
        cbn; rewrite <- ?E2, <- ?E, ?Hb, <- ?E; cbn; rewrite ?Hd;
        repeat split; try reflexivity; try (now rewrite <- E).
    - change (Math.setClampU 0 0 (wrap (0 * 600))) with 0.
      cbn [sampleRate size buffer writeIndex delaySmoothTime delayTime].
      destruct (Z.eqb_spec 0 (sampleRate (CombFilter.delay c))) as [E2|E2];
        cbn; rewrite <- ?E2; repeat split; reflexivity. }
  destruct P as (rb1 & HP & S1 & R1 & D1 & B1).
  unfold CombFilter.prepare. rewrite HP.
  unfold setDelayTime. rewrite R1.
  destruct (neb defaultSmoothTime (delaySmoothTime rb1)).
  - rewrite Ieee_reset_default. cbn [bind].
    eexists. split; [reflexivity|].
    cbn [CombFilter.delay size sampleRate buffer].
    repeat split; try assumption.
    intros input. unfold CombFilter.process, CombFilter.getDelay.
    cbn [CombFilter.delay CombFilter.parameters].
    destruct (CombFilter.interpType (CombFilter.parameters c));
      match goal with
      | |- context [getFromBuffer ?rb ?i] =>
          destruct (Ieee_getFromBuffer_empty rb i B1) as [f ->]
      end; cbn [bind]; now exists f.
  - cbn [bind].
    eexists. split; [reflexivity|].
    cbn [CombFilter.delay size sampleRate buffer].
    repeat split; try assumption.
    intros input. unfold CombFilter.process, CombFilter.getDelay.
    cbn [CombFilter.delay CombFilter.parameters].
    destruct (CombFilter.interpType (CombFilter.parameters c));
      match goal with
      | |- context [getFromBuffer ?rb ?i] =>
          destruct (Ieee_getFromBuffer_empty rb i B1) as [f ->]
      end; cbn [bind]; now exists f.
Qed.

Lemma CombFilter_prepare_zero_witness :
  exists c' : CombFilter.t,
    CombFilter.prepare IeeeExamples.comb4 0 = Ok c' /\
    size (CombFilter.delay c') = 0 /\
    sampleRate (CombFilter.delay c') = 1 /\
    HeapBlock.data (buffer (CombFilter.delay c')) = [] /\
    HeapBlock.size (buffer (CombFilter.delay c')) = 0 /\
    forall input : option float,
      exists f : fault, CombFilter.process c' input = Fault f.
Proof.
  apply (CombFilter_prepare_zero IeeeExamples.comb4).
  split; reflexivity.
Defined.

End CombFilterRateZero.

(** ** Signal chain: the safety clip *)

Section SafetyClipIeee.
Import Num Ieee Ieee.RiserProcessor.

Lemma Ieee_processFrame_clipped (s s' : RiserProcessor.t)
    (l r oL oR : float) :
  processFrame s l r = Ok (oL, oR, s') ->
  clippedOrNaN oL /\ clippedOrNaN oR.
Proof.
  unfold processFrame. intros H.
  repeat match type of H with
         | bind ?m _ = _ =>
             destruct m as [[[? ?] ?]|] eqn:?; cbn [bind] in H;
             [|discriminate]
         | bind ?m _ = _ =>
             destruct m as [[? ?]|] eqn:?; cbn [bind] in H;
             [|discriminate]
         end.
  inversion H; subst.
  split; apply setClamp_range_or_nan; reflexivity.
Qed.

Lemma Ieee_processLoop_spec (count : nat) :
  forall (i : nat) (s s' : RiserProcessor.t) (left right l' r' : list float),
    processLoop count i s left right = Ok (l', r', s') ->
    length l' = length left /\ length r' = length right /\
    (forall j : nat, (j < i)%nat ->
       l' !! j = left !! j /\ r' !! j = right !! j) /\
    (forall j : nat, (i <= j < i + count)%nat ->
       exists x y : float,
         l' !! j = Some x /\ r' !! j = Some y /\
         clippedOrNaN x /\ clippedOrNaN y) /\
    (forall j : nat, (i + count <= j)%nat ->
       l' !! j = left !! j /\ r' !! j = right !! j).
Proof.
  induction count as [|count IH]; intros i s s' left right l' r' H.
  - cbn in H. inversion H; subst.
    repeat split; try reflexivity. intros j Hj. lia.
  - cbn [processLoop] in H.
    destruct (left !! i) as [l|] eqn:El; [|discriminate].
    destruct (right !! i) as [r|] eqn:Er; [|discriminate].
    destruct (processFrame s l r) as [[[oL oR] s1]|] eqn:EF;
      cbn [bind] in H; [|discriminate].
    destruct (Ieee_processFrame_clipped _ _ _ _ _ _ EF) as [CL CR].
    apply IH in H. destruct H as (L1 & L2 & Hlt & Hin & Hge).
    rewrite length_insert in L1, L2.
    pose proof (lookup_lt_Some _ _ _ El) as Bl.
    pose proof (lookup_lt_Some _ _ _ Er) as Br.
    split; [exact L1|]. split; [exact L2|]. split; [|split].
    + intros j Hj. destruct (Hlt j ltac:(lia)) as [A B].
      rewrite A, B.
      rewrite !list_lookup_insert_ne by lia. split; reflexivity.
    + intros j Hj. destruct (Nat.eq_dec j i) as [->|Hne].
      * destruct (Hlt i ltac:(lia)) as [A B].
        exists oL, oR. rewrite A, B.
        rewrite !list_lookup_insert_eq by lia.
        repeat split; assumption.
      * apply Hin. lia.
    + intros j Hj. destruct (Hge j ltac:(lia)) as [A B].
      rewrite A, B.
      rewrite !list_lookup_insert_ne by lia. split; reflexivity.
Qed.

(** When [process] returns, every one of the [numSamples] samples it wrote
    is NaN or lies within the ceiling [+-1.2f], and the samples beyond are
    the ones passed in. *)
Theorem RiserProcessor_process_clipped_or_nan
    (s : RiserProcessor.t) (left right l' r' : list float)
    (numSamples : Z) :
  0 < numSamples ->
  written (process s (Some left) (Some right) numSamples) = Some (l', r') ->
  length l' = length left /\ length r' = length right /\
  (forall j : nat, (j < Z.to_nat numSamples)%nat ->
     exists x y : float,
       l' !! j = Some x /\ r' !! j = Some y /\
       clippedOrNaN x /\ clippedOrNaN y) /\
  (forall j : nat, (Z.to_nat numSamples <= j)%nat ->
     l' !! j = left !! j /\ r' !! j = right !! j).
Proof.
  intros Hn H. unfold process in H.
  destruct (Z.leb_spec numSamples 0); [lia|].
  destruct (processLoop _ _ _ _ _) as [[[l1 r1] s1]|] eqn:E;
    cbn [bind written] in H; [|discriminate].
  inversion H; subst.
  destruct (Ieee_processLoop_spec _ _ _ _ _ _ _ _ E)
    as (L1 & L2 & _ & Hin & Hge).
  split; [exact L1|]. split; [exact L2|]. split.
  - intros j Hj. apply Hin. lia.
  - intros j Hj. apply Hge. lia.
Qed.

Lemma RiserProcessor_process_clipped_or_nan_witness :
  let left := [F32.ofZ 5000; IeeeExamples.half; F32.ofZ 7] in
  let right := [F32.ofZ (-5000); IeeeExamples.half; F32.ofZ 9] in
  match IeeeExamples.riser44k with
  | Ok s =>
      exists l' r' : list float,
        written (process s (Some left) (Some right) 2) = Some (l', r') /\
        l' !! 0%nat = Some ceil /\ r' !! 0%nat = Some (neg ceil) /\
        (forall j : nat, (j < 2)%nat ->
           exists x y : float,
             l' !! j = Some x /\ r' !! j = Some y /\
             clippedOrNaN x /\ clippedOrNaN y) /\
        l' !! 2%nat = Some (F32.ofZ 7) /\ r' !! 2%nat = Some (F32.ofZ 9)
  | Fault _ => False
  end.
Proof.
  intros left right.
  assert (W : exists l' r' : list float,
            written (let* s := IeeeExamples.riser44k in
                     process s (Some left) (Some right) 2) = Some (l', r') /\
            l' !! 0%nat = Some ceil /\ r' !! 0%nat = Some (neg ceil)).
  { eexists. eexists. split; [vm_compute; reflexivity|].
    split; reflexivity. }
  destruct W as (l' & r' & W & W1 & W2).
  destruct IeeeExamples.riser44k as [s|f]; cbn [bind written] in W;
    [|discriminate W].
  destruct (RiserProcessor_process_clipped_or_nan s left right l' r' 2
              ltac:(lia) W) as (_ & _ & Hin & Hge).
  exists l', r'. split; [exact W|]. split; [exact W1|]. split; [exact W2|].
  split; [exact Hin|].
  destruct (Hge 2%nat ltac:(cbn; lia)) as [A B].
  split; [exact A|exact B].
Defined.

End SafetyClipIeee.
